(** * stock_advisor: indicator pipeline, signal fusion and anomaly detection

    A shallow embedding of [analysis/indicators.py], [analysis/signals.py]
    and [analysis/anomaly.py], together with the pandas operations those
    modules call, and the properties of the specification stated over it.

    Numbers.  A pandas/numpy [float64] cell is modelled by [fl]: a rational,
    one of the two infinities, or NaN.  Arithmetic is exact: the rounding of
    binary floating point and the sign of zero are not modelled, everything
    else (NaN propagation, division by zero, comparisons with NaN) follows
    IEEE 754 as numpy applies it to a [float64] column. *)

From Stdlib Require Import ZArith QArith Qround Qabs Lqa Lia Bool List.
From stdpp Require Import gmap strings list pretty.

Local Open Scope Q_scope.

(** ** Floats *)

Inductive fl : Type :=
  | Fin (q : Q)
  | PInf
  | NInf
  | NaN.

Module Fl.

Definition zero : fl := Fin 0.
Definition of_Z (z : Z) : fl := Fin (inject_Z z).

Definition neg (x : fl) : fl :=
  match x with
  | Fin q => Fin (- q)
  | PInf => NInf
  | NInf => PInf
  | NaN => NaN
  end.

Definition add (x y : fl) : fl :=
  match x, y with
  | NaN, _ | _, NaN => NaN
  | Fin a, Fin b => Fin (a + b)
  | PInf, NInf | NInf, PInf => NaN
  | PInf, _ | _, PInf => PInf
  | NInf, _ | _, NInf => NInf
  end.

Definition sub (x y : fl) : fl := add x (neg y).

(** The infinity carrying the sign of [q]; NaN for [q == 0]. *)
Definition signed_inf (q : Q) : fl :=
  match q ?= 0 with
  | Gt => PInf
  | Lt => NInf
  | Eq => NaN
  end.

Definition mul (x y : fl) : fl :=
  match x, y with
  | NaN, _ | _, NaN => NaN
  | Fin a, Fin b => Fin (a * b)
  | Fin a, PInf | PInf, Fin a => signed_inf a
  | Fin a, NInf | NInf, Fin a => signed_inf (- a)
  | PInf, PInf | NInf, NInf => PInf
  | PInf, NInf | NInf, PInf => NInf
  end.

(** numpy division: [x / 0] is an infinity of the sign of [x], [0 / 0] is
    NaN, and nothing is raised. *)
Definition div (x y : fl) : fl :=
  match x, y with
  | NaN, _ | _, NaN => NaN
  | Fin a, Fin b =>
      if Qeq_bool b 0 then signed_inf a else Fin (a / b)
  | Fin _, (PInf | NInf) => Fin 0
  | PInf, Fin b => if Qle_bool 0 b then PInf else NInf
  | NInf, Fin b => if Qle_bool 0 b then NInf else PInf
  | (PInf | NInf), (PInf | NInf) => NaN
  end.

Definition abs (x : fl) : fl :=
  match x with
  | Fin q => Fin (Qabs q)
  | PInf | NInf => PInf
  | NaN => NaN
  end.

(** Comparisons; every comparison with NaN is false. *)
Definition ltb (x y : fl) : bool :=
  match x, y with
  | NaN, _ | _, NaN => false
  | Fin a, Fin b => negb (Qle_bool b a)
  | NInf, (Fin _ | PInf) => true
  | Fin _, PInf => true
  | _, _ => false
  end.

Definition leb (x y : fl) : bool :=
  match x, y with
  | NaN, _ | _, NaN => false
  | Fin a, Fin b => Qle_bool a b
  | NInf, _ => true
  | _, PInf => true
  | _, _ => false
  end.

Definition gtb (x y : fl) : bool := ltb y x.
Definition geb (x y : fl) : bool := leb y x.

Definition eqb (x y : fl) : bool :=
  match x, y with
  | Fin a, Fin b => Qeq_bool a b
  | PInf, PInf | NInf, NInf => true
  | _, _ => false
  end.

(** [pd.notna] on a float cell. *)
Definition notna (x : fl) : bool :=
  match x with
  | NaN => false
  | _ => true
  end.

(** [np.sign]. *)
Definition sign (x : fl) : fl :=
  match x with
  | Fin q =>
      match q ?= 0 with
      | Gt => Fin 1
      | Lt => Fin (-1)
      | Eq => Fin 0
      end
  | PInf => Fin 1
  | NInf => Fin (-1)
  | NaN => NaN
  end.

(** Equality of cells up to the representation of the rational. *)
Definition equiv (x y : fl) : Prop :=
  match x, y with
  | Fin a, Fin b => a == b
  | PInf, PInf | NInf, NInf | NaN, NaN => True
  | _, _ => False
  end.

End Fl.

Declare Scope fl_scope.
Delimit Scope fl_scope with fl.
Bind Scope fl_scope with fl.
Infix "+" := Fl.add : fl_scope.
Infix "-" := Fl.sub : fl_scope.
Infix "*" := Fl.mul : fl_scope.
Infix "/" := Fl.div : fl_scope.
Notation "- x" := (Fl.neg x) : fl_scope.
Infix "<?" := Fl.ltb : fl_scope.
Infix "<=?" := Fl.leb : fl_scope.
Infix ">?" := Fl.gtb : fl_scope.
Infix ">=?" := Fl.geb : fl_scope.

(** [pd.notna(row.get(col))]: a missing column gives [None], which is not a
    value either. *)
Definition notna_opt (o : option fl) : bool :=
  match o with
  | Some x => Fl.notna x
  | None => false
  end.

(** ** Series: the pandas operations the modules call

    A numeric column is a list of cells, indexed from 0 in date order. *)

Abbreviation Series := (list fl).

Module Pd.

Definition add (xs ys : Series) : Series := zip_with Fl.add xs ys.
Definition sub (xs ys : Series) : Series := zip_with Fl.sub xs ys.
Definition mul (xs ys : Series) : Series := zip_with Fl.mul xs ys.
Definition div (xs ys : Series) : Series := zip_with Fl.div xs ys.
Definition neg (xs : Series) : Series := map Fl.neg xs.
Definition abs (xs : Series) : Series := map Fl.abs xs.
Definition gt (xs ys : Series) : list bool := zip_with Fl.gtb xs ys.
Definition lt (xs ys : Series) : list bool := zip_with Fl.ltb xs ys.

(** Scalar on the left or right of a column. *)
Definition smul (c : Q) (xs : Series) : Series := map (Fl.mul (Fin c)) xs.
Definition sadd (c : Q) (xs : Series) : Series := map (Fl.add (Fin c)) xs.
Definition ssub (c : Q) (xs : Series) : Series := map (Fl.sub (Fin c)) xs.
Definition sdiv (c : Q) (xs : Series) : Series := map (Fl.div (Fin c)) xs.
Definition muls (xs : Series) (c : Q) : Series := map (fun x => Fl.mul x (Fin c)) xs.
Definition subs (xs : Series) (c : Q) : Series := map (fun x => Fl.sub x (Fin c)) xs.
Definition divs (xs : Series) (c : Q) : Series := map (fun x => Fl.div x (Fin c)) xs.

(** [s.shift(k)]: every value moves [k] rows down, NaN fills the top. *)
Definition shift (k : nat) (xs : Series) : Series :=
  take (length xs) (replicate k NaN ++ xs).

(** [s.diff()]. *)
Definition diff (xs : Series) : Series := sub xs (shift 1 xs).

(** [s.clip(lower=lo)] and [s.clip(upper=hi)]; NaN stays NaN. *)
Definition clip_lower (lo : Q) (xs : Series) : Series :=
  map (fun x => if Fl.ltb x (Fin lo) then Fin lo else x) xs.
Definition clip_upper (hi : Q) (xs : Series) : Series :=
  map (fun x => if Fl.gtb x (Fin hi) then Fin hi else x) xs.

(** [s.where(cond, other)]. *)
Definition where_ (xs : Series) (cond : list bool) (other : fl) : Series :=
  zip_with (fun x (c : bool) => if c then x else other) xs cond.

(** [s.fillna(v)]. *)
Definition fillna (v : fl) (xs : Series) : Series :=
  map (fun x => if Fl.notna x then x else v) xs.

(** [s.replace(0, np.nan)]. *)
Definition replace_zero_nan (xs : Series) : Series :=
  map (fun x => if Fl.eqb x (Fin 0) then NaN else x) xs.

(** [np.sign(s)]. *)
Definition sign (xs : Series) : Series := map Fl.sign xs.

(** [s.cumsum()]: missing cells are skipped by the running sum and stay
    missing in the result. *)
Fixpoint cumsum_from (acc : fl) (xs : Series) : Series :=
  match xs with
  | [] => []
  | x :: rest =>
      if Fl.notna x
      then let acc' := Fl.add acc x in acc' :: cumsum_from acc' rest
      else NaN :: cumsum_from acc rest
  end.
Definition cumsum (xs : Series) : Series := cumsum_from (Fin 0) xs.

(** [pd.concat([a, b, c], axis=1).max(axis=1)]: the row maximum over the
    cells that are not missing, NaN when all three are. *)
Definition nanmax (x y : fl) : fl :=
  match Fl.notna x, Fl.notna y with
  | false, _ => y
  | _, false => x
  | true, true => if Fl.ltb x y then y else x
  end.
Fixpoint max3 (xs ys zs : Series) : Series :=
  match xs, ys, zs with
  | x :: xs', y :: ys', z :: zs' => nanmax (nanmax x y) z :: max3 xs' ys' zs'
  | _, _, _ => []
  end.

(** The windowed operations ([rolling], [ewm]) first turn infinite cells
    into missing ones. *)
Definition prep_value (x : fl) : fl :=
  match x with
  | Fin q => Fin q
  | _ => NaN
  end.
Definition prep_values (xs : Series) : Series := map prep_value xs.

(** Window ending at row [t], of [p] rows, when [t] has [p - 1] rows
    before it. *)
Definition window (p t : nat) (xs : Series) : option (list fl) :=
  if (p <=? S t)%nat then Some (take p (drop (S t - p) xs)) else None.

(** [s.rolling(p).agg()] with the default [min_periods = p]: defined only
    on a full window without a missing cell.  The aggregate is recomputed
    on each window (pandas updates it incrementally, which is the same
    number in exact arithmetic). *)
Definition rolling (p : nat) (agg : list fl -> fl) (xs : Series) : Series :=
  let vals := prep_values xs in
  map (fun t =>
         match window p t vals with
         | Some w => if forallb Fl.notna w then agg w else NaN
         | None => NaN
         end)
      (seq 0 (length xs)).

Definition fsum (w : list fl) : fl := fold_left Fl.add w (Fin 0).
Definition fmean (w : list fl) : fl :=
  Fl.div (fsum w) (Fl.of_Z (Z.of_nat (length w))).

Definition rolling_mean (p : nat) : Series -> Series := rolling p fmean.
Definition rolling_sum (p : nat) : Series -> Series := rolling p fsum.

(** Sample variance ([ddof = 1]); undefined on a single observation. *)
Definition fvar (w : list fl) : fl :=
  match length w with
  | 0%nat | 1%nat => NaN
  | S n =>
      let m := fmean w in
      Fl.div (fsum (map (fun x => Fl.mul (Fl.sub x m) (Fl.sub x m)) w))
             (Fl.of_Z (Z.of_nat n))
  end.

(** [s.pct_change(n)], without filling missing cells first. *)
Definition pct_change (n : nat) (xs : Series) : Series :=
  subs (div xs (shift n xs)) 1.

(** *** Exponentially weighted mean

    [s.ewm(com=.., adjust=.., min_periods=..).mean()], following the loop
    of pandas' [window/aggregations.pyx] (default [ignore_na=False], unit
    time steps). *)
Record ewm_state := EwmState {
  weighted : fl;
  old_wt : Q;
  nobs : nat
}.

Definition ewm_step (alpha : Q) (adjust : bool) (st : ewm_state) (cur : fl)
  : ewm_state :=
  let old_wt_factor := 1 - alpha in
  let new_wt := if adjust then 1 else alpha in
  let is_observation := Fl.notna cur in
  let nobs' := if is_observation then S (nobs st) else nobs st in
  if Fl.notna (weighted st) then
    let old_wt' := old_wt st * old_wt_factor in
    if is_observation then
      let weighted' :=
        if Fl.eqb (weighted st) cur then weighted st
        else Fl.div (Fl.add (Fl.mul (Fin old_wt') (weighted st))
                            (Fl.mul (Fin new_wt) cur))
                    (Fin (old_wt' + new_wt)) in
      EwmState weighted' (if adjust then old_wt' + new_wt else 1) nobs'
    else EwmState (weighted st) old_wt' nobs'
  else if is_observation then EwmState cur (old_wt st) nobs'
  else EwmState (weighted st) (old_wt st) nobs'.

Definition ewm_out (minp : nat) (st : ewm_state) : fl :=
  if (minp <=? nobs st)%nat then weighted st else NaN.

Fixpoint ewm_loop (alpha : Q) (adjust : bool) (minp : nat)
    (st : ewm_state) (vals : Series) : Series :=
  match vals with
  | [] => []
  | cur :: rest =>
      let st' := ewm_step alpha adjust st cur in
      ewm_out minp st' :: ewm_loop alpha adjust minp st' rest
  end.

Definition ewm_mean (com : Q) (adjust : bool) (min_periods : nat)
    (xs : Series) : Series :=
  let alpha := 1 / (1 + com) in
  let minp := Nat.max min_periods 1 in
  match prep_values xs with
  | [] => []
  | v0 :: rest =>
      let st0 := EwmState v0 1 (if Fl.notna v0 then 1 else 0) in
      ewm_out minp st0 :: ewm_loop alpha adjust minp st0 rest
  end.

(** [span] is turned into a centre of mass: [com = (span - 1) / 2]. *)
Definition com_of_span (span : nat) : Q := (inject_Z (Z.of_nat span) - 1) / 2.

End Pd.

(** ** config.py *)

Record IndicatorParams := {
  ma_periods : list nat;
  rsi_period : nat;
  macd_fast : nat;
  macd_slow : nat;
  macd_signal : nat;
  boll_period : nat;
  boll_std : Q;
  adx_period : nat;
  roc_period : nat;
  mom_period : nat;
  vol_ma_periods : list nat;
  vroc_period : nat;
  mfi_period : nat
}.

Definition INDICATOR_PARAMS : IndicatorParams := {|
  ma_periods := [5; 10; 20; 60]%nat;
  rsi_period := 14;
  macd_fast := 12;
  macd_slow := 26;
  macd_signal := 9;
  boll_period := 20;
  boll_std := 2;
  adx_period := 14;
  roc_period := 12;
  mom_period := 10;
  vol_ma_periods := [5; 10; 20]%nat;
  vroc_period := 12;
  mfi_period := 14
|}.

Record SignalThresholds := {
  rsi_overbought : Q;
  rsi_oversold : Q;
  adx_strong : Q
}.

Definition SIGNAL_THRESHOLDS : SignalThresholds := {|
  rsi_overbought := 70;
  rsi_oversold := 30;
  adx_strong := 25
|}.

(** ** Data frames, the object store and exceptions *)

(** A cell of the [date] column; the day as an ordinal. *)
Definition Timestamp := Z.

(** A frame: its index length, the [date] column when it has one, and its
    numeric columns by name. *)
Record DataFrame := mkDF {
  nrows : nat;
  date : option (list Timestamp);
  cols : gmap string Series
}.

(** Every column is as long as the index. *)
Definition wf_df (df : DataFrame) : Prop :=
  (forall ds, date df = Some ds -> length ds = nrows df) /\
  (forall c s, cols df !! c = Some s -> length s = nrows df).

(** [c in df.columns] *)
Definition has_column (df : DataFrame) (c : string) : bool :=
  if decide (c = "date"%string) then bool_decide (is_Some (date df))
  else bool_decide (is_Some (cols df !! c)).

(** [df.empty]: no rows or no columns. *)
Definition df_empty (df : DataFrame) : bool :=
  (nrows df =? 0)%nat
  || (bool_decide (date df = None) && bool_decide (cols df = ∅)).

Inductive exn : Type :=
  | KeyError (key : string)
  | ValueError (msg : string)
  | OverflowError (msg : string)
  | IndexError (msg : string)
  | InvalidRef.   (* a reference to no object of the store; never reached
                     from a live reference *)

Inductive result (A : Type) : Type :=
  | Ok (a : A)
  | Raise (e : exn).
Arguments Ok {A} a.
Arguments Raise {A} e.

(** Frames are objects: a function that receives a frame receives a
    reference, and [df[c] = s] changes the object every holder sees. *)
Definition ref := nat.
Abbreviation store := (list DataFrame).

Definition M (A : Type) : Type := store -> result A * store.

#[global] Instance M_ret : MRet M := fun A a st => (Ok a, st).
#[global] Instance M_bind : MBind M := fun A B f m st =>
  match m st with
  | (Ok a, st') => f a st'
  | (Raise e, st') => (Raise e, st')
  end.

Definition raise {A} (e : exn) : M A := fun st => (Raise e, st).

(** [df.copy()]: a new object with the same content. *)
Definition df_copy (r : ref) : M ref := fun st =>
  match st !! r with
  | Some df => (Ok (length st), st ++ [df])
  | None => (Raise InvalidRef, st)
  end.

(** [df[c]] for a numeric column. *)
Definition getitem (r : ref) (c : string) : M Series := fun st =>
  match st !! r with
  | Some df =>
      match cols df !! c with
      | Some s => (Ok s, st)
      | None => (Raise (KeyError c), st)
      end
  | None => (Raise InvalidRef, st)
  end.

(** [df[c] = s], in place. *)
Definition setitem (r : ref) (c : string) (s : Series) : M unit := fun st =>
  match st !! r with
  | Some df =>
      (Ok tt, <[r := mkDF (nrows df) (date df) (<[c := s]> (cols df))]> st)
  | None => (Raise InvalidRef, st)
  end.

(** [for x in xs: body(x)] *)
Fixpoint for_ {A} (xs : list A) (body : A -> M unit) : M unit :=
  match xs with
  | [] => mret tt
  | x :: rest => body x ;; for_ rest body
  end.

(** [f"MA{p}"] and the like. *)
Definition fname (s : string) (p : nat) : string := s +:+ pretty p.

(** ** analysis/indicators.py *)

Definition Qnat (n : nat) : Q := inject_Z (Z.of_nat n).

Section Indicators.

(** The floating-point square root (of a finite, non-negative number),
    which the rationals do not have; only the rolling standard deviation
    of the Bollinger bands uses it. *)
Variable fsqrt : Q -> Q.

Definition fstd (w : list fl) : fl :=
  match Pd.fvar w with
  | Fin v => Fin (fsqrt v)
  | x => x
  end.
Definition rolling_std (p : nat) : Series -> Series := Pd.rolling p fstd.

Local Abbreviation P := INDICATOR_PARAMS.

(* ── price indicators ── *)

Definition _ma (df : ref) : M ref :=
  for_ (ma_periods P) (fun p =>
    close ← getitem df "close";
    setitem df (fname "MA" p) (Pd.rolling_mean p close));;
  mret df.

Definition _roc (df : ref) : M ref :=
  let n := roc_period P in
  close ← getitem df "close";
  setitem df "ROC" (Pd.muls (Pd.pct_change n close) 100);;
  mret df.

Definition _momentum (df : ref) : M ref :=
  let n := mom_period P in
  close ← getitem df "close";
  close' ← getitem df "close";
  setitem df "MOM" (Pd.sub close (Pd.shift n close'));;
  mret df.

(** The RSI column computed from the [close] column. *)
Definition rsi_of (n : nat) (close : Series) : Series :=
  let delta := Pd.diff close in
  let gain := Pd.clip_lower 0 delta in
  let loss := Pd.neg (Pd.clip_upper 0 delta) in
  let avg_gain := Pd.ewm_mean (Qnat n - 1) true n gain in
  let avg_loss := Pd.ewm_mean (Qnat n - 1) true n loss in
  let rs := Pd.div avg_gain (Pd.replace_zero_nan avg_loss) in
  Pd.ssub 100 (Pd.sdiv 100 (Pd.sadd 1 rs)).

Definition _rsi (df : ref) : M ref :=
  let n := rsi_period P in
  close ← getitem df "close";
  setitem df "RSI" (rsi_of n close);;
  mret df.

Definition _macd (df : ref) : M ref :=
  let fast := macd_fast P in
  let slow := macd_slow P in
  let signal := macd_signal P in
  close ← getitem df "close";
  let ema_fast := Pd.ewm_mean (Pd.com_of_span fast) false 0 close in
  close ← getitem df "close";
  let ema_slow := Pd.ewm_mean (Pd.com_of_span slow) false 0 close in
  setitem df "MACD" (Pd.sub ema_fast ema_slow);;
  macd ← getitem df "MACD";
  setitem df "MACD_signal" (Pd.ewm_mean (Pd.com_of_span signal) false 0 macd);;
  macd ← getitem df "MACD";
  macd_signal ← getitem df "MACD_signal";
  setitem df "MACD_hist" (Pd.sub macd macd_signal);;
  mret df.

(** The two directional movements of [_adx], after its mutual-exclusion
    step, from the [high] and [low] columns. *)
Definition dm_plus_raw (high : Series) : Series :=
  Pd.clip_lower 0 (Pd.sub high (Pd.shift 1 high)).
Definition dm_minus_raw (low : Series) : Series :=
  Pd.clip_lower 0 (Pd.sub (Pd.shift 1 low) low).
Definition dm_plus_of (high low : Series) : Series :=
  let dm_plus := dm_plus_raw high in
  let dm_minus := dm_minus_raw low in
  Pd.where_ dm_plus (Pd.gt dm_plus dm_minus) (Fin 0).
Definition dm_minus_of (high low : Series) : Series :=
  let dm_plus := dm_plus_of high low in
  let dm_minus := dm_minus_raw low in
  Pd.where_ dm_minus (Pd.gt dm_minus (Pd.fillna (Fin 0) (Pd.shift 1 dm_plus)))
            (Fin 0).

Definition _adx (df : ref) : M ref :=
  let n := adx_period P in
  high ← getitem df "high";
  low ← getitem df "low";
  close ← getitem df "close";
  let tr := Pd.max3 (Pd.sub high low)
                    (Pd.abs (Pd.sub high (Pd.shift 1 close)))
                    (Pd.abs (Pd.sub low (Pd.shift 1 close))) in
  let dm_plus := dm_plus_of high low in
  let dm_minus := dm_minus_of high low in
  let atr := Pd.ewm_mean (Pd.com_of_span n) false 0 tr in
  let di_pos :=
    Pd.div (Pd.smul 100 (Pd.ewm_mean (Pd.com_of_span n) false 0 dm_plus)) atr in
  let di_neg :=
    Pd.div (Pd.smul 100 (Pd.ewm_mean (Pd.com_of_span n) false 0 dm_minus)) atr in
  let dx :=
    Pd.div (Pd.smul 100 (Pd.abs (Pd.sub di_pos di_neg)))
           (Pd.replace_zero_nan (Pd.add di_pos di_neg)) in
  setitem df "ADX" (Pd.ewm_mean (Pd.com_of_span n) false 0 dx);;
  setitem df "DI_pos" di_pos;;
  setitem df "DI_neg" di_neg;;
  mret df.

Definition _bollinger (df : ref) : M ref :=
  let n := boll_period P in
  let std := boll_std P in
  close ← getitem df "close";
  let mid := Pd.rolling_mean n close in
  close ← getitem df "close";
  let band := rolling_std n close in
  setitem df "BOLL_mid" mid;;
  setitem df "BOLL_upper" (Pd.add mid (Pd.smul std band));;
  setitem df "BOLL_lower" (Pd.sub mid (Pd.smul std band));;
  upper ← getitem df "BOLL_upper";
  lower ← getitem df "BOLL_lower";
  setitem df "BOLL_width" (Pd.div (Pd.sub upper lower) mid);;
  close ← getitem df "close";
  lower ← getitem df "BOLL_lower";
  upper ← getitem df "BOLL_upper";
  lower' ← getitem df "BOLL_lower";
  setitem df "BOLL_%B" (Pd.div (Pd.sub close lower) (Pd.sub upper lower'));;
  mret df.

(* ── volume indicators ── *)

Definition _vol_ma (df : ref) : M ref :=
  for_ (vol_ma_periods P) (fun p =>
    volume ← getitem df "volume";
    setitem df (fname "VOL_MA" p) (Pd.rolling_mean p volume));;
  mret df.

Definition _vroc (df : ref) : M ref :=
  let n := vroc_period P in
  volume ← getitem df "volume";
  setitem df "VROC" (Pd.muls (Pd.pct_change n volume) 100);;
  mret df.

Definition _obv (df : ref) : M ref :=
  close ← getitem df "close";
  let direction := Pd.fillna (Fin 0) (Pd.sign (Pd.diff close)) in
  volume ← getitem df "volume";
  setitem df "OBV" (Pd.cumsum (Pd.mul direction volume));;
  mret df.

(** The MFI column computed from the price and volume columns. *)
Definition mfi_of (n : nat) (high low close volume : Series) : Series :=
  let typical_price := Pd.divs (Pd.add (Pd.add high low) close) 3 in
  let raw_mf := Pd.mul typical_price volume in
  let pos_mf :=
    Pd.where_ raw_mf (Pd.gt typical_price (Pd.shift 1 typical_price)) (Fin 0) in
  let neg_mf :=
    Pd.where_ raw_mf (Pd.lt typical_price (Pd.shift 1 typical_price)) (Fin 0) in
  let pos_sum := Pd.rolling_sum n pos_mf in
  let neg_sum := Pd.rolling_sum n neg_mf in
  let mfr := Pd.div pos_sum (Pd.replace_zero_nan neg_sum) in
  Pd.ssub 100 (Pd.sdiv 100 (Pd.sadd 1 mfr)).

Definition _mfi (df : ref) : M ref :=
  let n := mfi_period P in
  high ← getitem df "high";
  low ← getitem df "low";
  close ← getitem df "close";
  volume ← getitem df "volume";
  setitem df "MFI" (mfi_of n high low close volume);;
  mret df.

Definition compute_all (df : ref) : M ref :=
  df ← df_copy df;
  df ← _ma df;
  df ← _roc df;
  df ← _momentum df;
  df ← _rsi df;
  df ← _macd df;
  df ← _adx df;
  df ← _bollinger df;
  df ← _vol_ma df;
  df ← _vroc df;
  df ← _obv df;
  df ← _mfi df;
  mret df.

End Indicators.

(** ** Python values of the result dictionaries *)

(** A piece of an f-string: literal text, or a float under a format
    [:.<digits>f].  The decimal rendering itself is kept symbolic. *)
Inductive piece : Type :=
  | Lit (s : string)
  | Fmt (digits : nat) (x : fl).

#[warnings="-register-all"]
Inductive pyval : Type :=
  | VStr (s : string)
  | VText (t : list piece)
  | VInt (z : Z)
  | VFloat (x : fl)
  | VNone
  | VDay (ts : Timestamp)          (* [str(ts)[:10]], the day of a timestamp *)
  | VList (l : list pyval)
  | VDict (d : gmap string pyval).


#[global] Instance result_ret : MRet result := fun A a => Ok a.
#[global] Instance result_bind : MBind result := fun A B f m =>
  match m with
  | Ok a => f a
  | Raise e => Raise e
  end.

(** Rounding to the nearest integer, ties to the even one. *)
Definition round_half_even (q : Q) : Z :=
  let f := Qfloor q in
  match Qcompare (q - inject_Z f) (1 # 2) with
  | Lt => f
  | Gt => (f + 1)%Z
  | Eq => if Z.even f then f else (f + 1)%Z
  end.

(** [round(x, nd)] on a number, as a reduced fraction. *)
Definition round_nd (nd : nat) (q : Q) : Q :=
  let scale := inject_Z (10 ^ Z.of_nat nd) in
  Qred (inject_Z (round_half_even (q * scale)) / scale).

(** [round(x, nd)] on a float cell: NaN and the infinities are returned
    as they are. *)
Definition fround (nd : nat) (x : fl) : fl :=
  match x with
  | Fin q => Fin (round_nd nd q)
  | _ => x
  end.

(** Truncation towards zero. *)
Definition Qtruncate (q : Q) : Z := Z.quot (Qnum q) (Zpos (Qden q)).

(** [int(x)] on a float cell: truncation, and an exception on NaN and on
    the infinities. *)
Definition to_int (x : fl) : result Z :=
  match x with
  | Fin q => Ok (Qtruncate q)
  | NaN => Raise (ValueError "cannot convert float NaN to integer")
  | _ => Raise (OverflowError "cannot convert float infinity to integer")
  end.

(** ** analysis/signals.py *)

Definition _label (score : Q) : string :=
  if Qle_bool 0.6 score then "强烈看多"
  else if negb (Qle_bool score 0) then "看多"
  else if Qeq_bool score 0 then "中性"
  else if negb (Qle_bool score (-0.6)) then "看空"
  else "强烈看空".

Definition _score_to_signal (score : Q) : string :=
  if Qle_bool 0.6 score then "强烈买入"
  else if Qle_bool 0.2 score then "买入"
  else if negb (Qle_bool score (-0.2)) then "观望"
  else if negb (Qle_bool score (-0.6)) then "卖出"
  else "强烈卖出".

(** A row of a frame ([df.iloc[i]]), as the cells of its numeric columns. *)
Abbreviation Row := (gmap string fl).

(** [df.iloc[-k]] for a frame of at least [k] rows. *)
Definition iloc_neg (df : DataFrame) (k : nat) : Row :=
  omap (fun s : Series => s !! (nrows df - k)%nat) (cols df).

(** [row[c]] *)
Definition row_getitem (row : Row) (c : string) : result fl :=
  match row !! c with
  | Some x => Ok x
  | None => Raise (KeyError c)
  end.

(** [sum(xs) / len(xs)] *)
Definition Qsum (xs : list Q) : Q := fold_left Qplus xs 0.
Definition Qmean (xs : list Q) : Q := Qsum xs / Qnat (length xs).

(** The local variables [details], [votes] and [vol_signals]. *)
Record sigstate := SigState {
  details : gmap string pyval;
  votes : list Q;
  vol_signals : list Q
}.

Definition set_detail (k : string) (v : pyval) (st : sigstate) : sigstate :=
  SigState (<[k := v]> (details st)) (votes st) (vol_signals st).
Definition append_vote (v : Q) (st : sigstate) : sigstate :=
  SigState (details st) (votes st ++ [v]) (vol_signals st).
Definition append_vol_signal (v : Q) (st : sigstate) : sigstate :=
  SigState (details st) (votes st) (vol_signals st ++ [v]).

(** [x] when [pd.notna(row.get(c))] holds for the cell [x] of column [c]. *)
Definition defined (o : option fl) : option fl :=
  match o with
  | Some x => if Fl.notna x then Some x else None
  | None => None
  end.

(** [s.iloc[-k]] on a column. *)
Definition series_iloc_neg (s : Series) (k : nat) : result fl :=
  if (k <=? length s)%nat then
    match s !! (length s - k)%nat with
    | Some x => Ok x
    | None => Raise (IndexError "single positional indexer is out-of-bounds")
    end
  else Raise (IndexError "single positional indexer is out-of-bounds").

Section Signals.

Local Abbreviation P := INDICATOR_PARAMS.
Local Abbreviation T := SIGNAL_THRESHOLDS.

Variable df : DataFrame.
Let row : Row := iloc_neg df 1.
Let prev : Row := iloc_neg df 2.

(* ── moving averages ── *)

Fixpoint ma_loop (ps : list nat) (ma_signals : list Q) : result (list Q) :=
  match ps with
  | [] => Ok ma_signals
  | p :: rest =>
      let col := fname "MA" p in
      if notna_opt (row !! col) then
        close ← row_getitem row "close";
        ma ← row_getitem row col;
        if Fl.gtb close ma then ma_loop rest (ma_signals ++ [1])
        else if Fl.ltb close ma then ma_loop rest (ma_signals ++ [-1])
        else ma_loop rest (ma_signals ++ [0])
      else ma_loop rest ma_signals
  end.

Definition ma_block (st : sigstate) : result sigstate :=
  ma_signals ← ma_loop (ma_periods P) [];
  match ma_signals with
  | [] => Ok st
  | _ =>
      let ma_score := Qmean ma_signals in
      Ok (set_detail "均线" (VStr (_label ma_score)) (append_vote ma_score st))
  end.

(* golden cross / death cross (MA5 against MA20) *)
Definition cross_block (st : sigstate) : result sigstate :=
  if has_column df "MA5" && has_column df "MA20" then
    row_ma5 ← row_getitem row "MA5";
    if Fl.notna row_ma5 && notna_opt (prev !! "MA5") then
      row_ma20 ← row_getitem row "MA20";
      if Fl.notna row_ma20 && notna_opt (prev !! "MA20") then
        prev_ma5 ← row_getitem prev "MA5";
        prev_ma20 ← row_getitem prev "MA20";
        if Fl.leb prev_ma5 prev_ma20 && Fl.gtb row_ma5 row_ma20 then
          Ok (set_detail "均线交叉" (VStr "黄金交叉(多头)") (append_vote 1 st))
        else if Fl.geb prev_ma5 prev_ma20 && Fl.ltb row_ma5 row_ma20 then
          Ok (set_detail "均线交叉" (VStr "死亡交叉(空头)") (append_vote (-1) st))
        else Ok (set_detail "均线交叉" (VStr "无") st)
      else Ok (set_detail "均线交叉" (VStr "无") st)
    else Ok (set_detail "均线交叉" (VStr "无") st)
  else Ok st.

(* ── RSI ── *)
Definition rsi_block (st : sigstate) : sigstate :=
  match defined (row !! "RSI") with
  | Some rsi =>
      if Fl.geb rsi (Fin (rsi_overbought T)) then
        set_detail "RSI" (VText [Lit "超买("; Fmt 1 rsi; Lit ")"])
                   (append_vote (-1) st)
      else if Fl.leb rsi (Fin (rsi_oversold T)) then
        set_detail "RSI" (VText [Lit "超卖("; Fmt 1 rsi; Lit ")"])
                   (append_vote 1 st)
      else
        let rsi_sig := if Fl.gtb rsi (Fin 50) then 0.5 else -0.5 in
        set_detail "RSI" (VText [Lit "中性("; Fmt 1 rsi; Lit ")"])
                   (append_vote rsi_sig st)
  | None => st
  end.

(* ── MACD ── *)
Definition macd_block (st : sigstate) : result sigstate :=
  if has_column df "MACD" && has_column df "MACD_signal"
     && has_column df "MACD_hist" then
    if notna_opt (row !! "MACD") && notna_opt (prev !! "MACD_hist") then
      hist_now ← row_getitem row "MACD_hist";
      hist_prev ← row_getitem prev "MACD_hist";
      if Fl.ltb hist_prev (Fin 0) && Fl.geb hist_now (Fin 0) then
        Ok (set_detail "MACD" (VStr "柱状线由负转正(金叉)") (append_vote 1 st))
      else if Fl.gtb hist_prev (Fin 0) && Fl.leb hist_now (Fin 0) then
        Ok (set_detail "MACD" (VStr "柱状线由正转负(死叉)") (append_vote (-1) st))
      else if Fl.gtb hist_now (Fin 0) then
        Ok (set_detail "MACD" (VText [Lit "多头区间(hist="; Fmt 3 hist_now; Lit ")"])
                       (append_vote 0.5 st))
      else
        Ok (set_detail "MACD" (VText [Lit "空头区间(hist="; Fmt 3 hist_now; Lit ")"])
                       (append_vote (-0.5) st))
    else Ok st
  else Ok st.

(* ── ADX ── *)
Definition adx_block (st : sigstate) : result sigstate :=
  if has_column df "ADX" && has_column df "DI_pos" && has_column df "DI_neg" then
    match defined (row !! "ADX") with
    | Some adx =>
        if Fl.geb adx (Fin (adx_strong T)) then
          di_pos ← row_getitem row "DI_pos";
          di_neg ← row_getitem row "DI_neg";
          if Fl.gtb di_pos di_neg then
            Ok (set_detail "ADX" (VText [Lit "强趋势上行(ADX="; Fmt 1 adx; Lit ")"])
                           (append_vote 0.8 st))
          else
            Ok (set_detail "ADX" (VText [Lit "强趋势下行(ADX="; Fmt 1 adx; Lit ")"])
                           (append_vote (-0.8) st))
        else
          Ok (set_detail "ADX" (VText [Lit "趋势较弱(ADX="; Fmt 1 adx; Lit ")"])
                         (append_vote 0 st))
    | None => Ok st
    end
  else Ok st.

(* ── Bollinger bands ── *)
Definition boll_block (st : sigstate) : sigstate :=
  if has_column df "BOLL_upper" && has_column df "BOLL_lower"
     && has_column df "BOLL_%B" then
    match defined (row !! "BOLL_%B") with
    | Some pct_b =>
        if Fl.gtb pct_b (Fin 1.0) then
          set_detail "布林带" (VStr "价格突破上轨(超买区域)") (append_vote (-1) st)
        else if Fl.ltb pct_b (Fin 0.0) then
          set_detail "布林带" (VStr "价格突破下轨(超卖区域)") (append_vote 1 st)
        else if Fl.gtb pct_b (Fin 0.8) then
          set_detail "布林带" (VText [Lit "接近上轨(%B="; Fmt 2 pct_b; Lit ")"])
                     (append_vote (-0.5) st)
        else if Fl.ltb pct_b (Fin 0.2) then
          set_detail "布林带" (VText [Lit "接近下轨(%B="; Fmt 2 pct_b; Lit ")"])
                     (append_vote 0.5 st)
        else
          set_detail "布林带" (VText [Lit "布林带中部(%B="; Fmt 2 pct_b; Lit ")"])
                     (append_vote 0 st)
    | None => st
    end
  else st.

(* ── ROC & Momentum ── *)
Definition sign_vote (x : fl) : Q :=
  if Fl.gtb x (Fin 0) then 0.5 else if Fl.ltb x (Fin 0) then -0.5 else 0.

Definition roc_block (st : sigstate) : sigstate :=
  match defined (row !! "ROC") with
  | Some roc =>
      let roc_sig := sign_vote roc in
      set_detail "ROC"
        (VText [Fmt 2 roc; Lit "%(";
                Lit (if Fl.gtb roc (Fin 0) then "正向" else "负向");
                Lit "动能)"])
        (append_vote roc_sig st)
  | None => st
  end.

Definition mom_block (st : sigstate) : sigstate :=
  match defined (row !! "MOM") with
  | Some mom =>
      let mom_sig := sign_vote mom in
      set_detail "Momentum"
        (VText [Fmt 3 mom; Lit "(";
                Lit (if Fl.gtb mom (Fin 0) then "正" else "负"); Lit ")"])
        (append_vote mom_sig st)
  | None => st
  end.

(* ── volume momentum ── *)

(* OBV trend *)
Definition obv_block (st : sigstate) : result sigstate :=
  match cols df !! "OBV" with
  | Some obv =>
      if (5 <=? nrows df)%nat then
        obv_last ← series_iloc_neg obv 1;
        obv_5th ← series_iloc_neg obv 5;
        let obv_slope := Fl.sub obv_last obv_5th in
        if Fl.gtb obv_slope (Fin 0) then
          Ok (set_detail "OBV" (VStr "量能上升(多头确认)") (append_vol_signal 0.5 st))
        else if Fl.ltb obv_slope (Fin 0) then
          Ok (set_detail "OBV" (VStr "量能下降(空头确认)")
                         (append_vol_signal (-0.5) st))
        else Ok (set_detail "OBV" (VStr "量能持平") st)
      else Ok st
  | None => Ok st
  end.

(* MFI *)
Definition mfi_block (st : sigstate) : sigstate :=
  match defined (row !! "MFI") with
  | Some mfi =>
      if Fl.geb mfi (Fin 80) then
        set_detail "MFI" (VText [Lit "超买资金流出("; Fmt 1 mfi; Lit ")"])
                   (append_vol_signal (-0.8) st)
      else if Fl.leb mfi (Fin 20) then
        set_detail "MFI" (VText [Lit "超卖资金流入("; Fmt 1 mfi; Lit ")"])
                   (append_vol_signal 0.8 st)
      else
        let mfi_sig := if Fl.gtb mfi (Fin 50) then 0.3 else -0.3 in
        set_detail "MFI"
          (VText [Lit "资金"; Lit (if Fl.gtb mfi (Fin 50) then "偏多" else "偏空");
                  Lit "("; Fmt 1 mfi; Lit ")"])
          (append_vol_signal mfi_sig st)
  | None => st
  end.

(* VROC: volume against price, a detail only *)
Definition vroc_block (st : sigstate) : sigstate :=
  match defined (row !! "VROC") with
  | Some vroc =>
      set_detail "VROC" (VText [Lit "成交量变化率 "; Fmt 1 vroc; Lit "%"]) st
  | None => st
  end.

(* volume against its moving averages, details only *)
Fixpoint vol_ma_loop (ps : list nat) (st : sigstate) : result sigstate :=
  match ps with
  | [] => Ok st
  | p :: rest =>
      let col := fname "VOL_MA" p in
      if notna_opt (row !! col) then
        volume ← row_getitem row "volume";
        ma ← row_getitem row col;
        if Fl.gtb volume (Fl.mul ma (Fin 1.5)) then
          vol_ma_loop rest
            (set_detail (fname "量均线MA" p)
               (VText [Lit "放量("; Fmt 1 (Fl.div volume ma); Lit "x)"]) st)
        else if Fl.ltb volume (Fl.mul ma (Fin 0.5)) then
          vol_ma_loop rest
            (set_detail (fname "量均线MA" p)
               (VText [Lit "缩量("; Fmt 1 (Fl.div volume ma); Lit "x)"]) st)
        else vol_ma_loop rest (set_detail (fname "量均线MA" p) (VStr "正常量") st)
      else vol_ma_loop rest st
  end.

(** [votes.extend(vol_signals)] *)
Definition extend_votes (st : sigstate) : sigstate :=
  SigState (details st) (votes st ++ vol_signals st) (vol_signals st).

(** All the voting blocks in sequence, from empty [details] and [votes]. *)
Definition run_blocks : result sigstate :=
  st ← ma_block (SigState ∅ [] []);
  st ← cross_block st;
  let st := rsi_block st in
  st ← macd_block st;
  st ← adx_block st;
  let st := boll_block st in
  let st := roc_block st in
  let st := mom_block st in
  st ← obv_block st;
  let st := mfi_block st in
  let st := vroc_block st in
  st ← vol_ma_loop (vol_ma_periods P) st;
  Ok (extend_votes st).

(* ── combined score ── *)
Definition score_of (votes : list Q) : Q :=
  match votes with
  | [] => 0.0
  | _ => Qsum votes / Qnat (length votes)
  end.

(** [round(row[c], nd) if pd.notna(row.get(c)) else other] *)
Definition rounded_or (nd : nat) (c : string) (other : pyval) : pyval :=
  match defined (row !! c) with
  | Some x => VFloat (fround nd x)
  | None => other
  end.

(* latest key figures *)
Definition latest_of : result (gmap string pyval) :=
  close ← row_getitem row "close";
  let change :=
    if notna_opt (prev !! "close") then
      prev_close ← row_getitem prev "close";
      Ok (VText [Fmt 2 (Fl.mul (Fl.sub (Fl.div close prev_close) (Fin 1)) (Fin 100));
                 Lit "%"])
    else Ok (VStr "N/A") in
  change ← change;
  volume ← row_getitem row "volume";
  volume ← to_int volume;
  obv ← match defined (row !! "OBV") with
        | Some x => z ← to_int x; Ok (VInt z)
        | None => Ok (VStr "N/A")
        end;
  Ok (<["收盘价" := VFloat (fround 3 close)]>
      (<["涨跌幅" := change]>
      (<["成交量" := VInt volume]>
      (<["RSI" := rounded_or 1 "RSI" (VStr "N/A")]>
      (<["MACD柱" := rounded_or 4 "MACD_hist" (VStr "N/A")]>
      (<["ADX" := rounded_or 1 "ADX" (VStr "N/A")]>
      (<["MFI" := rounded_or 1 "MFI" (VStr "N/A")]>
      (<["OBV" := obv]> ∅)))))))).

Definition price_levels_of : result (gmap string pyval) :=
  close ← row_getitem row "close";
  Ok (<["close" := VFloat (fround 3 close)]>
      (<["boll_upper" := rounded_or 3 "BOLL_upper" VNone]>
      (<["boll_lower" := rounded_or 3 "BOLL_lower" VNone]>
      (<["ma20" := rounded_or 3 "MA20" VNone]>
      (<["ma60" := rounded_or 3 "MA60" VNone]> ∅))))).

Definition generate_signals : result (gmap string pyval) :=
  if df_empty df || (nrows df <? 2)%nat then
    Ok (<["signal" := VStr "数据不足"]>
        (<["score" := VInt 0]>
        (<["details" := VDict ∅]>
        (<["latest" := VDict ∅]> ∅))))
  else
    st ← run_blocks;
    let score := score_of (votes st) in
    let signal := _score_to_signal score in
    latest ← latest_of;
    price_levels ← price_levels_of;
    Ok (<["signal" := VStr signal]>
        (<["score" := VFloat (Fin (round_nd 3 score))]>
        (<["details" := VDict (details st)]>
        (<["latest" := VDict latest]>
        (<["price_levels" := VDict price_levels]> ∅))))).

End Signals.

(** ** analysis/anomaly.py *)

Definition ANOMALY_THRESHOLD : Q := 0.05.

Section Anomaly.

(** The news collaborator [data.news.fetch_news(symbol, market, name,
    target_date)], which returns a list of entries and does not raise. *)
Variable fetch_news : string -> string -> string -> option Timestamp -> list pyval.

(** [row["date"]] on the row [df.iloc[-k]]. *)
Definition date_iloc_neg (df : DataFrame) (k : nat) : result Timestamp :=
  match date df with
  | Some ds =>
      match ds !! (nrows df - k)%nat with
      | Some d => Ok d
      | None => Raise (KeyError "date")
      end
  | None => Raise (KeyError "date")
  end.

Definition check_anomaly (df : option DataFrame) (symbol market name : string)
    (threshold : Q) : result (option (gmap string pyval)) :=
  match df with
  | None => Ok None
  | Some df =>
      if (nrows df <? 2)%nat then Ok None
      else
        let latest := iloc_neg df 1 in
        let prev := iloc_neg df 2 in
        prev_close ← row_getitem prev "close";
        if negb (Fl.notna prev_close) || Fl.eqb prev_close (Fin 0) then Ok None
        else
          latest_close ← row_getitem latest "close";
          let change_pct := Fl.div (Fl.sub latest_close prev_close) prev_close in
          if Fl.ltb (Fl.abs change_pct) (Fin threshold) then Ok None
          else
            let direction :=
              if Fl.gtb change_pct (Fin 0) then "暴涨" else "暴跌" in
            latest_date ← date_iloc_neg df 1;
            let news := fetch_news symbol market name (Some latest_date) in
            Ok (Some
              (<["symbol" := VStr symbol]>
              (<["name" := VStr name]>
              (<["market" := VStr market]>
              (<["date" := VDay latest_date]>
              (<["close" := VFloat (fround 3 latest_close)]>
              (<["prev_close" := VFloat (fround 3 prev_close)]>
              (<["change_pct" := VFloat (fround 2 (Fl.mul change_pct (Fin 100)))]>
              (<["direction" := VStr direction]>
              (<["news" := VList news]> ∅))))))))))
  end.

End Anomaly.

(** ** The specification's vocabulary *)

(** The five ordinal labels and the label of the sentinel. *)
Definition STRONG_BUY : string := "强烈买入".
Definition BUY : string := "买入".
Definition HOLD : string := "观望".
Definition SELL : string := "卖出".
Definition STRONG_SELL : string := "强烈卖出".
Definition INSUFFICIENT_DATA : string := "数据不足".


(** The fixed result on a frame of fewer than two rows. *)
Definition SENTINEL : gmap string pyval :=
  <["signal" := VStr INSUFFICIENT_DATA]>
  (<["score" := VInt 0]>
  (<["details" := VDict ∅]>
  (<["latest" := VDict ∅]> ∅))).

(** The frame is past the guard of [generate_signals]. *)
Definition enough_rows (df : DataFrame) : Prop :=
  df_empty df = false /\ (2 <= nrows df)%nat.


(** *** Sample frames *)

(** Two rows; RSI, ROC and Momentum are the only indicators. *)
Definition frame_three_votes : DataFrame :=
  mkDF 2 (Some [1; 2]%Z)
    (<["close" := [Fin 10; Fin 11]]>
    (<["volume" := [Fin 100; Fin 120]]>
    (<["RSI" := [NaN; Fin 60]]>
    (<["ROC" := [NaN; Fin 1]]>
    (<["MOM" := [NaN; Fin (-1)]]> ∅))))).

(** A single row. *)
Definition frame_one_row : DataFrame :=
  mkDF 1 (Some [1]%Z)
    (<["close" := [Fin 10]]> (<["volume" := [Fin 100]]> ∅)).

(** *** Votes

    The cell of column [c] in the row is missing or NaN. *)
Definition undefined_in (row : Row) (c : string) : Prop :=
  defined (row !! c) = None.

(** The OBV-slope vote as the code casts it: over the last five rows, that
    is OBV at the last row against OBV four rows earlier. *)
Definition obv_vote (df : DataFrame) : list Q :=
  match cols df !! "OBV" with
  | Some obv =>
      if (5 <=? nrows df)%nat then
        match obv !! (nrows df - 1)%nat, obv !! (nrows df - 5)%nat with
        | Some last, Some fifth =>
            let slope := Fl.sub last fifth in
            if Fl.gtb slope (Fin 0) then [0.5]
            else if Fl.ltb slope (Fin 0) then [-0.5]
            else []
        | _, _ => []
        end
      else []
  | None => []
  end.

(** The OBV-slope vote in the specification's words: the sign of
    OBV[t] - OBV[t-5] at the last row [t]. *)
Definition obv_vote_claimed (df : DataFrame) : list Q :=
  match cols df !! "OBV" with
  | Some obv =>
      if (5 <=? nrows df)%nat then
        match obv !! (nrows df - 1)%nat, obv !! (nrows df - 1 - 5)%nat with
        | Some last, Some back5 =>
            let slope := Fl.sub last back5 in
            if Fl.gtb slope (Fin 0) then [0.5]
            else if Fl.ltb slope (Fin 0) then [-0.5]
            else []
        | _, _ => []
        end
      else []
  | None => []
  end.

(** The votes of a run split by sub-signal, in the order they are cast;
    each sub-signal casts at most one vote, and none when its input is
    undefined. *)
Definition vote_breakdown (df : DataFrame) (vs : list Q) : Prop :=
  let row := iloc_neg df 1 in
  let prev := iloc_neg df 2 in
  exists v_ma v_cross v_rsi v_macd v_adx v_boll v_roc v_mom v_mfi : list Q,
    vs = v_ma ++ v_cross ++ v_rsi ++ v_macd ++ v_adx ++ v_boll ++ v_roc
         ++ v_mom ++ obv_vote df ++ v_mfi /\
    Forall (fun v : list Q => (length v <= 1)%nat)
      [v_ma; v_cross; v_rsi; v_macd; v_adx; v_boll; v_roc; v_mom;
       obv_vote df; v_mfi] /\
    ((forall p, p ∈ ma_periods INDICATOR_PARAMS ->
                undefined_in row (fname "MA" p)) -> v_ma = []) /\
    (undefined_in row "MA5" \/ undefined_in prev "MA5" \/
     undefined_in row "MA20" \/ undefined_in prev "MA20" -> v_cross = []) /\
    (undefined_in row "RSI" -> v_rsi = []) /\
    (undefined_in row "MACD" \/ undefined_in prev "MACD_hist" -> v_macd = []) /\
    (undefined_in row "ADX" -> v_adx = []) /\
    (undefined_in row "BOLL_%B" -> v_boll = []) /\
    (undefined_in row "ROC" -> v_roc = []) /\
    (undefined_in row "MOM" -> v_mom = []) /\
    (undefined_in row "MFI" -> v_mfi = []).

(** Six rows with an OBV column that rises from the first row to the last
    but falls from the second row to the last. *)
Definition frame_obv : DataFrame :=
  mkDF 6 (Some [1; 2; 3; 4; 5; 6]%Z)
    (<["close" := [Fin 10; Fin 11; Fin 10; Fin 10; Fin 10; Fin 10]]>
    (<["volume" := [Fin 10; Fin 10; Fin 9; Fin 0; Fin 0; Fin 0]]>
    (<["OBV" := [Fin 0; Fin 10; Fin 1; Fin 1; Fin 1; Fin 1]]> ∅))).


(** What a block did to the two vote lists. *)
Definition casts (st st' : sigstate) (v w : list Q) : Prop :=
  votes st' = votes st ++ v /\ vol_signals st' = vol_signals st ++ w.

(** The two directions of an anomaly. *)
Definition SURGE : string := "暴涨".
Definition PLUNGE : string := "暴跌".

(** The relative move of the last close against the previous one. *)
Definition change_pct_of (prev_close latest_close : fl) : fl :=
  Fl.div (Fl.sub latest_close prev_close) prev_close.

(** The anomaly record built for a move. *)
Definition anomaly_record (news : list pyval) (symbol market name : string)
    (day : Timestamp) (prev_close latest_close : fl) : gmap string pyval :=
  let change_pct := change_pct_of prev_close latest_close in
  <["symbol" := VStr symbol]>
  (<["name" := VStr name]>
  (<["market" := VStr market]>
  (<["date" := VDay day]>
  (<["close" := VFloat (fround 3 latest_close)]>
  (<["prev_close" := VFloat (fround 3 prev_close)]>
  (<["change_pct" := VFloat (fround 2 (Fl.mul change_pct (Fin 100)))]>
  (<["direction" := VStr (if Fl.gtb change_pct (Fin 0) then SURGE else PLUNGE)]>
  (<["news" := VList news]> ∅)))))))).

(** Two bars closing at 100 and then at [last]. *)
Definition frame_closes (last : Q) : DataFrame :=
  mkDF 2 (Some [19000; 19001]%Z)
    (<["open" := [Fin 100; Fin 100]]>
    (<["high" := [Fin 101; Fin 107]]>
    (<["low" := [Fin 99; Fin 100]]>
    (<["close" := [Fin 100; Fin last]]>
    (<["volume" := [Fin 1000; Fin 1500]]> ∅))))).

(** A news collaborator that finds nothing. *)
Definition no_news (symbol market name : string) (day : option Timestamp)
  : list pyval := [].

(** *** Directional movement

    The filtered +DM of the bar before [t], as [_adx] compares -DM with it:
    0 for the first bar. *)
Definition dm_plus_before (high low : Series) (t : nat) : fl :=
  match t with
  | O => Fin 0
  | S t' =>
      match dm_plus_of high low !! t' with
      | Some x => if Fl.notna x then x else Fin 0
      | None => Fin 0
      end
  end.

(** +DM under the rule in the specification's words: zeroed unless it
    exceeds the previous bar's -DM. *)
Definition dm_plus_claimed (high low : Series) : Series :=
  let dm_plus := dm_plus_raw high in
  let dm_minus := dm_minus_raw low in
  Pd.where_ dm_plus (Pd.gt dm_plus (Pd.fillna (Fin 0) (Pd.shift 1 dm_minus)))
            (Fin 0).

(** Three bars: a fall of the low by 4, then a rise of the high by 1. *)
Definition highs_fall_then_rise : Series := [Fin 10; Fin 10; Fin 11].
Definition lows_fall_then_rise : Series := [Fin 9; Fin 5; Fin 5].

(** *** RSI and MFI

    The smoothed gains and losses of [_rsi] and the two rolling sums of
    [_mfi], by name. *)
Definition rsi_avg_gain (n : nat) (close : Series) : Series :=
  Pd.ewm_mean (Qnat n - 1) true n (Pd.clip_lower 0 (Pd.diff close)).
Definition rsi_avg_loss (n : nat) (close : Series) : Series :=
  Pd.ewm_mean (Qnat n - 1) true n (Pd.neg (Pd.clip_upper 0 (Pd.diff close))).

Definition typical_price (high low close : Series) : Series :=
  Pd.divs (Pd.add (Pd.add high low) close) 3.
Definition mfi_pos_sum (n : nat) (high low close volume : Series) : Series :=
  let tp := typical_price high low close in
  Pd.rolling_sum n (Pd.where_ (Pd.mul tp volume) (Pd.gt tp (Pd.shift 1 tp)) (Fin 0)).
Definition mfi_neg_sum (n : nat) (high low close volume : Series) : Series :=
  let tp := typical_price high low close in
  Pd.rolling_sum n (Pd.where_ (Pd.mul tp volume) (Pd.lt tp (Pd.shift 1 tp)) (Fin 0)).

(** A cell that is not negative: a non-negative number, +infinity, or
    missing. *)
Definition nonneg (x : fl) : Prop :=
  match x with
  | Fin q => 0 <= q
  | PInf | NaN => True
  | NInf => False
  end.

(** A cell that is missing or a non-negative number. *)
Definition nonneg_fin (x : fl) : Prop :=
  match x with
  | Fin q => 0 <= q
  | NaN => True
  | PInf | NInf => False
  end.

(** A cell that is missing or a number between 0 and 100. *)
Definition percent_or_nan (x : fl) : Prop :=
  match x with
  | Fin q => 0 <= q /\ q <= 100
  | NaN => True
  | PInf | NInf => False
  end.

(** Fourteen bars whose price swings between 1 and -1 on unit volume. *)
Definition swing : Series :=
  [Fin 1; Fin (-1); Fin 1; Fin (-1); Fin 1; Fin (-1); Fin 1;
   Fin (-1); Fin 1; Fin (-1); Fin 1; Fin (-1); Fin 1; Fin (-1)].
Definition unit_volume : Series := replicate 14 (Fin 1).

(** Fifteen closes that never fall and fifteen that rise and fall. *)
Definition closes_rising : Series :=
  map (fun k => Fin (Qnat k)) (seq 10 15).
Definition closes_zigzag : Series :=
  map (fun k => Fin (if Nat.even k then 10 else 12)) (seq 0 15).

(** *** The pipeline on the store *)

(** The frame after [df[c] = s]. *)
Definition set_col (c : string) (s : Series) (d : DataFrame) : DataFrame :=
  mkDF (nrows d) (date d) (<[c := s]> (cols d)).

(** The columns [compute_all] reads from its input. *)
Definition required_columns : list string := ["close"; "high"; "low"; "volume"].

(** The columns [compute_all] writes. *)
Definition indicator_columns : list string :=
  (fname "MA" <$> ma_periods INDICATOR_PARAMS)
  ++ ["ROC"; "MOM"; "RSI"; "MACD"; "MACD_signal"; "MACD_hist";
      "ADX"; "DI_pos"; "DI_neg";
      "BOLL_mid"; "BOLL_upper"; "BOLL_lower"; "BOLL_width"; "BOLL_%B"]
  ++ (fname "VOL_MA" <$> vol_ma_periods INDICATOR_PARAMS)
  ++ ["VROC"; "OBV"; "MFI"].

(** [d'] is [d] with indicator columns added or replaced: as many rows, the
    same dates, every other column as it was, and well-formed if [d] is. *)
Definition enriches (d d' : DataFrame) : Prop :=
  nrows d' = nrows d /\
  date d' = date d /\
  (forall c, c ∉ indicator_columns -> cols d' !! c = cols d !! c) /\
  (wf_df d -> wf_df d').

(** Three bars carrying the same date twice and then an earlier one. *)
Definition frame_bad_dates : DataFrame :=
  mkDF 3 (Some [19001; 19001; 19000]%Z)
    (<["open" := [Fin 10; Fin 11; Fin 12]]>
    (<["high" := [Fin 11; Fin 12; Fin 13]]>
    (<["low" := [Fin 9; Fin 10; Fin 11]]>
    (<["close" := [Fin 10; Fin 11; Fin 12]]>
    (<["volume" := [Fin 100; Fin 110; Fin 120]]> ∅))))).

(** A single bar. *)
Definition frame_one_bar : DataFrame :=
  mkDF 1 (Some [19000]%Z)
    (<["open" := [Fin 10]]>
    (<["high" := [Fin 11]]>
    (<["low" := [Fin 9]]>
    (<["close" := [Fin 10]]>
    (<["volume" := [Fin 100]]> ∅))))).

(** Three dated bars without a [volume] column. *)
Definition frame_no_volume : DataFrame :=
  mkDF 3 (Some [19000; 19001; 19002]%Z)
    (<["open" := [Fin 10; Fin 11; Fin 12]]>
    (<["high" := [Fin 11; Fin 12; Fin 13]]>
    (<["low" := [Fin 9; Fin 10; Fin 11]]>
    (<["close" := [Fin 10; Fin 11; Fin 12]]> ∅)))).

(** A stand-in for the square root where no full Bollinger window exists
    and the root is never taken. *)
Definition no_sqrt (q : Q) : Q := q.

(** The column [c] of the frame [compute_all] returns for [df], alone in
    the store. *)
Definition enriched_column (fsqrt : Q -> Q) (df : DataFrame) (c : string)
  : option Series :=
  match compute_all fsqrt 0%nat [df] with
  | (Ok r, st) => st !! r ≫= fun d => cols d !! c
  | (Raise _, _) => None
  end.

(** The state of the weighted mean while every cell so far is missing or a
    non-negative number. *)
Definition ewm_inv (st : Pd.ewm_state) : Prop :=
  nonneg_fin (Pd.weighted st) /\ 0 <= Pd.old_wt st.

(** The index [100 - 100 / (1 + num / den)] of one row, with the zero
    denominator replaced as [_rsi] and [_mfi] do. *)
Definition index_of (num den : fl) : fl :=
  Fl.sub (Fin 100)
    (Fl.div (Fin 100)
       (Fl.add (Fin 1)
          (Fl.div num (if Fl.eqb den (Fin 0) then NaN else den)))).

(** *** The frames the helpers of [compute_all] leave

    Each helper reads columns of the frame and writes columns back; these
    are the frames after each helper, as functions of the columns read. *)

Definition ma_frame (close : Series) (d : DataFrame) : DataFrame :=
  foldl (fun d p => set_col (fname "MA" p) (Pd.rolling_mean p close) d) d
        (ma_periods INDICATOR_PARAMS).

Definition roc_frame (close : Series) (d : DataFrame) : DataFrame :=
  set_col "ROC"
    (Pd.muls (Pd.pct_change (roc_period INDICATOR_PARAMS) close) 100) d.

Definition mom_frame (close : Series) (d : DataFrame) : DataFrame :=
  set_col "MOM"
    (Pd.sub close (Pd.shift (mom_period INDICATOR_PARAMS) close)) d.

Definition rsi_frame (close : Series) (d : DataFrame) : DataFrame :=
  set_col "RSI" (rsi_of (rsi_period INDICATOR_PARAMS) close) d.

Definition macd_line (close : Series) : Series :=
  Pd.sub
    (Pd.ewm_mean (Pd.com_of_span (macd_fast INDICATOR_PARAMS)) false 0 close)
    (Pd.ewm_mean (Pd.com_of_span (macd_slow INDICATOR_PARAMS)) false 0 close).
Definition macd_signal_line (close : Series) : Series :=
  Pd.ewm_mean (Pd.com_of_span (macd_signal INDICATOR_PARAMS)) false 0
              (macd_line close).
Definition macd_frame (close : Series) (d : DataFrame) : DataFrame :=
  set_col "MACD_hist" (Pd.sub (macd_line close) (macd_signal_line close))
    (set_col "MACD_signal" (macd_signal_line close)
       (set_col "MACD" (macd_line close) d)).

Definition true_range (high low close : Series) : Series :=
  Pd.max3 (Pd.sub high low)
          (Pd.abs (Pd.sub high (Pd.shift 1 close)))
          (Pd.abs (Pd.sub low (Pd.shift 1 close))).
Definition adx_atr (high low close : Series) : Series :=
  Pd.ewm_mean (Pd.com_of_span (adx_period INDICATOR_PARAMS)) false 0
              (true_range high low close).
Definition di_pos_of (high low close : Series) : Series :=
  Pd.div (Pd.smul 100
            (Pd.ewm_mean (Pd.com_of_span (adx_period INDICATOR_PARAMS)) false 0
                         (dm_plus_of high low)))
         (adx_atr high low close).
Definition di_neg_of (high low close : Series) : Series :=
  Pd.div (Pd.smul 100
            (Pd.ewm_mean (Pd.com_of_span (adx_period INDICATOR_PARAMS)) false 0
                         (dm_minus_of high low)))
         (adx_atr high low close).
Definition dx_of (high low close : Series) : Series :=
  Pd.div (Pd.smul 100 (Pd.abs (Pd.sub (di_pos_of high low close)
                                      (di_neg_of high low close))))
         (Pd.replace_zero_nan (Pd.add (di_pos_of high low close)
                                      (di_neg_of high low close))).
Definition adx_of (high low close : Series) : Series :=
  Pd.ewm_mean (Pd.com_of_span (adx_period INDICATOR_PARAMS)) false 0
              (dx_of high low close).
Definition adx_frame (high low close : Series) (d : DataFrame) : DataFrame :=
  set_col "DI_neg" (di_neg_of high low close)
    (set_col "DI_pos" (di_pos_of high low close)
       (set_col "ADX" (adx_of high low close) d)).

Definition boll_mid_of (close : Series) : Series :=
  Pd.rolling_mean (boll_period INDICATOR_PARAMS) close.
Definition boll_band_of (fsqrt : Q -> Q) (close : Series) : Series :=
  rolling_std fsqrt (boll_period INDICATOR_PARAMS) close.
Definition boll_upper_of (fsqrt : Q -> Q) (close : Series) : Series :=
  Pd.add (boll_mid_of close)
         (Pd.smul (boll_std INDICATOR_PARAMS) (boll_band_of fsqrt close)).
Definition boll_lower_of (fsqrt : Q -> Q) (close : Series) : Series :=
  Pd.sub (boll_mid_of close)
         (Pd.smul (boll_std INDICATOR_PARAMS) (boll_band_of fsqrt close)).
Definition boll_frame (fsqrt : Q -> Q) (close : Series) (d : DataFrame)
  : DataFrame :=
  set_col "BOLL_%B"
    (Pd.div (Pd.sub close (boll_lower_of fsqrt close))
            (Pd.sub (boll_upper_of fsqrt close) (boll_lower_of fsqrt close)))
    (set_col "BOLL_width"
       (Pd.div (Pd.sub (boll_upper_of fsqrt close) (boll_lower_of fsqrt close))
               (boll_mid_of close))
       (set_col "BOLL_lower" (boll_lower_of fsqrt close)
          (set_col "BOLL_upper" (boll_upper_of fsqrt close)
             (set_col "BOLL_mid" (boll_mid_of close) d)))).

Definition vol_ma_frame (volume : Series) (d : DataFrame) : DataFrame :=
  foldl (fun d p => set_col (fname "VOL_MA" p) (Pd.rolling_mean p volume) d) d
        (vol_ma_periods INDICATOR_PARAMS).

Definition vroc_frame (volume : Series) (d : DataFrame) : DataFrame :=
  set_col "VROC"
    (Pd.muls (Pd.pct_change (vroc_period INDICATOR_PARAMS) volume) 100) d.

Definition obv_of (close volume : Series) : Series :=
  Pd.cumsum (Pd.mul (Pd.fillna (Fin 0) (Pd.sign (Pd.diff close))) volume).
Definition obv_frame (close volume : Series) (d : DataFrame) : DataFrame :=
  set_col "OBV" (obv_of close volume) d.

Definition mfi_frame (high low close volume : Series) (d : DataFrame)
  : DataFrame :=
  set_col "MFI" (mfi_of (mfi_period INDICATOR_PARAMS) high low close volume) d.

(** The frame [compute_all] returns for a frame with the four columns. *)
Definition enrich (fsqrt : Q -> Q) (high low close volume : Series)
    (d : DataFrame) : DataFrame :=
  mfi_frame high low close volume
    (obv_frame close volume
       (vroc_frame volume
          (vol_ma_frame volume
             (boll_frame fsqrt close
                (adx_frame high low close
                   (macd_frame close
                      (rsi_frame close
                         (mom_frame close
                            (roc_frame close (ma_frame close d)))))))))).

(** The first column [compute_all] reads and does not find: [_ma] reads
    [close] first, [_adx] is the first to read [high] and [low], in this
    order, and [_vol_ma] the first to read [volume]. *)
Definition first_missing (df : DataFrame) : option string :=
  List.find (fun c => bool_decide (cols df !! c = None))
            ["close"; "high"; "low"; "volume"]%string.

(** The input frame under other dates. *)
Definition with_dates (ds : option (list Timestamp)) (d : DataFrame)
  : DataFrame := mkDF (nrows d) ds (cols d).

(** *** Windows *)

(** The [p] cells of a column that end at row [t]. *)
Definition rows_upto (p t : nat) (xs : Series) : list fl :=
  take p (drop (S t - p) xs).

(** A cell that is a number: neither missing nor infinite. *)
Definition is_fin (x : fl) : bool :=
  match x with
  | Fin _ => true
  | _ => false
  end.

(** The sign of a rational, as [np.sign] gives it. *)
Definition Qsgn (q : Q) : Q :=
  match q ?= 0 with
  | Gt => 1
  | Lt => -1
  | Eq => 0
  end.

(** Bars around the given closes: the high one above and the low one below
    the close, with the given volumes and consecutive dates. *)
Definition bars (closes volumes : list Q) : DataFrame :=
  mkDF (length closes)
    (Some (map (fun k => (19000 + Z.of_nat k)%Z) (seq 0 (length closes))))
    (<["open" := map Fin closes]>
    (<["high" := map (fun q => Fin (q + 1)) closes]>
    (<["low" := map (fun q => Fin (q - 1)) closes]>
    (<["close" := map Fin closes]>
    (<["volume" := map Fin volumes]> ∅))))).

(** Fourteen closes rising by one from 1, after a close of 0, and fourteen
    volumes of 100 after a day without trade. *)
Definition closes_from_zero : list Q := map Qnat (seq 0 14).
Definition volumes_from_zero : list Q := 0 :: replicate 13 100.

(** *** Exponential averages

    The smoothing factor of [ewm(span=n)]. *)
Definition span_alpha (span : nat) : Q := 1 / (1 + Pd.com_of_span span).

(** The recursive average [e' = (1 - alpha) * e + alpha * x], started at
    the first value. *)
Fixpoint ema_from (alpha prev : Q) (qs : list Q) : list Q :=
  match qs with
  | [] => []
  | q :: rest =>
      let e := (1 - alpha) * prev + alpha * q in
      e :: ema_from alpha e rest
  end.
Definition ema (alpha : Q) (qs : list Q) : list Q :=
  match qs with
  | [] => []
  | q :: rest => q :: ema_from alpha q rest
  end.

(** A stand-in for the square root that is never negative: the integer
    root of the integer part. *)
Definition coarse_sqrt (q : Q) : Q := inject_Z (Z.sqrt (Qfloor q)).

(** *** The range of the votes *)

(** A vote between -1 and 1. *)
Definition unit_vote (q : Q) : Prop := -1 <= q /\ q <= 1.

(** Every vote cast so far lies between -1 and 1. *)
Definition bounded_votes (st : sigstate) : Prop :=
  Forall unit_vote (votes st) /\ Forall unit_vote (vol_signals st).

(** The five labels [generate_signals] can give past its guard. *)
Definition five_labels : list string :=
  [STRONG_BUY; BUY; HOLD; SELL; STRONG_SELL].

(** Two rows whose last volume is missing. *)
Definition frame_nan_volume : DataFrame :=
  mkDF 2 (Some [19000; 19001]%Z)
    (<["close" := [Fin 10; Fin 11]]>
    (<["volume" := [Fin 100; NaN]]> ∅)).


(** A cell that is missing or a number from 0 up to the bound, if there is
    one. *)
Definition upto (ub : option Q) (x : fl) : Prop :=
  match x with
  | Fin q => 0 <= q /\ match ub with Some b => q <= b | None => True end
  | NaN => True
  | PInf | NInf => False
  end.



(** The five labels of a sub-signal. *)
Definition STRONG_BULL : string := "强烈看多".
Definition BULL : string := "看多".
Definition NEUTRAL : string := "中性".
Definition BEAR : string := "看空".
Definition STRONG_BEAR : string := "强烈看空".

(** The three outcomes of the moving-average cross. *)
Definition GOLDEN_CROSS : string := "黄金交叉(多头)".
Definition DEATH_CROSS : string := "死亡交叉(空头)".
Definition NO_CROSS : string := "无".

(** Two rows with the moving averages of 5 and 20 rows crossing: MA5 goes
    from 9 to 11 while MA20 stays at 10. *)
Definition frame_golden_cross : DataFrame :=
  mkDF 2 (Some [19000; 19001]%Z)
    (<["close" := [Fin 10; Fin 12]]>
    (<["volume" := [Fin 100; Fin 120]]>
    (<["MA5" := [Fin 9; Fin 11]]>
    (<["MA20" := [Fin 10; Fin 10]]> ∅)))).

(** * Properties *)

(** ** Labels *)

Lemma Qle_bool_false (x y : Q) : Qle_bool x y = false <-> y < x.
Proof.
  split; intros H.
  - apply Qnot_le_lt. intros Hle. apply Qle_bool_iff in Hle. congruence.
  - destruct (Qle_bool x y) eqn:E; [|reflexivity].
    apply Qle_bool_iff in E. exfalso. apply (Qlt_not_le _ _ H E).
Qed.

Ltac qbool :=
  repeat match goal with
  | H : Qle_bool _ _ = true |- _ => apply Qle_bool_iff in H
  | H : Qle_bool _ _ = false |- _ => apply Qle_bool_false in H
  | H : negb _ = true |- _ => apply negb_true_iff in H
  | H : negb _ = false |- _ => apply negb_false_iff in H
  | H : Qeq_bool _ _ = true |- _ => apply Qeq_bool_iff in H
  | H : Qeq_bool _ _ = false |- _ => apply Qeq_bool_neq in H
  end.



(** Past the guard, the result is assembled from the votes. *)
Lemma generate_signals_unfold (df : DataFrame) (r : gmap string pyval) :
  enough_rows df ->
  generate_signals df = Ok r ->
  exists st latest price_levels,
    run_blocks df = Ok st /\
    latest_of df = Ok latest /\
    price_levels_of df = Ok price_levels /\
    r = <["signal" := VStr (_score_to_signal (score_of (votes st)))]>
        (<["score" := VFloat (Fin (round_nd 3 (score_of (votes st))))]>
        (<["details" := VDict (details st)]>
        (<["latest" := VDict latest]>
        (<["price_levels" := VDict price_levels]> ∅)))).
Proof.
  intros [Hne Hrows] H. unfold generate_signals in H.
  rewrite Hne in H. simpl in H.
  assert (Hlt : (nrows df <? 2)%nat = false) by (apply Nat.ltb_ge; lia).
  rewrite Hlt in H.
  destruct (run_blocks df) as [st|e] eqn:Eb; simpl in H; [|discriminate].
  destruct (latest_of df) as [la|e] eqn:El; simpl in H; [|discriminate].
  destruct (price_levels_of df) as [pl|e] eqn:Ep; simpl in H; [|discriminate].
  exists st, la, pl. repeat split; try reflexivity. congruence.
Qed.



(** ** The sentinel *)

Lemma generate_signals_guard (df : DataFrame) :
  df_empty df = true \/ (nrows df < 2)%nat -> generate_signals df = Ok SENTINEL.
Proof.
  intros H. unfold generate_signals.
  assert (Hg : df_empty df || (nrows df <? 2)%nat = true).
  { destruct H as [->|H]; [reflexivity|].
    apply orb_true_iff. right. apply Nat.ltb_lt. exact H. }
  rewrite Hg. reflexivity.
Qed.

(** C6: on a frame that is empty or has fewer than two rows,
    [generate_signals] returns (it does not raise) the fixed sentinel: the
    insufficient-data label, score 0, empty details and empty snapshot. *)
Theorem insufficient_data_sentinel (df : DataFrame) :
  df_empty df = true \/ (nrows df < 2)%nat ->
  exists r,
    generate_signals df = Ok r /\
    r !! "signal" = Some (VStr INSUFFICIENT_DATA) /\
    r !! "score" = Some (VInt 0) /\
    r !! "details" = Some (VDict ∅) /\
    r !! "latest" = Some (VDict ∅) /\
    dom r = {["signal"; "score"; "details"; "latest"]}.
Proof.
  intros H. exists SENTINEL. split; [apply generate_signals_guard, H|].
  repeat split; reflexivity.
Qed.

Lemma insufficient_data_sentinel_witness :
  exists r,
    generate_signals frame_one_row = Ok r /\
    r !! "signal" = Some (VStr INSUFFICIENT_DATA) /\
    r !! "score" = Some (VInt 0) /\
    r !! "details" = Some (VDict ∅) /\
    r !! "latest" = Some (VDict ∅) /\
    dom r = {["signal"; "score"; "details"; "latest"]}.
Proof.
  apply (insufficient_data_sentinel frame_one_row).
  right. simpl. lia.
Defined.

(** ** Price levels *)




(** ** Votes and the aggregated score *)

Lemma casts_nothing (st : sigstate) : casts st st [] [].
Proof. split; symmetry; apply app_nil_r. Qed.

Lemma defined_notna_opt (o : option fl) :
  notna_opt o = false <-> defined o = None.
Proof.
  unfold notna_opt, defined. destruct o as [x|]; [|tauto].
  destruct (Fl.notna x); split; congruence.
Qed.

Lemma defined_Some (o : option fl) (x : fl) :
  defined o = Some x -> o = Some x /\ Fl.notna x = true.
Proof.
  unfold defined. destruct o as [y|]; [|discriminate].
  destruct (Fl.notna y) eqn:E; [|discriminate]. intros [= ->]. tauto.
Qed.

(** Closes a goal [exists v, casts st st' v [] /\ length v <= 1 /\ ...] once
    the block is reduced to a state. *)
Ltac cast_none :=
  exists []; split; [split; simpl; symmetry; apply app_nil_r|];
  split; [simpl; lia|]; intros; reflexivity.
Ltac cast_one :=
  eexists [_]; split; [split; [reflexivity | simpl; symmetry; apply app_nil_r]|];
  split; [simpl; lia|].
Ltac contradict_defined :=
  unfold undefined_in in *;
  repeat match goal with
  | H : _ \/ _ |- _ => destruct H
  | H : notna_opt _ = true |- _ =>
      let E := fresh in
      destruct (notna_opt _) eqn:E in H; [|discriminate];
      clear H
  end;
  repeat match goal with
  | H : defined ?o = None |- _ =>
      apply defined_notna_opt in H
  end;
  congruence.

Lemma ma_loop_undefined (df : DataFrame) (ps : list nat) (acc res : list Q) :
  ma_loop df ps acc = Ok res ->
  (forall p, p ∈ ps -> undefined_in (iloc_neg df 1) (fname "MA" p)) ->
  res = acc.
Proof.
  revert acc. induction ps as [|p ps IH]; intros acc H Hu; simpl in H.
  - congruence.
  - assert (Hp : notna_opt (iloc_neg df 1 !! fname "MA" p) = false).
    { apply defined_notna_opt, Hu. left. }
    rewrite Hp in H. apply IH; [exact H|].
    intros q Hq. apply Hu. right. exact Hq.
Qed.

Lemma ma_block_casts (df : DataFrame) (st st' : sigstate) :
  ma_block df st = Ok st' ->
  exists v, casts st st' v [] /\ (length v <= 1)%nat /\
    ((forall p, p ∈ ma_periods INDICATOR_PARAMS ->
                undefined_in (iloc_neg df 1) (fname "MA" p)) -> v = []).
Proof.
  unfold ma_block. intros H.
  destruct (ma_loop df (ma_periods INDICATOR_PARAMS) []) as [res|e] eqn:E;
    simpl in H; [|discriminate].
  destruct res as [|s res].
  - injection H as <-. cast_none.
  - injection H as <-. cast_one.
    intros Hu. apply (ma_loop_undefined df _ _ _ E) in Hu. discriminate.
Qed.

Lemma cross_block_casts (df : DataFrame) (st st' : sigstate) :
  cross_block df st = Ok st' ->
  exists v, casts st st' v [] /\ (length v <= 1)%nat /\
    (undefined_in (iloc_neg df 1) "MA5" \/ undefined_in (iloc_neg df 2) "MA5" \/
     undefined_in (iloc_neg df 1) "MA20" \/ undefined_in (iloc_neg df 2) "MA20" ->
     v = []).
Proof.
  unfold cross_block, row_getitem. intros H.
  repeat (case_match; simpl in H; try discriminate);
    injection H as <-;
    first [ cast_none
          | cast_one;
            repeat match goal with
            | H : _ && _ = true |- _ => apply andb_true_iff in H; destruct H
            end;
            intros Hu; exfalso;
            unfold undefined_in, defined, notna_opt in *;
            repeat match goal with
            | H : ?r !! ?c = Some _ |- _ => rewrite H in *
            end;
            repeat match goal with
            | H : Fl.notna ?x = true |- _ => rewrite H in *
            end;
            intuition discriminate ].
Qed.

Lemma rsi_block_casts (df : DataFrame) (st : sigstate) :
  exists v, casts st (rsi_block df st) v [] /\ (length v <= 1)%nat /\
    (undefined_in (iloc_neg df 1) "RSI" -> v = []).
Proof.
  unfold rsi_block, undefined_in.
  destruct (defined (iloc_neg df 1 !! "RSI")) as [rsi|] eqn:E; [|cast_none].
  repeat case_match; cast_one; discriminate.
Qed.

Lemma macd_block_casts (df : DataFrame) (st st' : sigstate) :
  macd_block df st = Ok st' ->
  exists v, casts st st' v [] /\ (length v <= 1)%nat /\
    (undefined_in (iloc_neg df 1) "MACD" \/
     undefined_in (iloc_neg df 2) "MACD_hist" -> v = []).
Proof.
  unfold macd_block, row_getitem. intros H.
  repeat (case_match; simpl in H; try discriminate);
    injection H as <-;
    first [ cast_none
          | cast_one;
            repeat match goal with
            | H : _ && _ = true |- _ => apply andb_true_iff in H; destruct H
            end;
            intros [Hu|Hu]; apply defined_notna_opt in Hu; congruence ].
Qed.

Lemma adx_block_casts (df : DataFrame) (st st' : sigstate) :
  adx_block df st = Ok st' ->
  exists v, casts st st' v [] /\ (length v <= 1)%nat /\
    (undefined_in (iloc_neg df 1) "ADX" -> v = []).
Proof.
  unfold adx_block, row_getitem, undefined_in. intros H.
  repeat (case_match; simpl in H; try discriminate);
    injection H as <-; first [cast_none | cast_one; congruence].
Qed.

Lemma boll_block_casts (df : DataFrame) (st : sigstate) :
  exists v, casts st (boll_block df st) v [] /\ (length v <= 1)%nat /\
    (undefined_in (iloc_neg df 1) "BOLL_%B" -> v = []).
Proof.
  unfold boll_block, undefined_in.
  repeat case_match; first [cast_none | cast_one; congruence].
Qed.

Lemma roc_block_casts (df : DataFrame) (st : sigstate) :
  exists v, casts st (roc_block df st) v [] /\ (length v <= 1)%nat /\
    (undefined_in (iloc_neg df 1) "ROC" -> v = []).
Proof.
  unfold roc_block, undefined_in.
  repeat case_match; first [cast_none | cast_one; congruence].
Qed.

Lemma mom_block_casts (df : DataFrame) (st : sigstate) :
  exists v, casts st (mom_block df st) v [] /\ (length v <= 1)%nat /\
    (undefined_in (iloc_neg df 1) "MOM" -> v = []).
Proof.
  unfold mom_block, undefined_in.
  repeat case_match; first [cast_none | cast_one; congruence].
Qed.

Lemma series_iloc_neg_Ok (s : Series) (k : nat) (x : fl) :
  series_iloc_neg s k = Ok x ->
  (k <= length s)%nat /\ s !! (length s - k)%nat = Some x.
Proof.
  unfold series_iloc_neg. destruct (k <=? length s)%nat eqn:E; [|discriminate].
  apply Nat.leb_le in E. destruct (s !! _) as [y|]; [|discriminate].
  intros [= ->]. tauto.
Qed.

Lemma obv_block_casts (df : DataFrame) (st st' : sigstate) :
  wf_df df ->
  obv_block df st = Ok st' -> casts st st' [] (obv_vote df).
Proof.
  intros [_ Hwf]. unfold obv_block, obv_vote.
  destruct (cols df !! "OBV") as [obv|] eqn:Eo;
    [|intros [= <-]; apply casts_nothing].
  rewrite <- (Hwf _ _ Eo).
  destruct (5 <=? length obv)%nat; [|intros [= <-]; apply casts_nothing].
  destruct (series_iloc_neg obv 1) as [a|e] eqn:Ea; simpl; [|discriminate].
  destruct (series_iloc_neg obv 5) as [b|e] eqn:Eb; simpl; [|discriminate].
  apply series_iloc_neg_Ok in Ea as [_ ->], Eb as [_ ->].
  repeat case_match; intros [= <-];
    (split; simpl; [symmetry; apply app_nil_r |]);
    first [reflexivity | symmetry; apply app_nil_r].
Qed.

Lemma mfi_block_casts (df : DataFrame) (st : sigstate) :
  exists w, casts st (mfi_block df st) [] w /\ (length w <= 1)%nat /\
    (undefined_in (iloc_neg df 1) "MFI" -> w = []).
Proof.
  unfold mfi_block, undefined_in.
  destruct (defined (iloc_neg df 1 !! "MFI")) as [mfi|] eqn:E;
    [|exists []; split; [apply casts_nothing|]; split; [simpl; lia|reflexivity]].
  repeat case_match;
    (eexists [_]; split;
     [split; [simpl; symmetry; apply app_nil_r | reflexivity]|];
     split; [simpl; lia | discriminate]).
Qed.

Lemma vroc_block_casts (df : DataFrame) (st : sigstate) :
  casts st (vroc_block df st) [] [].
Proof.
  unfold vroc_block. case_match; split; simpl; symmetry; apply app_nil_r.
Qed.

Lemma vol_ma_loop_casts (df : DataFrame) (ps : list nat) (st st' : sigstate) :
  vol_ma_loop df ps st = Ok st' -> casts st st' [] [].
Proof.
  revert st. induction ps as [|p ps IH]; intros st H; simpl in H.
  - injection H as <-. apply casts_nothing.
  - unfold row_getitem in H.
    repeat (case_match; simpl in H; try discriminate);
      apply IH in H; destruct H as [Hv Hw]; split; simpl in *; congruence.
Qed.

Lemma result_bind_Ok {A B} (a : A) (f : A -> result B) : (x ← Ok a; f x) = f a.
Proof. reflexivity. Qed.

Lemma result_bind_inv {A B} (m : result A) (f : A -> result B) (b : B) :
  (x ← m; f x) = Ok b -> exists a, m = Ok a /\ f a = Ok b.
Proof. destruct m as [a|e]; [|discriminate]. intros H. exists a. tauto. Qed.

Lemma obv_vote_length (df : DataFrame) : (length (obv_vote df) <= 1)%nat.
Proof. unfold obv_vote. repeat case_match; simpl; lia. Qed.

Lemma run_blocks_votes (df : DataFrame) (st : sigstate) :
  wf_df df -> run_blocks df = Ok st -> vote_breakdown df (votes st).
Proof.
  intros Hwf H. unfold run_blocks in H.
  apply result_bind_inv in H as (s1 & E1 & H).
  apply result_bind_inv in H as (s2 & E2 & H). cbv zeta in H.
  apply result_bind_inv in H as (s4 & E4 & H).
  apply result_bind_inv in H as (s5 & E5 & H). cbv zeta in H.
  apply result_bind_inv in H as (s9 & E9 & H). cbv zeta in H.
  apply result_bind_inv in H as (s12 & E12 & H).
  injection H as <-.
  apply ma_block_casts in E1 as (v1 & [V1 W1] & L1 & U1).
  apply cross_block_casts in E2 as (v2 & [V2 W2] & L2 & U2).
  destruct (rsi_block_casts df s2) as (v3 & [V3 W3] & L3 & U3).
  apply macd_block_casts in E4 as (v4 & [V4 W4] & L4 & U4).
  apply adx_block_casts in E5 as (v5 & [V5 W5] & L5 & U5).
  destruct (boll_block_casts df s5) as (v6 & [V6 W6] & L6 & U6).
  destruct (roc_block_casts df (boll_block df s5)) as (v7 & [V7 W7] & L7 & U7).
  destruct (mom_block_casts df (roc_block df (boll_block df s5)))
    as (v8 & [V8 W8] & L8 & U8).
  apply (obv_block_casts df _ _ Hwf) in E9 as [V9 W9].
  destruct (mfi_block_casts df s9) as (w10 & [V10 W10] & L10 & U10).
  destruct (vroc_block_casts df (mfi_block df s9)) as [V11 W11].
  apply vol_ma_loop_casts in E12 as [V12 W12].
  exists v1, v2, v3, v4, v5, v6, v7, v8, w10.
  split.
  { unfold extend_votes. simpl. rewrite V12, W12, V11, W11, V10, W10, V9, W9.
    rewrite V8, W8, V7, W7, V6, W6, V5, W5, V4, W4, V3, W3, V2, W2, V1, W1.
    simpl. rewrite !app_nil_r, <- !app_assoc. reflexivity. }
  split.
  { repeat (apply List.Forall_cons;
              [first [assumption | apply obv_vote_length]|]).
    apply List.Forall_nil. }
  repeat split; assumption.
Qed.

Lemma score_of_mean (vs : list Q) :
  vs <> [] -> score_of vs = Qmean vs.
Proof. destruct vs; [congruence|reflexivity]. Qed.

(** *** [generate_signals] returns on a well-formed enriched frame *)

Lemma iloc_neg_lookup (df : DataFrame) (k : nat) (c : string) (s : Series) :
  wf_df df -> cols df !! c = Some s -> (1 <= k <= nrows df)%nat ->
  exists x, iloc_neg df k !! c = Some x /\ s !! (nrows df - k)%nat = Some x.
Proof.
  intros [_ Hwf] Hc Hk.
  destruct (lookup_lt_is_Some_2 s (nrows df - k)) as [x Hx].
  { rewrite (Hwf _ _ Hc). lia. }
  exists x. split; [|exact Hx].
  unfold iloc_neg. rewrite lookup_omap, Hc. exact Hx.
Qed.

Lemma iloc_neg_None (df : DataFrame) (k : nat) (c : string) :
  cols df !! c = None -> iloc_neg df k !! c = None.
Proof. intros Hc. unfold iloc_neg. rewrite lookup_omap, Hc. reflexivity. Qed.

Lemma has_column_numeric (df : DataFrame) (c : string) :
  c <> "date"%string -> has_column df c = true -> exists s, cols df !! c = Some s.
Proof.
  intros Hc. unfold has_column. destruct (decide (c = "date"%string)); [tauto|].
  intros H. apply bool_decide_eq_true in H. exact H.
Qed.

Lemma has_column_row (df : DataFrame) (k : nat) (c : string) :
  wf_df df -> (1 <= k <= nrows df)%nat ->
  c <> "date"%string -> has_column df c = true ->
  exists x, row_getitem (iloc_neg df k) c = Ok x.
Proof.
  intros Hwf Hk Hc H. destruct (has_column_numeric df c Hc H) as [s Hs].
  destruct (iloc_neg_lookup df k c s Hwf Hs Hk) as (x & Hx & _).
  exists x. unfold row_getitem. rewrite Hx. reflexivity.
Qed.

Lemma notna_opt_row (row : Row) (c : string) :
  notna_opt (row !! c) = true -> exists x, row_getitem row c = Ok x.
Proof.
  unfold notna_opt, row_getitem. destruct (row !! c) as [x|]; [eauto|discriminate].
Qed.

Lemma row_getitem_Some (row : Row) (c : string) (x : fl) :
  row !! c = Some x -> row_getitem row c = Ok x.
Proof. unfold row_getitem. intros ->. reflexivity. Qed.

Lemma ma_loop_returns (df : DataFrame) (ps : list nat) (acc : list Q) (close : fl) :
  iloc_neg df 1 !! "close" = Some close ->
  exists res, ma_loop df ps acc = Ok res.
Proof.
  intros Hc. revert acc. induction ps as [|p ps IH]; intros acc; simpl; [eauto|].
  destruct (notna_opt (iloc_neg df 1 !! fname "MA" p)) eqn:E; [|apply IH].
  apply notna_opt_row in E as [ma Hma].
  rewrite (row_getitem_Some _ _ _ Hc), Hma.
  simpl. repeat case_match; apply IH.
Qed.

Lemma vol_ma_loop_returns (df : DataFrame) (ps : list nat) (st : sigstate)
    (volume : fl) :
  iloc_neg df 1 !! "volume" = Some volume ->
  exists st', vol_ma_loop df ps st = Ok st'.
Proof.
  intros Hv. revert st. induction ps as [|p ps IH]; intros st; simpl; [eauto|].
  destruct (notna_opt (iloc_neg df 1 !! fname "VOL_MA" p)) eqn:E; [|apply IH].
  apply notna_opt_row in E as [ma Hma].
  rewrite (row_getitem_Some _ _ _ Hv), Hma.
  simpl. repeat case_match; apply IH.
Qed.

Ltac row_present Hwf :=
  repeat match goal with
  | H : _ && _ = true |- _ => apply andb_true_iff in H; destruct H
  end;
  repeat match goal with
  | H : has_column ?df ?c = true |- context [row_getitem (iloc_neg ?df ?k) ?c] =>
      let x := fresh "x" in
      let Hx := fresh "Hx" in
      destruct (has_column_row df k c Hwf ltac:(lia) ltac:(discriminate) H)
        as [x Hx];
      rewrite Hx; simpl
  end.

Lemma cross_block_returns (df : DataFrame) (st : sigstate) :
  wf_df df -> (2 <= nrows df)%nat -> exists st', cross_block df st = Ok st'.
Proof.
  intros Hwf Hn. unfold cross_block.
  destruct (has_column df "MA5" && has_column df "MA20") eqn:E; [|eauto].
  row_present Hwf. repeat (case_match; row_present Hwf); eauto.
Qed.

Lemma macd_block_returns (df : DataFrame) (st : sigstate) :
  wf_df df -> (2 <= nrows df)%nat -> exists st', macd_block df st = Ok st'.
Proof.
  intros Hwf Hn. unfold macd_block.
  destruct (has_column df "MACD" && has_column df "MACD_signal"
            && has_column df "MACD_hist") eqn:E; [|eauto].
  case_match; [|eauto]. row_present Hwf. repeat case_match; eauto.
Qed.

Lemma adx_block_returns (df : DataFrame) (st : sigstate) :
  wf_df df -> (2 <= nrows df)%nat -> exists st', adx_block df st = Ok st'.
Proof.
  intros Hwf Hn. unfold adx_block.
  destruct (has_column df "ADX" && has_column df "DI_pos"
            && has_column df "DI_neg") eqn:E; [|eauto].
  repeat (case_match; row_present Hwf); eauto.
Qed.

Lemma obv_block_returns (df : DataFrame) (st : sigstate) :
  wf_df df -> exists st', obv_block df st = Ok st'.
Proof.
  intros [_ Hwf]. unfold obv_block.
  destruct (cols df !! "OBV") as [obv|] eqn:Eo; [|eauto].
  destruct (5 <=? nrows df)%nat eqn:E5; [|eauto]. apply Nat.leb_le in E5.
  pose proof (Hwf _ _ Eo) as Hlen. unfold series_iloc_neg.
  destruct (lookup_lt_is_Some_2 obv (length obv - 1)) as [a Ha]; [lia|].
  destruct (lookup_lt_is_Some_2 obv (length obv - 5)) as [b Hb]; [lia|].
  rewrite Ha, Hb.
  replace (1 <=? length obv)%nat with true by (symmetry; apply Nat.leb_le; lia).
  replace (5 <=? length obv)%nat with true by (symmetry; apply Nat.leb_le; lia).
  simpl. repeat case_match; eauto.
Qed.

Lemma run_blocks_returns (df : DataFrame) (close volume : fl) :
  wf_df df -> (2 <= nrows df)%nat ->
  iloc_neg df 1 !! "close" = Some close ->
  iloc_neg df 1 !! "volume" = Some volume ->
  exists st, run_blocks df = Ok st.
Proof.
  intros Hwf Hn Hc Hv. unfold run_blocks, ma_block.
  destruct (ma_loop_returns df (ma_periods INDICATOR_PARAMS) [] close Hc)
    as [res ->].
  rewrite result_bind_Ok.
  set (s1 := match res with [] => _ | _ => _ end).
  assert (exists st1, s1 = Ok st1) as [st1 ->]
    by (subst s1; destruct res; eauto).
  rewrite result_bind_Ok.
  destruct (cross_block_returns df st1 Hwf Hn) as [st2 ->].
  rewrite result_bind_Ok. cbv zeta.
  destruct (macd_block_returns df (rsi_block df st2) Hwf Hn) as [st4 ->].
  rewrite result_bind_Ok.
  destruct (adx_block_returns df st4 Hwf Hn) as [st5 ->].
  rewrite result_bind_Ok. cbv zeta.
  destruct (obv_block_returns df (mom_block df (roc_block df (boll_block df st5)))
              Hwf) as [st9 ->].
  rewrite result_bind_Ok. cbv zeta.
  destruct (vol_ma_loop_returns df (vol_ma_periods INDICATOR_PARAMS)
              (vroc_block df (mfi_block df st9)) volume Hv) as [st12 ->].
  rewrite result_bind_Ok. eauto.
Qed.

Lemma latest_of_returns (df : DataFrame) (close : fl) (volume : Q) :
  iloc_neg df 1 !! "close" = Some close ->
  iloc_neg df 1 !! "volume" = Some (Fin volume) ->
  (forall x, iloc_neg df 1 !! "OBV" = Some x -> x <> PInf /\ x <> NInf) ->
  exists latest, latest_of df = Ok latest.
Proof.
  intros Hc Hv Ho. unfold latest_of.
  rewrite (row_getitem_Some _ _ _ Hc), result_bind_Ok.
  assert (exists ch,
    (if notna_opt (iloc_neg df 2 !! "close")
     then prev_close ← row_getitem (iloc_neg df 2) "close";
          Ok (VText [Fmt 2 (Fl.mul (Fl.sub (Fl.div close prev_close) (Fin 1))
                                   (Fin 100)); Lit "%"])
     else Ok (VStr "N/A")) = Ok ch) as [ch ->].
  { destruct (notna_opt (iloc_neg df 2 !! "close")) eqn:E; [|eauto].
    apply notna_opt_row in E as [pc ->]. eauto. }
  rewrite result_bind_Ok, (row_getitem_Some _ _ _ Hv), result_bind_Ok.
  simpl to_int. rewrite result_bind_Ok.
  destruct (defined (iloc_neg df 1 !! "OBV")) as [x|] eqn:E; [|eauto].
  apply defined_Some in E as [E Hx]. destruct (Ho x E) as [H1 H2].
  destruct x; try congruence; try discriminate. simpl. eauto.
Qed.

Lemma generate_signals_returns (df : DataFrame) (close : fl) (volume : Q) :
  wf_df df -> enough_rows df ->
  iloc_neg df 1 !! "close" = Some close ->
  iloc_neg df 1 !! "volume" = Some (Fin volume) ->
  (forall x, iloc_neg df 1 !! "OBV" = Some x -> x <> PInf /\ x <> NInf) ->
  exists r, generate_signals df = Ok r.
Proof.
  intros Hwf [Hne Hn] Hc Hv Ho. unfold generate_signals.
  rewrite Hne. simpl orb.
  replace (nrows df <? 2)%nat with false by (symmetry; apply Nat.ltb_ge; lia).
  destruct (run_blocks_returns df close (Fin volume) Hwf Hn Hc Hv) as [st ->].
  rewrite result_bind_Ok. cbv zeta.
  destruct (latest_of_returns df close volume Hc Hv Ho) as [la ->].
  rewrite result_bind_Ok. unfold price_levels_of.
  rewrite (row_getitem_Some _ _ _ Hc), !result_bind_Ok. eauto.
Qed.

Lemma wf_df_intro (df : DataFrame) :
  match date df with Some ds => length ds = nrows df | None => True end ->
  map_Forall (fun (_ : string) (s : Series) => length s = nrows df) (cols df) ->
  wf_df df.
Proof.
  intros Hd Hc. split.
  - intros ds E. rewrite E in Hd. exact Hd.
  - intros c s E. exact (Hc c s E).
Qed.

Ltac wf_concrete :=
  apply wf_df_intro;
  [ reflexivity
  | apply (bool_decide_eq_true_1 _); vm_compute; reflexivity ].




(** ** The OBV-slope vote *)

(** C4 (as stated, refuted): on [frame_obv], six rows, OBV[t] - OBV[t-5] is
    positive, so the stated rule votes +0.5, and the code votes -0.5. *)
Lemma obv_vote_is_not_over_t_minus_5 :
  exists st,
    run_blocks frame_obv = Ok st /\
    votes st = [-0.5] /\
    obv_vote_claimed frame_obv = [0.5].
Proof.
  destruct (run_blocks frame_obv) as [st|e] eqn:Es;
    [|vm_compute in Es; discriminate].
  exists st. split; [reflexivity|].
  vm_compute in Es. injection Es as <-. split; reflexivity.
Qed.

(** C4 (amended): the OBV-slope sub-signal needs the OBV column and at least
    five rows, and votes on the sign of OBV at the last row minus OBV four
    rows earlier (the fifth row from the end): +0.5 if positive, -0.5 if
    negative, and no vote, rather than a zero vote, otherwise. *)
Theorem obv_slope_vote_over_five_rows (df : DataFrame) (st : sigstate) :
  wf_df df ->
  run_blocks df = Ok st ->
  (exists before after : list Q,
     votes st = before ++ obv_vote df ++ after /\ (length after <= 1)%nat) /\
  (cols df !! "OBV" = None \/ (nrows df < 5)%nat -> obv_vote df = []) /\
  (forall obv last fifth,
     cols df !! "OBV" = Some obv ->
     (5 <= nrows df)%nat ->
     obv !! (nrows df - 1)%nat = Some last ->
     obv !! (nrows df - 5)%nat = Some fifth ->
     obv_vote df =
       if Fl.gtb (Fl.sub last fifth) (Fin 0) then [0.5]
       else if Fl.ltb (Fl.sub last fifth) (Fin 0) then [-0.5]
       else []) /\
  (forall v, v ∈ obv_vote df -> v = 0.5 \/ v = -0.5).
Proof.
  intros Hwf Hb. split; [|split; [|split]].
  - destruct (run_blocks_votes df st Hwf Hb)
      as (v1 & v2 & v3 & v4 & v5 & v6 & v7 & v8 & w & Hv & Hl & _).
    exists (v1 ++ v2 ++ v3 ++ v4 ++ v5 ++ v6 ++ v7 ++ v8), w.
    split; [rewrite Hv, <- !app_assoc; reflexivity|].
    do 9 apply List.Forall_inv_tail in Hl. apply List.Forall_inv in Hl. exact Hl.
  - unfold obv_vote. intros [-> | Hlt]; [reflexivity|].
    destruct (cols df !! "OBV"); [|reflexivity].
    replace (5 <=? nrows df)%nat with false
      by (symmetry; apply Nat.leb_gt; exact Hlt).
    reflexivity.
  - intros obv last fifth Ho Hn Hl Hf. unfold obv_vote. rewrite Ho, Hl, Hf.
    replace (5 <=? nrows df)%nat with true
      by (symmetry; apply Nat.leb_le; exact Hn).
    reflexivity.
  - intros v Hv. unfold obv_vote in Hv.
    repeat case_match; apply list_elem_of_In in Hv; simpl in Hv;
      intuition (subst; auto).
Qed.

Lemma obv_slope_vote_over_five_rows_witness :
  exists st,
    run_blocks frame_obv = Ok st /\
    (exists before after : list Q,
       votes st = before ++ obv_vote frame_obv ++ after /\
       (length after <= 1)%nat) /\
    obv_vote frame_obv = [-0.5].
Proof.
  destruct (run_blocks frame_obv) as [st|e] eqn:Es;
    [|vm_compute in Es; discriminate].
  exists st. split; [reflexivity|].
  split; [|reflexivity].
  apply (obv_slope_vote_over_five_rows frame_obv st); [wf_concrete | exact Es].
Defined.

(** ** Anomaly detection *)

Section AnomalyFacts.

Variable fetch_news : string -> string -> string -> option Timestamp -> list pyval.
Variables (symbol market name : string) (threshold : Q).


Lemma check_anomaly_two_rows (df : DataFrame) (prev_close latest_close : fl)
    (day : Timestamp) :
  (2 <= nrows df)%nat ->
  iloc_neg df 2 !! "close" = Some prev_close ->
  iloc_neg df 1 !! "close" = Some latest_close ->
  date_iloc_neg df 1 = Ok day ->
  check_anomaly fetch_news (Some df) symbol market name threshold =
    Ok (if negb (Fl.notna prev_close) || Fl.eqb prev_close (Fin 0) then None
        else if Fl.ltb (Fl.abs (change_pct_of prev_close latest_close))
                       (Fin threshold)
             then None
             else Some (anomaly_record
                          (fetch_news symbol market name (Some day))
                          symbol market name day prev_close latest_close)).
Proof.
  intros Hn Hp Hl Hd. unfold check_anomaly.
  replace (nrows df <? 2)%nat with false by (symmetry; apply Nat.ltb_ge; exact Hn).
  cbv zeta. rewrite (row_getitem_Some _ _ _ Hp), result_bind_Ok.
  destruct (negb (Fl.notna prev_close) || Fl.eqb prev_close (Fin 0));
    [reflexivity|].
  rewrite (row_getitem_Some _ _ _ Hl), result_bind_Ok.
  fold (change_pct_of prev_close latest_close).
  destruct (Fl.ltb (Fl.abs (change_pct_of prev_close latest_close))
                   (Fin threshold)); [reflexivity|].
  rewrite Hd, result_bind_Ok. reflexivity.
Qed.

End AnomalyFacts.

Lemma Qeq_bool_false (x y : Q) : ~ x == y -> Qeq_bool x y = false.
Proof.
  intros H. destruct (Qeq_bool x y) eqn:E; [|reflexivity].
  apply Qeq_bool_iff in E. contradiction.
Qed.




(** ** Series facts *)

Lemma map_fmap {A B} (f : A -> B) (l : list A) : map f l = f <$> l.
Proof. reflexivity. Qed.

Lemma lookup_map {A B} (f : A -> B) (l : list A) (i : nat) :
  map f l !! i = f <$> (l !! i).
Proof. rewrite map_fmap. apply list_lookup_fmap. Qed.

Lemma zip_with_length_eq {A B C} (f : A -> B -> C) (l : list A) (k : list B)
    (n : nat) :
  length l = n -> length k = n -> length (zip_with f l k) = n.
Proof. intros Hl Hk. rewrite length_zip_with. lia. Qed.

Lemma shift_length (k : nat) (xs : Series) : length (Pd.shift k xs) = length xs.
Proof.
  unfold Pd.shift. rewrite length_take, length_app, length_replicate. lia.
Qed.

Lemma shift_lookup_lt (k t : nat) (xs : Series) :
  (t < k)%nat -> (t < length xs)%nat -> Pd.shift k xs !! t = Some NaN.
Proof.
  intros Hk Ht. unfold Pd.shift.
  rewrite lookup_take_lt by exact Ht.
  rewrite lookup_app_l by (rewrite length_replicate; exact Hk).
  apply lookup_replicate_2. exact Hk.
Qed.

Lemma shift_lookup_ge (k t : nat) (xs : Series) :
  (k <= t)%nat -> (t < length xs)%nat -> Pd.shift k xs !! t = xs !! (t - k)%nat.
Proof.
  intros Hk Ht. unfold Pd.shift.
  rewrite lookup_take_lt by exact Ht.
  rewrite lookup_app_r by (rewrite length_replicate; exact Hk).
  rewrite length_replicate. reflexivity.
Qed.

Lemma lookup_zip_with_Some_eq {A B C} (f : A -> B -> C) (l : list A)
    (k : list B) (i : nat) (x : A) (y : B) :
  l !! i = Some x -> k !! i = Some y -> zip_with f l k !! i = Some (f x y).
Proof. intros Hl Hk. rewrite lookup_zip_with, Hl, Hk. reflexivity. Qed.

Lemma rolling_length (p : nat) (agg : list fl -> fl) (xs : Series) :
  length (Pd.rolling p agg xs) = length xs.
Proof. unfold Pd.rolling. rewrite length_map, length_seq. reflexivity. Qed.

Lemma ewm_loop_length (alpha : Q) (adjust : bool) (minp : nat)
    (st : Pd.ewm_state) (vals : Series) :
  length (Pd.ewm_loop alpha adjust minp st vals) = length vals.
Proof.
  revert st. induction vals as [|v vals IH]; intros st; simpl; [reflexivity|].
  rewrite IH. reflexivity.
Qed.

Lemma ewm_mean_length (com : Q) (adjust : bool) (minp : nat) (xs : Series) :
  length (Pd.ewm_mean com adjust minp xs) = length xs.
Proof.
  unfold Pd.ewm_mean, Pd.prep_values. destruct xs as [|x xs]; [reflexivity|].
  simpl. rewrite ewm_loop_length, length_map. reflexivity.
Qed.

Lemma cumsum_from_length (acc : fl) (xs : Series) :
  length (Pd.cumsum_from acc xs) = length xs.
Proof.
  revert acc. induction xs as [|x xs IH]; intros acc; simpl; [reflexivity|].
  destruct (Fl.notna x); simpl; rewrite IH; reflexivity.
Qed.

Lemma max3_length (xs ys zs : Series) (n : nat) :
  length xs = n -> length ys = n -> length zs = n ->
  length (Pd.max3 xs ys zs) = n.
Proof.
  revert ys zs n. induction xs as [|x xs IH]; intros ys zs n Hx Hy Hz.
  - simpl in *. subst n. reflexivity.
  - destruct ys as [|y ys]; [simpl in *; congruence|].
    destruct zs as [|z zs]; [simpl in *; congruence|].
    simpl in *. destruct n; [discriminate|].
    f_equal. apply IH; congruence.
Qed.

(** Lengths of the columns the pipeline builds. *)
Ltac series_length :=
  repeat first
    [ assumption
    | reflexivity
    | apply zip_with_length_eq
    | apply max3_length
    | rewrite length_map
    | rewrite shift_length
    | rewrite rolling_length
    | rewrite ewm_mean_length
    | rewrite cumsum_from_length
    | progress unfold Pd.add, Pd.sub, Pd.mul, Pd.div, Pd.neg, Pd.abs, Pd.gt,
        Pd.lt, Pd.smul, Pd.sadd, Pd.ssub, Pd.sdiv, Pd.muls, Pd.subs, Pd.divs,
        Pd.diff, Pd.clip_lower, Pd.clip_upper, Pd.where_, Pd.fillna,
        Pd.replace_zero_nan, Pd.sign, Pd.cumsum, Pd.rolling_mean,
        Pd.rolling_sum, Pd.pct_change ].

(** ** ADX: the mutual exclusion of +DM and -DM *)

Lemma dm_plus_raw_length (high : Series) :
  length (dm_plus_raw high) = length high.
Proof. unfold dm_plus_raw. series_length. Qed.

Lemma dm_minus_raw_length (low : Series) :
  length (dm_minus_raw low) = length low.
Proof. unfold dm_minus_raw. series_length. Qed.

Lemma dm_plus_of_length (high low : Series) :
  length high = length low -> length (dm_plus_of high low) = length high.
Proof.
  intros H. unfold dm_plus_of, Pd.where_, Pd.gt.
  repeat apply zip_with_length_eq;
    first [apply dm_plus_raw_length | rewrite dm_minus_raw_length; congruence].
Qed.

Lemma fillna_shift_dm_plus (high low : Series) (t : nat) :
  length high = length low -> (t < length high)%nat ->
  Pd.fillna (Fin 0) (Pd.shift 1 (dm_plus_of high low)) !! t
  = Some (dm_plus_before high low t).
Proof.
  intros Hlen Ht. unfold Pd.fillna. rewrite lookup_map.
  pose proof (dm_plus_of_length high low Hlen) as Hl.
  destruct t as [|t'].
  - rewrite shift_lookup_lt by lia. reflexivity.
  - rewrite shift_lookup_ge by lia.
    replace (S t' - 1)%nat with t' by lia. simpl.
    destruct (lookup_lt_is_Some_2 (dm_plus_of high low) t') as [x Hx]; [lia|].
    rewrite Hx. reflexivity.
Qed.

(** C3 (as stated, refuted): on three bars where the low falls by 4 and the
    high then rises by 1, the +DM of the last bar is 1 and is kept, although
    it does not exceed the previous bar's -DM, which is 4 (before and after
    filtering); the stated rule would have zeroed it. *)
Lemma dm_plus_is_not_compared_with_previous_dm_minus :
  dm_plus_of highs_fall_then_rise lows_fall_then_rise !! 2%nat = Some (Fin 1) /\
  dm_minus_raw lows_fall_then_rise !! 1%nat = Some (Fin 4) /\
  dm_minus_of highs_fall_then_rise lows_fall_then_rise !! 1%nat = Some (Fin 4) /\
  Fl.gtb (Fin 1) (Fin 4) = false /\
  dm_plus_claimed highs_fall_then_rise lows_fall_then_rise !! 2%nat
  = Some (Fin 0).
Proof. repeat split; vm_compute; reflexivity. Qed.

(** C3 (amended): at every bar, +DM is zeroed unless it exceeds the -DM of
    the same bar, and -DM is zeroed unless it exceeds the already filtered
    +DM of the previous bar (0 for the first bar); the comparison with the
    previous bar is on the -DM side only. *)
Theorem dm_mutual_exclusion (high low : Series) (t : nat) :
  length high = length low ->
  (t < length high)%nat ->
  exists p m,
    dm_plus_raw high !! t = Some p /\
    dm_minus_raw low !! t = Some m /\
    dm_plus_of high low !! t = Some (if Fl.gtb p m then p else Fin 0) /\
    dm_minus_of high low !! t
    = Some (if Fl.gtb m (dm_plus_before high low t) then m else Fin 0).
Proof.
  intros Hlen Ht.
  destruct (lookup_lt_is_Some_2 (dm_plus_raw high) t) as [p Hp];
    [rewrite dm_plus_raw_length; exact Ht|].
  destruct (lookup_lt_is_Some_2 (dm_minus_raw low) t) as [m Hm];
    [rewrite dm_minus_raw_length; lia|].
  exists p, m. split; [exact Hp|]. split; [exact Hm|]. split.
  - assert (Hg : Pd.gt (dm_plus_raw high) (dm_minus_raw low) !! t
                 = Some (Fl.gtb p m))
      by (apply lookup_zip_with_Some_eq; assumption).
    exact (lookup_zip_with_Some_eq
             (fun x (c : bool) => if c then x else Fin 0) _ _ t p _ Hp Hg).
  - pose proof (fillna_shift_dm_plus high low t Hlen Ht) as Hb.
    assert (Hg : Pd.gt (dm_minus_raw low)
                   (Pd.fillna (Fin 0) (Pd.shift 1 (dm_plus_of high low))) !! t
                 = Some (Fl.gtb m (dm_plus_before high low t)))
      by (apply lookup_zip_with_Some_eq; assumption).
    exact (lookup_zip_with_Some_eq
             (fun x (c : bool) => if c then x else Fin 0) _ _ t m _ Hm Hg).
Qed.

Lemma dm_mutual_exclusion_witness :
  exists p m,
    dm_plus_raw highs_fall_then_rise !! 2%nat = Some p /\
    dm_minus_raw lows_fall_then_rise !! 2%nat = Some m /\
    dm_plus_of highs_fall_then_rise lows_fall_then_rise !! 2%nat
    = Some (if Fl.gtb p m then p else Fin 0) /\
    dm_minus_of highs_fall_then_rise lows_fall_then_rise !! 2%nat
    = Some (if Fl.gtb m (dm_plus_before highs_fall_then_rise
                           lows_fall_then_rise 2)
            then m else Fin 0).
Proof.
  apply (dm_mutual_exclusion highs_fall_then_rise lows_fall_then_rise 2);
    [reflexivity | simpl; lia].
Defined.

(** ** RSI and MFI stay between 0 and 100 *)

Lemma nonneg_prep (x : fl) : nonneg x -> nonneg_fin (Pd.prep_value x).
Proof. destruct x; simpl; tauto. Qed.

Lemma nonneg_fin_nonneg (x : fl) : nonneg_fin x -> nonneg x.
Proof. destruct x; simpl; tauto. Qed.

Lemma clip_lower_nonneg (x : fl) :
  nonneg (if Fl.ltb x (Fin 0) then Fin 0 else x).
Proof.
  destruct x as [q| | |]; simpl; try exact I; try lra.
  destruct (Qle_bool 0 q) eqn:E; simpl; [apply Qle_bool_iff in E; exact E | lra].
Qed.

Lemma neg_clip_upper_nonneg (x : fl) :
  nonneg (Fl.neg (if Fl.gtb x (Fin 0) then Fin 0 else x)).
Proof.
  destruct x as [q| | |]; simpl; try exact I; try lra.
  unfold Fl.gtb. simpl.
  destruct (Qle_bool q 0) eqn:E; simpl; [apply Qle_bool_iff in E; lra | lra].
Qed.

Lemma Forall_zip_with_2 {A B C} (P : A -> Prop) (R : B -> Prop) (S : C -> Prop)
    (f : A -> B -> C) (l : list A) (k : list B) :
  (forall x y, P x -> R y -> S (f x y)) ->
  Forall P l -> Forall R k -> Forall S (zip_with f l k).
Proof.
  intros Hf Hl. revert k. induction Hl as [|x l Hx Hl IH]; intros k Hk.
  - constructor.
  - destruct Hk as [|y k Hy Hk]; simpl; constructor; auto.
Qed.

Lemma Forall_map_all {A B} (S : B -> Prop) (f : A -> B) (l : list A) :
  (forall x, S (f x)) -> Forall S (map f l).
Proof. intros Hf. induction l; simpl; constructor; auto. Qed.

Lemma Forall_map_impl {A B} (P : A -> Prop) (S : B -> Prop) (f : A -> B)
    (l : list A) :
  (forall x, P x -> S (f x)) -> Forall P l -> Forall S (map f l).
Proof. intros Hf Hl. induction Hl; simpl; constructor; auto. Qed.

(** *** The exponentially weighted mean of non-negative cells *)

Lemma ewm_step_inv (alpha : Q) (st : Pd.ewm_state) (cur : fl) :
  alpha <= 1 -> ewm_inv st -> nonneg_fin cur ->
  ewm_inv (Pd.ewm_step alpha true st cur).
Proof.
  intros Ha [Hw Ho] Hc. unfold Pd.ewm_step.
  destruct st as [w o k]. simpl in *.
  assert (Hf : 0 <= o * (1 - alpha)) by (apply Qmult_le_0_compat; lra).
  destruct w as [w| | |]; simpl in Hw; try contradiction; simpl.
  - destruct cur as [c| | |]; simpl in Hc; try contradiction; simpl.
    + split; [|simpl; lra]. simpl.
      destruct (Qeq_bool w c); simpl; [exact Hw|].
      rewrite Qeq_bool_false by lra. simpl.
      apply Qle_shift_div_l; [lra|].
      assert (0 <= o * (1 - alpha) * w) by (apply Qmult_le_0_compat; lra).
      lra.
    + split; simpl; [exact Hw | exact Hf].
  - destruct cur as [c| | |]; simpl in Hc; try contradiction; simpl;
      split; simpl; auto.
Qed.

Lemma ewm_out_nonneg (minp : nat) (st : Pd.ewm_state) :
  ewm_inv st -> nonneg_fin (Pd.ewm_out minp st).
Proof.
  intros [Hw _]. unfold Pd.ewm_out. destruct (minp <=? Pd.nobs st)%nat;
    [exact Hw | exact I].
Qed.

Lemma ewm_loop_nonneg (alpha : Q) (minp : nat) (st : Pd.ewm_state)
    (vals : Series) :
  alpha <= 1 -> ewm_inv st -> Forall nonneg_fin vals ->
  Forall nonneg_fin (Pd.ewm_loop alpha true minp st vals).
Proof.
  intros Ha Hst Hv. revert st Hst.
  induction Hv as [|v vals Hv Hvs IH]; intros st Hst; simpl; constructor.
  - apply ewm_out_nonneg, ewm_step_inv; assumption.
  - apply IH, ewm_step_inv; assumption.
Qed.

Lemma alpha_le_1 (com : Q) : 0 <= com -> 1 / (1 + com) <= 1.
Proof. intros H. apply Qle_shift_div_r; lra. Qed.

Lemma ewm_mean_nonneg (com : Q) (minp : nat) (xs : Series) :
  0 <= com -> Forall nonneg xs ->
  Forall nonneg_fin (Pd.ewm_mean com true minp xs).
Proof.
  intros Hcom Hx. unfold Pd.ewm_mean.
  assert (Hp : Forall nonneg_fin (Pd.prep_values xs))
    by (apply (Forall_map_impl nonneg); [exact nonneg_prep | exact Hx]).
  destruct (Pd.prep_values xs) as [|v0 rest]; [constructor|].
  apply Forall_cons in Hp as [H0 Hr].
  assert (Hst : ewm_inv (Pd.EwmState v0 1 (if Fl.notna v0 then 1 else 0)))
    by (split; simpl; [exact H0 | lra]).
  constructor.
  - apply ewm_out_nonneg, Hst.
  - apply ewm_loop_nonneg; [apply alpha_le_1, Hcom | exact Hst | exact Hr].
Qed.

Lemma Qnat_pos (n : nat) : (1 <= n)%nat -> 0 <= Qnat n - 1.
Proof.
  intros H. unfold Qnat.
  assert (1 <= inject_Z (Z.of_nat n)).
  { change 1 with (inject_Z 1). rewrite <- Zle_Qle. lia. }
  lra.
Qed.

Lemma rsi_avg_gain_nonneg (n : nat) (close : Series) :
  (1 <= n)%nat -> Forall nonneg_fin (rsi_avg_gain n close).
Proof.
  intros Hn. unfold rsi_avg_gain. apply ewm_mean_nonneg; [apply Qnat_pos, Hn|].
  unfold Pd.clip_lower. apply Forall_map_all. exact clip_lower_nonneg.
Qed.

Lemma rsi_avg_loss_nonneg (n : nat) (close : Series) :
  (1 <= n)%nat -> Forall nonneg_fin (rsi_avg_loss n close).
Proof.
  intros Hn. unfold rsi_avg_loss. apply ewm_mean_nonneg; [apply Qnat_pos, Hn|].
  unfold Pd.neg, Pd.clip_upper. rewrite map_map. apply Forall_map_all.
  exact neg_clip_upper_nonneg.
Qed.

(** *** The index [100 - 100 / (1 + num / den)] *)

Lemma index_of_zero_den (num den : fl) :
  Fl.eqb den (Fin 0) = true -> index_of num den = NaN.
Proof.
  intros H. unfold index_of. rewrite H. destruct num; reflexivity.
Qed.

Lemma div_Fin (a b : Q) : ~ b == 0 -> Fl.div (Fin a) (Fin b) = Fin (a / b).
Proof. intros H. simpl. rewrite (Qeq_bool_false _ _ H). reflexivity. Qed.

Lemma index_of_range (num den : fl) :
  nonneg_fin num -> nonneg_fin den -> percent_or_nan (index_of num den).
Proof.
  intros Hn Hd. unfold index_of.
  destruct den as [d| | |]; simpl in Hd; try contradiction;
    [|destruct num; exact I].
  simpl Fl.eqb. destruct (Qeq_bool d 0) eqn:Ed; [destruct num; exact I|].
  apply Qeq_bool_neq in Ed.
  destruct num as [a| | |]; simpl in Hn; try contradiction; [|exact I].
  assert (Hd0 : 0 < d).
  { apply Qle_lteq in Hd as [H|H]; [exact H|]. symmetry in H. contradiction. }
  assert (Hr : 0 <= a / d) by (apply Qle_shift_div_l; lra).
  rewrite (div_Fin a d Ed).
  change (Fl.add (Fin 1) (Fin (a / d))) with (Fin (1 + a / d)).
  rewrite div_Fin by lra.
  change (Fl.sub (Fin 100) (Fin (100 / (1 + a / d))))
    with (Fin (100 - 100 / (1 + a / d))).
  simpl.
  assert (H1 : 100 / (1 + a / d) <= 100) by (apply Qle_shift_div_r; lra).
  assert (H2 : 0 <= 100 / (1 + a / d)) by (apply Qle_shift_div_l; lra).
  split; lra.
Qed.

Lemma index_series_lookup (num den : Series) (t : nat) (x : fl) :
  Pd.ssub 100 (Pd.sdiv 100 (Pd.sadd 1 (Pd.div num (Pd.replace_zero_nan den))))
    !! t = Some x ->
  exists a b, num !! t = Some a /\ den !! t = Some b /\ x = index_of a b.
Proof.
  unfold Pd.ssub, Pd.sdiv, Pd.sadd, Pd.div, Pd.replace_zero_nan.
  rewrite !lookup_map, lookup_zip_with, lookup_map.
  destruct (num !! t) as [a|]; [|discriminate].
  destruct (den !! t) as [b|]; [|discriminate].
  simpl. intros [= <-]. exists a, b. repeat split; reflexivity.
Qed.

Lemma index_series_lookup_Some (num den : Series) (t : nat) (a b : fl) :
  num !! t = Some a -> den !! t = Some b ->
  Pd.ssub 100 (Pd.sdiv 100 (Pd.sadd 1 (Pd.div num (Pd.replace_zero_nan den))))
    !! t = Some (index_of a b).
Proof.
  intros Ha Hb.
  unfold Pd.ssub, Pd.sdiv, Pd.sadd, Pd.div, Pd.replace_zero_nan.
  rewrite !lookup_map, lookup_zip_with, lookup_map, Ha, Hb. reflexivity.
Qed.

Lemma index_series_range (num den : Series) (t : nat) (x : fl) :
  Forall nonneg_fin num -> Forall nonneg_fin den ->
  Pd.ssub 100 (Pd.sdiv 100 (Pd.sadd 1 (Pd.div num (Pd.replace_zero_nan den))))
    !! t = Some x ->
  percent_or_nan x.
Proof.
  intros Hn Hd H.
  apply index_series_lookup in H as (a & b & Ha & Hb & ->).
  apply index_of_range.
  - exact (proj1 (Forall_lookup _ _) Hn t a Ha).
  - exact (proj1 (Forall_lookup _ _) Hd t b Hb).
Qed.

Lemma rsi_of_unfold (n : nat) (close : Series) :
  rsi_of n close
  = Pd.ssub 100 (Pd.sdiv 100 (Pd.sadd 1
      (Pd.div (rsi_avg_gain n close)
              (Pd.replace_zero_nan (rsi_avg_loss n close))))).
Proof. reflexivity. Qed.

Lemma mfi_of_unfold (n : nat) (high low close volume : Series) :
  mfi_of n high low close volume
  = Pd.ssub 100 (Pd.sdiv 100 (Pd.sadd 1
      (Pd.div (mfi_pos_sum n high low close volume)
              (Pd.replace_zero_nan (mfi_neg_sum n high low close volume))))).
Proof. reflexivity. Qed.

(** *** The rolling sums of non-negative money flows *)

Lemma add_nonneg (x y : fl) : nonneg x -> nonneg y -> nonneg (Fl.add x y).
Proof.
  destruct x, y; simpl; try tauto. intros. lra.
Qed.

Lemma signed_inf_nonneg (q : Q) : 0 <= q -> nonneg (Fl.signed_inf q).
Proof.
  intros H. unfold Fl.signed_inf. destruct (q ?= 0) eqn:E; try exact I.
  apply Qlt_alt in E. lra.
Qed.

Lemma mul_nonneg (x y : fl) : nonneg x -> nonneg y -> nonneg (Fl.mul x y).
Proof.
  destruct x, y; simpl; try tauto; intros Hx Hy;
    first [apply signed_inf_nonneg; assumption
          | apply Qmult_le_0_compat; assumption].
Qed.

Lemma div3_nonneg (x : fl) : nonneg x -> nonneg (Fl.div x (Fin 3)).
Proof.
  destruct x; simpl; try tauto. intros H. apply Qle_shift_div_l; lra.
Qed.

Lemma typical_price_nonneg (high low close : Series) :
  Forall nonneg high -> Forall nonneg low -> Forall nonneg close ->
  Forall nonneg (typical_price high low close).
Proof.
  intros Hh Hl Hc. unfold typical_price, Pd.divs, Pd.add.
  apply (Forall_map_impl nonneg); [exact div3_nonneg|].
  apply (Forall_zip_with_2 nonneg nonneg); [exact add_nonneg| |exact Hc].
  apply (Forall_zip_with_2 nonneg nonneg); [exact add_nonneg| exact Hh |exact Hl].
Qed.

Lemma where_zero_nonneg (xs : Series) (cond : list bool) :
  Forall nonneg xs -> Forall nonneg (Pd.where_ xs cond (Fin 0)).
Proof.
  intros Hx. revert cond. induction Hx as [|x xs Hx Hxs IH]; intros cond.
  - constructor.
  - destruct cond as [|c cond]; simpl; constructor; [|apply IH].
    destruct c; [exact Hx | simpl; lra].
Qed.

Lemma fsum_from_nonneg (w : list fl) (acc : Q) :
  Forall nonneg_fin w -> forallb Fl.notna w = true -> 0 <= acc ->
  nonneg_fin (fold_left Fl.add w (Fin acc)).
Proof.
  intros Hw. revert acc. induction Hw as [|x w Hx Hw IH]; intros acc Hn Ha.
  - exact Ha.
  - simpl in Hn. apply andb_true_iff in Hn as [Hx' Hn].
    destruct x as [q| | |]; simpl in Hx, Hx'; try contradiction;
      try discriminate.
    simpl. apply IH; [exact Hn | lra].
Qed.

Lemma rolling_sum_nonneg (p : nat) (xs : Series) :
  Forall nonneg xs -> Forall nonneg_fin (Pd.rolling_sum p xs).
Proof.
  intros Hx. unfold Pd.rolling_sum, Pd.rolling.
  assert (Hp : Forall nonneg_fin (Pd.prep_values xs))
    by (apply (Forall_map_impl nonneg); [exact nonneg_prep | exact Hx]).
  apply Forall_map_all. intros t. unfold Pd.window.
  destruct (p <=? S t)%nat; [|exact I].
  destruct (forallb Fl.notna _) eqn:E; [|exact I].
  apply fsum_from_nonneg; [|exact E|lra].
  apply Forall_take, Forall_drop, Hp.
Qed.

Lemma mfi_sums_nonneg (n : nat) (high low close volume : Series) :
  Forall nonneg high -> Forall nonneg low -> Forall nonneg close ->
  Forall nonneg volume ->
  Forall nonneg_fin (mfi_pos_sum n high low close volume) /\
  Forall nonneg_fin (mfi_neg_sum n high low close volume).
Proof.
  intros Hh Hl Hc Hv.
  pose proof (typical_price_nonneg high low close Hh Hl Hc) as Ht.
  assert (Hraw : Forall nonneg (Pd.mul (typical_price high low close) volume))
    by (apply (Forall_zip_with_2 nonneg nonneg);
        [exact mul_nonneg | exact Ht | exact Hv]).
  split; apply rolling_sum_nonneg, where_zero_nonneg, Hraw.
Qed.

Lemma rsi_avg_lengths (n : nat) (close : Series) :
  length (rsi_avg_gain n close) = length (rsi_avg_loss n close).
Proof.
  unfold rsi_avg_gain, rsi_avg_loss. rewrite !ewm_mean_length.
  unfold Pd.neg, Pd.clip_lower, Pd.clip_upper. rewrite !length_map. reflexivity.
Qed.

Lemma mfi_sum_lengths (n : nat) (high low close volume : Series) :
  length (mfi_pos_sum n high low close volume)
  = length (mfi_neg_sum n high low close volume).
Proof.
  unfold mfi_pos_sum, mfi_neg_sum, Pd.rolling_sum. rewrite !rolling_length.
  unfold Pd.where_, Pd.gt, Pd.lt. rewrite !length_zip_with. reflexivity.
Qed.

(** C9 (as stated, refuted): on fourteen bars whose price swings between 1
    and -1 the money flow of the falling bars is negative, and the MFI of
    the last bar is -600. *)
Lemma mfi_leaves_the_range_on_negative_flow :
  exists q,
    mfi_of (mfi_period INDICATOR_PARAMS) swing swing swing unit_volume !! 13%nat
    = Some (Fin q) /\
    q == -600 /\
    ~ percent_or_nan (Fin q).
Proof.
  eexists. split; [vm_compute; reflexivity|]. split; [reflexivity|].
  intros [H _]. vm_compute in H. apply H. reflexivity.
Qed.

(** C9 (amended): for every close series and every row the RSI is undefined
    or lies in [0, 100]; for every series whose prices and volumes are not
    negative the MFI is undefined or lies in [0, 100]; where the smoothed
    loss (for RSI) or the negative money flow sum (for MFI) is 0 the value
    is undefined, not infinite. *)
Theorem rsi_and_mfi_range :
  (forall n close t x,
     (1 <= n)%nat -> rsi_of n close !! t = Some x -> percent_or_nan x) /\
  (forall n close t loss,
     rsi_avg_loss n close !! t = Some loss -> Fl.eqb loss (Fin 0) = true ->
     rsi_of n close !! t = Some NaN) /\
  (forall n high low close volume t x,
     Forall nonneg high -> Forall nonneg low -> Forall nonneg close ->
     Forall nonneg volume ->
     mfi_of n high low close volume !! t = Some x -> percent_or_nan x) /\
  (forall n high low close volume t neg_sum,
     mfi_neg_sum n high low close volume !! t = Some neg_sum ->
     Fl.eqb neg_sum (Fin 0) = true ->
     mfi_of n high low close volume !! t = Some NaN).
Proof.
  split; [|split; [|split]].
  - intros n close t x Hn H. rewrite rsi_of_unfold in H.
    apply (index_series_range _ _ t x) in H;
      [exact H | apply rsi_avg_gain_nonneg, Hn | apply rsi_avg_loss_nonneg, Hn].
  - intros n close t loss Hl H0.
    destruct (lookup_lt_is_Some_2 (rsi_avg_gain n close) t) as [gain Hg].
    { rewrite rsi_avg_lengths. apply lookup_lt_is_Some_1. eauto. }
    rewrite rsi_of_unfold, (index_series_lookup_Some _ _ t gain loss Hg Hl).
    rewrite index_of_zero_den by exact H0. reflexivity.
  - intros n high low close volume t x Hh Hl Hc Hv H.
    rewrite mfi_of_unfold in H.
    destruct (mfi_sums_nonneg n high low close volume Hh Hl Hc Hv) as [Hp Hn].
    exact (index_series_range _ _ t x Hp Hn H).
  - intros n high low close volume t neg_sum Hs H0.
    destruct (lookup_lt_is_Some_2 (mfi_pos_sum n high low close volume) t)
      as [pos_sum Hp].
    { rewrite mfi_sum_lengths. apply lookup_lt_is_Some_1. eauto. }
    rewrite mfi_of_unfold,
      (index_series_lookup_Some _ _ t pos_sum neg_sum Hp Hs).
    rewrite index_of_zero_den by exact H0. reflexivity.
Qed.

Lemma rsi_and_mfi_range_witness :
  (exists x, rsi_of 14 closes_zigzag !! 14%nat = Some x /\ percent_or_nan x) /\
  rsi_of 14 closes_rising !! 14%nat = Some NaN.
Proof.
  destruct rsi_and_mfi_range as (Hrsi & Hzero & _ & _). split.
  - destruct (rsi_of 14 closes_zigzag !! 14%nat) as [x|] eqn:E;
      [|vm_compute in E; discriminate].
    exists x. split; [reflexivity|].
    apply (Hrsi 14%nat closes_zigzag 14%nat x); [lia | exact E].
  - apply (Hzero 14%nat closes_rising 14%nat (Fin 0)); reflexivity.
Defined.

(** ** The pipeline on the store *)

Lemma store_last (st0 : store) (d : DataFrame) :
  (st0 ++ [d]) !! length st0 = Some d.
Proof. rewrite lookup_app_r by lia. rewrite Nat.sub_diag. reflexivity. Qed.

Lemma store_set_last (st0 : store) (d d' : DataFrame) :
  <[length st0 := d']> (st0 ++ [d]) = st0 ++ [d'].
Proof.
  rewrite insert_app_r_alt by lia. rewrite Nat.sub_diag. reflexivity.
Qed.

Lemma bind_run {A B} (m : M A) (k : A -> M B) (st st' : store) (a : A) :
  m st = (Ok a, st') -> (m ≫= k) st = k a st'.
Proof. intros H. unfold mbind, M_bind. rewrite H. reflexivity. Qed.

Lemma bind_raise {A B} (m : M A) (k : A -> M B) (st st' : store) (e : exn) :
  m st = (Raise e, st') -> (m ≫= k) st = (Raise e, st').
Proof. intros H. unfold mbind, M_bind. rewrite H. reflexivity. Qed.

Lemma getitem_last (st0 : store) (d : DataFrame) (c : string) (s : Series) :
  cols d !! c = Some s ->
  getitem (length st0) c (st0 ++ [d]) = (Ok s, st0 ++ [d]).
Proof. intros H. unfold getitem. rewrite store_last, H. reflexivity. Qed.

Lemma getitem_last_missing (st0 : store) (d : DataFrame) (c : string) :
  cols d !! c = None ->
  getitem (length st0) c (st0 ++ [d]) = (Raise (KeyError c), st0 ++ [d]).
Proof. intros H. unfold getitem. rewrite store_last, H. reflexivity. Qed.

Lemma setitem_last (st0 : store) (d : DataFrame) (c : string) (s : Series) :
  setitem (length st0) c s (st0 ++ [d]) = (Ok tt, st0 ++ [set_col c s d]).
Proof.
  unfold setitem. rewrite store_last, store_set_last. reflexivity.
Qed.

Lemma bind_getitem {B} (st0 : store) (d : DataFrame) (c : string) (s : Series)
    (k : Series -> M B) :
  cols d !! c = Some s ->
  (getitem (length st0) c ≫= k) (st0 ++ [d]) = k s (st0 ++ [d]).
Proof. intros H. apply bind_run, getitem_last, H. Qed.

Lemma bind_getitem_missing {B} (st0 : store) (d : DataFrame) (c : string)
    (k : Series -> M B) :
  cols d !! c = None ->
  (getitem (length st0) c ≫= k) (st0 ++ [d])
  = (Raise (KeyError c), st0 ++ [d]).
Proof. intros H. apply bind_raise, getitem_last_missing, H. Qed.

Lemma bind_setitem {B} (st0 : store) (d : DataFrame) (c : string) (s : Series)
    (k : unit -> M B) :
  (setitem (length st0) c s ≫= k) (st0 ++ [d])
  = k tt (st0 ++ [set_col c s d]).
Proof. apply bind_run, setitem_last. Qed.

Lemma cols_set_col (c c' : string) (s : Series) (d : DataFrame) :
  cols (set_col c s d) !! c'
  = if decide (c = c') then Some s else cols d !! c'.
Proof. unfold set_col. simpl. apply lookup_insert. Qed.

Lemma cols_set_col_ne (c c' : string) (s : Series) (d : DataFrame) :
  c <> c' -> cols (set_col c s d) !! c' = cols d !! c'.
Proof. intros H. unfold set_col. simpl. apply lookup_insert_ne, H. Qed.

Lemma cols_set_col_eq (c : string) (s : Series) (d : DataFrame) :
  cols (set_col c s d) !! c = Some s.
Proof. unfold set_col. simpl. apply lookup_insert_eq. Qed.

(** Looks a column up through the columns written on top of it. *)
Ltac col_lookup :=
  repeat first
    [ rewrite cols_set_col_eq
    | rewrite cols_set_col_ne by (first [discriminate | vm_compute; discriminate]) ];
  first [reflexivity | eassumption].

(** Runs the next read or write of a helper on the store [st0 ++ [d]]. *)
Ltac step :=
  first
    [ rewrite bind_setitem
    | erewrite bind_getitem by col_lookup
    ];
  cbv beta.

Section PipelineFacts.

Variable fsqrt : Q -> Q.
Variables (st0 : store).

Lemma _roc_runs (d : DataFrame) (close : Series) :
  cols d !! "close" = Some close ->
  _roc (length st0) (st0 ++ [d]) = (Ok (length st0), st0 ++ [roc_frame close d]).
Proof. intros Hc. unfold _roc. cbv zeta. repeat step. reflexivity. Qed.

Lemma _momentum_runs (d : DataFrame) (close : Series) :
  cols d !! "close" = Some close ->
  _momentum (length st0) (st0 ++ [d])
  = (Ok (length st0), st0 ++ [mom_frame close d]).
Proof. intros Hc. unfold _momentum. cbv zeta. repeat step. reflexivity. Qed.

Lemma _rsi_runs (d : DataFrame) (close : Series) :
  cols d !! "close" = Some close ->
  _rsi (length st0) (st0 ++ [d]) = (Ok (length st0), st0 ++ [rsi_frame close d]).
Proof. intros Hc. unfold _rsi. cbv zeta. repeat step. reflexivity. Qed.

Lemma _macd_runs (d : DataFrame) (close : Series) :
  cols d !! "close" = Some close ->
  _macd (length st0) (st0 ++ [d])
  = (Ok (length st0), st0 ++ [macd_frame close d]).
Proof. intros Hc. unfold _macd. cbv zeta. repeat step. reflexivity. Qed.

Lemma fname_MA_ne_close (p : nat) : fname "MA" p <> "close"%string.
Proof. unfold fname. simpl. discriminate. Qed.

Lemma fname_VOL_MA_ne_volume (p : nat) : fname "VOL_MA" p <> "volume"%string.
Proof. unfold fname. simpl. discriminate. Qed.

Lemma for_ma_runs (ps : list nat) (d : DataFrame) (close : Series) :
  cols d !! "close" = Some close ->
  for_ ps (fun p =>
             close ← getitem (length st0) "close";
             setitem (length st0) (fname "MA" p) (Pd.rolling_mean p close))
       (st0 ++ [d])
  = (Ok tt,
     st0 ++ [foldl (fun d p => set_col (fname "MA" p)
                                       (Pd.rolling_mean p close) d) d ps]).
Proof.
  revert d. induction ps as [|p ps IH]; intros d Hc; [reflexivity|].
  cbn [for_ foldl]. erewrite bind_run.
  - apply IH. rewrite cols_set_col_ne by apply fname_MA_ne_close. exact Hc.
  - erewrite bind_getitem by exact Hc. apply setitem_last.
Qed.

Lemma _ma_runs (d : DataFrame) (close : Series) :
  cols d !! "close" = Some close ->
  _ma (length st0) (st0 ++ [d]) = (Ok (length st0), st0 ++ [ma_frame close d]).
Proof.
  intros Hc. unfold _ma. erewrite bind_run by (apply for_ma_runs, Hc).
  reflexivity.
Qed.

Lemma for_vol_ma_runs (ps : list nat) (d : DataFrame) (volume : Series) :
  cols d !! "volume" = Some volume ->
  for_ ps (fun p =>
             volume ← getitem (length st0) "volume";
             setitem (length st0) (fname "VOL_MA" p) (Pd.rolling_mean p volume))
       (st0 ++ [d])
  = (Ok tt,
     st0 ++ [foldl (fun d p => set_col (fname "VOL_MA" p)
                                       (Pd.rolling_mean p volume) d) d ps]).
Proof.
  revert d. induction ps as [|p ps IH]; intros d Hc; [reflexivity|].
  cbn [for_ foldl]. erewrite bind_run.
  - apply IH. rewrite cols_set_col_ne by apply fname_VOL_MA_ne_volume. exact Hc.
  - erewrite bind_getitem by exact Hc. apply setitem_last.
Qed.

Lemma _vol_ma_runs (d : DataFrame) (volume : Series) :
  cols d !! "volume" = Some volume ->
  _vol_ma (length st0) (st0 ++ [d])
  = (Ok (length st0), st0 ++ [vol_ma_frame volume d]).
Proof.
  intros Hc. unfold _vol_ma. erewrite bind_run by (apply for_vol_ma_runs, Hc).
  reflexivity.
Qed.

Lemma _adx_runs (d : DataFrame) (high low close : Series) :
  cols d !! "high" = Some high ->
  cols d !! "low" = Some low ->
  cols d !! "close" = Some close ->
  _adx (length st0) (st0 ++ [d])
  = (Ok (length st0), st0 ++ [adx_frame high low close d]).
Proof. intros Hh Hl Hc. unfold _adx. cbv zeta. repeat step. reflexivity. Qed.

Lemma _bollinger_runs (d : DataFrame) (close : Series) :
  cols d !! "close" = Some close ->
  _bollinger fsqrt (length st0) (st0 ++ [d])
  = (Ok (length st0), st0 ++ [boll_frame fsqrt close d]).
Proof. intros Hc. unfold _bollinger. cbv zeta. repeat step. reflexivity. Qed.

Lemma _vroc_runs (d : DataFrame) (volume : Series) :
  cols d !! "volume" = Some volume ->
  _vroc (length st0) (st0 ++ [d])
  = (Ok (length st0), st0 ++ [vroc_frame volume d]).
Proof. intros Hv. unfold _vroc. cbv zeta. repeat step. reflexivity. Qed.

Lemma _obv_runs (d : DataFrame) (close volume : Series) :
  cols d !! "close" = Some close ->
  cols d !! "volume" = Some volume ->
  _obv (length st0) (st0 ++ [d])
  = (Ok (length st0), st0 ++ [obv_frame close volume d]).
Proof. intros Hc Hv. unfold _obv. cbv zeta. repeat step. reflexivity. Qed.

Lemma _mfi_runs (d : DataFrame) (high low close volume : Series) :
  cols d !! "high" = Some high ->
  cols d !! "low" = Some low ->
  cols d !! "close" = Some close ->
  cols d !! "volume" = Some volume ->
  _mfi (length st0) (st0 ++ [d])
  = (Ok (length st0), st0 ++ [mfi_frame high low close volume d]).
Proof. intros Hh Hl Hc Hv. unfold _mfi. cbv zeta. repeat step. reflexivity. Qed.

End PipelineFacts.

(** *** What the helpers keep *)

Lemma enriches_refl (d : DataFrame) : enriches d d.
Proof.
  split; [reflexivity|]. split; [reflexivity|]. split; [reflexivity | tauto].
Qed.

Lemma enriches_trans (d1 d2 d3 : DataFrame) :
  enriches d1 d2 -> enriches d2 d3 -> enriches d1 d3.
Proof.
  intros (N1 & D1 & C1 & W1) (N2 & D2 & C2 & W2).
  split; [congruence|]. split; [congruence|]. split.
  - intros c Hc. rewrite C2, C1 by exact Hc. reflexivity.
  - intros Hwf. apply W2, W1, Hwf.
Qed.

Lemma wf_df_length (d : DataFrame) (c : string) (s : Series) :
  cols d !! c = Some s -> wf_df d -> length s = nrows d.
Proof. intros Hc [_ Hwf]. exact (Hwf c s Hc). Qed.

Lemma enriches_set_col (d : DataFrame) (c src : string) (s col : Series) :
  c ∈ indicator_columns ->
  cols d !! src = Some col ->
  length s = length col ->
  enriches d (set_col c s d).
Proof.
  intros Hc Hsrc Hlen.
  split; [reflexivity|]. split; [reflexivity|]. split.
  - intros c' Hc'. apply cols_set_col_ne. intros ->. contradiction.
  - intros Hwf. split.
    + intros ds Hd. destruct Hwf as [Hdate _]. exact (Hdate ds Hd).
    + intros c' s' Hs. rewrite cols_set_col in Hs. case_decide.
      * injection Hs as <-. rewrite Hlen.
        exact (wf_df_length d src col Hsrc Hwf).
      * destruct Hwf as [_ Hcols]. exact (Hcols c' s' Hs).
Qed.

Lemma enriches_kept (d d' : DataFrame) (c : string) :
  enriches d d' -> c ∉ indicator_columns -> cols d' !! c = cols d !! c.
Proof. intros (_ & _ & H & _) Hc. exact (H c Hc). Qed.

Ltac not_indicator :=
  let H := fresh in
  intros H; apply list_elem_of_In in H; vm_compute in H; intuition discriminate.

Lemma close_not_indicator : "close"%string ∉ indicator_columns.
Proof. not_indicator. Qed.
Lemma high_not_indicator : "high"%string ∉ indicator_columns.
Proof. not_indicator. Qed.
Lemma low_not_indicator : "low"%string ∉ indicator_columns.
Proof. not_indicator. Qed.
Lemma volume_not_indicator : "volume"%string ∉ indicator_columns.
Proof. not_indicator. Qed.
Lemma open_not_indicator : "open"%string ∉ indicator_columns.
Proof. not_indicator. Qed.

Ltac is_indicator :=
  apply list_elem_of_In; vm_compute;
  repeat first [left; reflexivity | right].

Lemma MA_indicator (p : nat) :
  p ∈ ma_periods INDICATOR_PARAMS -> fname "MA" p ∈ indicator_columns.
Proof.
  intros H. unfold indicator_columns. apply elem_of_app. left.
  apply list_elem_of_fmap. exists p. split; [reflexivity | exact H].
Qed.

Lemma VOL_MA_indicator (p : nat) :
  p ∈ vol_ma_periods INDICATOR_PARAMS -> fname "VOL_MA" p ∈ indicator_columns.
Proof.
  intros H. unfold indicator_columns.
  apply elem_of_app. right. apply elem_of_app. right. apply elem_of_app. left.
  apply list_elem_of_fmap. exists p. split; [reflexivity | exact H].
Qed.

Lemma enriches_foldl (name src : string) (col : nat -> Series)
    (colsrc : Series) (ps : list nat) :
  (forall p, p ∈ ps -> fname name p ∈ indicator_columns) ->
  src ∉ indicator_columns ->
  (forall p, length (col p) = length colsrc) ->
  forall d, cols d !! src = Some colsrc ->
  enriches d (foldl (fun d p => set_col (fname name p) (col p) d) d ps).
Proof.
  intros Hin Hsrc Hlen. induction ps as [|p ps IH]; intros d Hd.
  - apply enriches_refl.
  - cbn [foldl].
    assert (Hp : fname name p ∈ indicator_columns) by (apply Hin; left).
    eapply enriches_trans.
    + exact (enriches_set_col d _ src _ colsrc Hp Hd (Hlen p)).
    + apply IH.
      * intros q Hq. apply Hin. right. exact Hq.
      * rewrite cols_set_col_ne; [exact Hd|]. intros E. apply Hsrc.
        rewrite <- E. exact Hp.
Qed.

Lemma enriches_set_col_wf (d : DataFrame) (c : string) (s : Series) :
  c ∈ indicator_columns ->
  (wf_df d -> length s = nrows d) ->
  enriches d (set_col c s d).
Proof.
  intros Hc Hlen.
  split; [reflexivity|]. split; [reflexivity|]. split.
  - intros c' Hc'. apply cols_set_col_ne. intros ->. contradiction.
  - intros Hwf. split.
    + intros ds Hd. destruct Hwf as [Hdate _]. exact (Hdate ds Hd).
    + intros c' s' Hs. rewrite cols_set_col in Hs. case_decide.
      * injection Hs as <-. apply Hlen, Hwf.
      * destruct Hwf as [_ Hcols]. exact (Hcols c' s' Hs).
Qed.

(** The lengths of the columns read, in a well-formed frame built on the
    frame they were read from. *)
Ltac read_lengths Hwf :=
  repeat match goal with
  | H : cols ?d !! ?c = Some ?s, Hw : wf_df ?d' |- _ =>
      lazymatch goal with
      | _ : length s = nrows d' |- _ => fail
      | _ =>
          let L := fresh "L" in
          assert (L : length s = nrows d')
            by (apply (wf_df_length d' c s); [col_lookup | exact Hw])
      end
  end.

Ltac frame_enriches :=
  repeat first
    [ apply enriches_refl
    | eapply enriches_trans;
      [| apply enriches_set_col_wf;
         [ is_indicator
         | let Hwf := fresh "Hwf" in
           intros Hwf; read_lengths Hwf; series_length ] ] ].

Lemma enriches_ma (d : DataFrame) (close : Series) :
  cols d !! "close" = Some close -> enriches d (ma_frame close d).
Proof.
  intros Hc. unfold ma_frame.
  apply (enriches_foldl "MA" "close" _ close);
    [exact MA_indicator | exact close_not_indicator | | exact Hc].
  intros p. apply rolling_length.
Qed.

Lemma enriches_vol_ma (d : DataFrame) (volume : Series) :
  cols d !! "volume" = Some volume -> enriches d (vol_ma_frame volume d).
Proof.
  intros Hc. unfold vol_ma_frame.
  apply (enriches_foldl "VOL_MA" "volume" _ volume);
    [exact VOL_MA_indicator | exact volume_not_indicator | | exact Hc].
  intros p. apply rolling_length.
Qed.

Lemma enriches_roc (d : DataFrame) (close : Series) :
  cols d !! "close" = Some close -> enriches d (roc_frame close d).
Proof. intros Hc. unfold roc_frame. frame_enriches. Qed.

Lemma enriches_mom (d : DataFrame) (close : Series) :
  cols d !! "close" = Some close -> enriches d (mom_frame close d).
Proof. intros Hc. unfold mom_frame. frame_enriches. Qed.

Lemma enriches_rsi (d : DataFrame) (close : Series) :
  cols d !! "close" = Some close -> enriches d (rsi_frame close d).
Proof.
  intros Hc. unfold rsi_frame, rsi_of. cbv zeta. frame_enriches.
Qed.

Lemma enriches_macd (d : DataFrame) (close : Series) :
  cols d !! "close" = Some close -> enriches d (macd_frame close d).
Proof.
  intros Hc. unfold macd_frame, macd_signal_line, macd_line. frame_enriches.
Qed.

Lemma enriches_adx (d : DataFrame) (high low close : Series) :
  cols d !! "high" = Some high ->
  cols d !! "low" = Some low ->
  cols d !! "close" = Some close ->
  enriches d (adx_frame high low close d).
Proof.
  intros Hh Hl Hc.
  unfold adx_frame, adx_of, dx_of, di_pos_of, di_neg_of, adx_atr, true_range,
    dm_minus_of, dm_plus_of, dm_plus_raw, dm_minus_raw.
  frame_enriches.
Qed.

Lemma enriches_boll (fsqrt : Q -> Q) (d : DataFrame) (close : Series) :
  cols d !! "close" = Some close -> enriches d (boll_frame fsqrt close d).
Proof.
  intros Hc.
  unfold boll_frame, boll_upper_of, boll_lower_of, boll_band_of, boll_mid_of,
    rolling_std.
  frame_enriches.
Qed.

Lemma enriches_vroc (d : DataFrame) (volume : Series) :
  cols d !! "volume" = Some volume -> enriches d (vroc_frame volume d).
Proof. intros Hc. unfold vroc_frame. frame_enriches. Qed.

Lemma enriches_obv (d : DataFrame) (close volume : Series) :
  cols d !! "close" = Some close ->
  cols d !! "volume" = Some volume ->
  enriches d (obv_frame close volume d).
Proof. intros Hc Hv. unfold obv_frame, obv_of. frame_enriches. Qed.

Lemma enriches_mfi (d : DataFrame) (high low close volume : Series) :
  cols d !! "high" = Some high ->
  cols d !! "low" = Some low ->
  cols d !! "close" = Some close ->
  cols d !! "volume" = Some volume ->
  enriches d (mfi_frame high low close volume d).
Proof.
  intros Hh Hl Hc Hv. unfold mfi_frame, mfi_of. cbv zeta. frame_enriches.
Qed.

(** *** The columns the helpers leave alone *)

Lemma set_col_kept (c c' : string) (s : Series) (d : DataFrame) :
  c ∈ indicator_columns -> c' ∉ indicator_columns ->
  cols (set_col c s d) !! c' = cols d !! c'.
Proof. intros Hc Hc'. apply cols_set_col_ne. intros ->. contradiction. Qed.

Lemma foldl_kept (name : string) (col : nat -> Series) (ps : list nat)
    (c' : string) :
  (forall p, p ∈ ps -> fname name p ∈ indicator_columns) ->
  c' ∉ indicator_columns ->
  forall d,
    cols (foldl (fun d p => set_col (fname name p) (col p) d) d ps) !! c'
    = cols d !! c'.
Proof.
  intros Hin Hc'. induction ps as [|p ps IH]; intros d; [reflexivity|].
  simpl. rewrite IH by (intros q Hq; apply Hin; right; exact Hq).
  apply set_col_kept; [apply Hin; left|exact Hc'].
Qed.

Ltac set_cols_kept :=
  repeat (rewrite set_col_kept by first [is_indicator | assumption]);
  reflexivity.

Section Kept.
Variables (c' : string) (Hc' : c' ∉ indicator_columns) (d : DataFrame).

Lemma ma_frame_kept close : cols (ma_frame close d) !! c' = cols d !! c'.
Proof. apply foldl_kept; [exact MA_indicator | exact Hc']. Qed.

Lemma roc_frame_kept close : cols (roc_frame close d) !! c' = cols d !! c'.
Proof. unfold roc_frame. set_cols_kept. Qed.

Lemma mom_frame_kept close : cols (mom_frame close d) !! c' = cols d !! c'.
Proof. unfold mom_frame. set_cols_kept. Qed.

Lemma rsi_frame_kept close : cols (rsi_frame close d) !! c' = cols d !! c'.
Proof. unfold rsi_frame. set_cols_kept. Qed.

Lemma macd_frame_kept close : cols (macd_frame close d) !! c' = cols d !! c'.
Proof. unfold macd_frame. set_cols_kept. Qed.

Lemma adx_frame_kept high low close :
  cols (adx_frame high low close d) !! c' = cols d !! c'.
Proof. unfold adx_frame. set_cols_kept. Qed.

Lemma boll_frame_kept fsqrt close :
  cols (boll_frame fsqrt close d) !! c' = cols d !! c'.
Proof. unfold boll_frame. set_cols_kept. Qed.

Lemma vol_ma_frame_kept volume :
  cols (vol_ma_frame volume d) !! c' = cols d !! c'.
Proof. apply foldl_kept; [exact VOL_MA_indicator | exact Hc']. Qed.

Lemma vroc_frame_kept volume : cols (vroc_frame volume d) !! c' = cols d !! c'.
Proof. unfold vroc_frame. set_cols_kept. Qed.

Lemma obv_frame_kept close volume :
  cols (obv_frame close volume d) !! c' = cols d !! c'.
Proof. unfold obv_frame. set_cols_kept. Qed.

Lemma mfi_frame_kept high low close volume :
  cols (mfi_frame high low close volume d) !! c' = cols d !! c'.
Proof. unfold mfi_frame. set_cols_kept. Qed.

End Kept.

(** A column that is no indicator, looked up through the frames of the
    helpers. *)
Ltac through_frames :=
  repeat first
    [ rewrite ma_frame_kept by assumption
    | rewrite roc_frame_kept by assumption
    | rewrite mom_frame_kept by assumption
    | rewrite rsi_frame_kept by assumption
    | rewrite macd_frame_kept by assumption
    | rewrite adx_frame_kept by assumption
    | rewrite boll_frame_kept by assumption
    | rewrite vol_ma_frame_kept by assumption
    | rewrite vroc_frame_kept by assumption
    | rewrite obv_frame_kept by assumption
    | rewrite mfi_frame_kept by assumption ].

Ltac raw_lookup :=
  pose proof close_not_indicator; pose proof high_not_indicator;
  pose proof low_not_indicator; pose proof volume_not_indicator;
  through_frames; eassumption.

Section ComputeAll.
Variable fsqrt : Q -> Q.

Lemma df_copy_runs (st : store) (r : ref) (df : DataFrame) :
  st !! r = Some df -> df_copy r st = (Ok (length st), st ++ [df]).
Proof. intros H. unfold df_copy. rewrite H. reflexivity. Qed.

Lemma compute_all_runs (st : store) (r : ref) (df : DataFrame)
    (high low close volume : Series) :
  st !! r = Some df ->
  cols df !! "close" = Some close ->
  cols df !! "high" = Some high ->
  cols df !! "low" = Some low ->
  cols df !! "volume" = Some volume ->
  compute_all fsqrt r st
  = (Ok (length st), st ++ [enrich fsqrt high low close volume df]).
Proof.
  intros Hr Hc Hh Hl Hv. unfold compute_all.
  erewrite bind_run by (apply df_copy_runs, Hr).
  erewrite bind_run by (apply _ma_runs; raw_lookup).
  erewrite bind_run by (apply _roc_runs; raw_lookup).
  erewrite bind_run by (apply _momentum_runs; raw_lookup).
  erewrite bind_run by (apply _rsi_runs; raw_lookup).
  erewrite bind_run by (apply _macd_runs; raw_lookup).
  erewrite bind_run by (apply _adx_runs; raw_lookup).
  erewrite bind_run by (apply _bollinger_runs; raw_lookup).
  erewrite bind_run by (apply _vol_ma_runs; raw_lookup).
  erewrite bind_run by (apply _vroc_runs; raw_lookup).
  erewrite bind_run by (apply _obv_runs; raw_lookup).
  erewrite bind_run by (apply _mfi_runs; raw_lookup).
  reflexivity.
Qed.

End ComputeAll.

(** *** The enriched frame *)

Lemma indicator_columns_eq :
  indicator_columns =
  ["MA5"; "MA10"; "MA20"; "MA60"; "ROC"; "MOM"; "RSI"; "MACD"; "MACD_signal";
   "MACD_hist"; "ADX"; "DI_pos"; "DI_neg"; "BOLL_mid"; "BOLL_upper";
   "BOLL_lower"; "BOLL_width"; "BOLL_%B"; "VOL_MA5"; "VOL_MA10"; "VOL_MA20";
   "VROC"; "OBV"; "MFI"]%string.
Proof. vm_compute. reflexivity. Qed.

Lemma ma_frame_eq (close : Series) (d : DataFrame) :
  ma_frame close d =
  set_col "MA60" (Pd.rolling_mean 60 close)
    (set_col "MA20" (Pd.rolling_mean 20 close)
      (set_col "MA10" (Pd.rolling_mean 10 close)
        (set_col "MA5" (Pd.rolling_mean 5 close) d))).
Proof. reflexivity. Qed.

Lemma vol_ma_frame_eq (volume : Series) (d : DataFrame) :
  vol_ma_frame volume d =
  set_col "VOL_MA20" (Pd.rolling_mean 20 volume)
    (set_col "VOL_MA10" (Pd.rolling_mean 10 volume)
      (set_col "VOL_MA5" (Pd.rolling_mean 5 volume) d)).
Proof. reflexivity. Qed.

(** A column of the enriched frame, found under the later writes. *)
Ltac enrich_lookup :=
  unfold enrich, mfi_frame, obv_frame, vroc_frame, boll_frame,
    adx_frame, macd_frame, rsi_frame, mom_frame, roc_frame;
  rewrite ?ma_frame_eq, ?vol_ma_frame_eq;
  repeat first
    [ rewrite cols_set_col_eq
    | rewrite cols_set_col_ne by discriminate ];
  first [reflexivity | eassumption].

Lemma enriches_enrich (fsqrt : Q -> Q) (d : DataFrame)
    (high low close volume : Series) :
  cols d !! "close" = Some close ->
  cols d !! "high" = Some high ->
  cols d !! "low" = Some low ->
  cols d !! "volume" = Some volume ->
  enriches d (enrich fsqrt high low close volume d).
Proof.
  intros Hc Hh Hl Hv. unfold enrich.
  eapply enriches_trans; [| apply enriches_mfi; raw_lookup].
  eapply enriches_trans; [| apply enriches_obv; raw_lookup].
  eapply enriches_trans; [| apply enriches_vroc; raw_lookup].
  eapply enriches_trans; [| apply enriches_vol_ma; raw_lookup].
  eapply enriches_trans; [| apply enriches_boll; raw_lookup].
  eapply enriches_trans; [| apply enriches_adx; raw_lookup].
  eapply enriches_trans; [| apply enriches_macd; raw_lookup].
  eapply enriches_trans; [| apply enriches_rsi; raw_lookup].
  eapply enriches_trans; [| apply enriches_mom; raw_lookup].
  eapply enriches_trans; [| apply enriches_roc; raw_lookup].
  apply enriches_ma, Hc.
Qed.

Lemma enrich_has_indicators (fsqrt : Q -> Q) (d : DataFrame)
    (high low close volume : Series) (c : string) :
  c ∈ indicator_columns ->
  is_Some (cols (enrich fsqrt high low close volume d) !! c).
Proof.
  rewrite indicator_columns_eq. intros Hc.
  apply list_elem_of_In in Hc. simpl in Hc.
  repeat (destruct Hc as [<-|Hc]; [eexists; enrich_lookup|]).
  contradiction.
Qed.

Lemma first_missing_None (df : DataFrame) :
  first_missing df = None ->
  exists close high low volume,
    cols df !! "close" = Some close /\ cols df !! "high" = Some high /\
    cols df !! "low" = Some low /\ cols df !! "volume" = Some volume.
Proof.
  unfold first_missing. cbn [List.find].
  destruct (cols df !! "close") as [close|]; [|discriminate].
  destruct (cols df !! "high") as [high|]; [|discriminate].
  destruct (cols df !! "low") as [low|]; [|discriminate].
  destruct (cols df !! "volume") as [volume|]; [|discriminate].
  intros _. exists close, high, low, volume. repeat split; reflexivity.
Qed.

Lemma first_missing_Some (df : DataFrame) (c : string) :
  first_missing df = Some c ->
  (c = "close" /\ cols df !! "close" = None) \/
  (c = "high" /\ is_Some (cols df !! "close") /\ cols df !! "high" = None) \/
  (c = "low" /\ is_Some (cols df !! "close") /\ is_Some (cols df !! "high")
   /\ cols df !! "low" = None) \/
  (c = "volume" /\ is_Some (cols df !! "close") /\ is_Some (cols df !! "high")
   /\ is_Some (cols df !! "low") /\ cols df !! "volume" = None).
Proof.
  unfold first_missing. cbn [List.find].
  destruct (cols df !! "close") as [close|];
    [|intros [= <-]; left; split; reflexivity].
  destruct (cols df !! "high") as [high|];
    [|intros [= <-]; right; left; repeat split; eauto].
  destruct (cols df !! "low") as [low|];
    [|intros [= <-]; right; right; left; repeat split; eauto].
  destruct (cols df !! "volume") as [volume|];
    [|intros [= <-]; right; right; right; repeat split; eauto].
  discriminate.
Qed.

Section ComputeAllFails.
Variable fsqrt : Q -> Q.
Variables (st0 : store).

Lemma _ma_missing (d : DataFrame) :
  cols d !! "close" = None ->
  _ma (length st0) (st0 ++ [d]) = (Raise (KeyError "close"), st0 ++ [d]).
Proof.
  intros H. unfold _ma. cbn [for_ ma_periods INDICATOR_PARAMS].
  apply bind_raise, bind_raise, bind_getitem_missing, H.
Qed.

Lemma _adx_missing_high (d : DataFrame) :
  cols d !! "high" = None ->
  _adx (length st0) (st0 ++ [d]) = (Raise (KeyError "high"), st0 ++ [d]).
Proof. intros H. unfold _adx. cbv zeta. apply bind_getitem_missing, H. Qed.

Lemma _adx_missing_low (d : DataFrame) (high : Series) :
  cols d !! "high" = Some high ->
  cols d !! "low" = None ->
  _adx (length st0) (st0 ++ [d]) = (Raise (KeyError "low"), st0 ++ [d]).
Proof.
  intros Hh H. unfold _adx. cbv zeta. erewrite bind_getitem by exact Hh.
  apply bind_getitem_missing, H.
Qed.

Lemma _vol_ma_missing (d : DataFrame) :
  cols d !! "volume" = None ->
  _vol_ma (length st0) (st0 ++ [d]) = (Raise (KeyError "volume"), st0 ++ [d]).
Proof.
  intros H. unfold _vol_ma. cbn [for_ vol_ma_periods INDICATOR_PARAMS].
  apply bind_raise, bind_raise, bind_getitem_missing, H.
Qed.

End ComputeAllFails.

Lemma compute_all_fails (fsqrt : Q -> Q) (st : store) (r : ref)
    (df : DataFrame) (c : string) :
  st !! r = Some df ->
  first_missing df = Some c ->
  exists d', compute_all fsqrt r st = (Raise (KeyError c), st ++ [d'])
             /\ nrows d' = nrows df /\ date d' = date df.
Proof.
  intros Hr Hm. apply first_missing_Some in Hm.
  destruct Hm as [[-> Hc]|[(-> & [close Hc] & Hh)
                 |[(-> & [close Hc] & [high Hh] & Hl)
                  |(-> & [close Hc] & [high Hh] & [low Hl] & Hv)]]].
  - exists df. split; [|split; reflexivity]. unfold compute_all.
    erewrite bind_run by (apply df_copy_runs, Hr).
    apply bind_raise, _ma_missing, Hc.
  - eexists. split.
    + unfold compute_all.
      erewrite bind_run by (apply df_copy_runs, Hr).
      erewrite bind_run by (apply _ma_runs; raw_lookup).
      erewrite bind_run by (apply _roc_runs; raw_lookup).
      erewrite bind_run by (apply _momentum_runs; raw_lookup).
      erewrite bind_run by (apply _rsi_runs; raw_lookup).
      erewrite bind_run by (apply _macd_runs; raw_lookup).
      apply bind_raise, _adx_missing_high. raw_lookup.
    + split; reflexivity.
  - eexists. split.
    + unfold compute_all.
      erewrite bind_run by (apply df_copy_runs, Hr).
      erewrite bind_run by (apply _ma_runs; raw_lookup).
      erewrite bind_run by (apply _roc_runs; raw_lookup).
      erewrite bind_run by (apply _momentum_runs; raw_lookup).
      erewrite bind_run by (apply _rsi_runs; raw_lookup).
      erewrite bind_run by (apply _macd_runs; raw_lookup).
      apply bind_raise. eapply _adx_missing_low; raw_lookup.
    + split; reflexivity.
  - eexists. split.
    + unfold compute_all.
      erewrite bind_run by (apply df_copy_runs, Hr).
      erewrite bind_run by (apply _ma_runs; raw_lookup).
      erewrite bind_run by (apply _roc_runs; raw_lookup).
      erewrite bind_run by (apply _momentum_runs; raw_lookup).
      erewrite bind_run by (apply _rsi_runs; raw_lookup).
      erewrite bind_run by (apply _macd_runs; raw_lookup).
      erewrite bind_run by (apply _adx_runs; raw_lookup).
      erewrite bind_run by (apply _bollinger_runs; raw_lookup).
      apply bind_raise, _vol_ma_missing. raw_lookup.
    + split; reflexivity.
Qed.

Lemma cols_set_col_insert (c : string) (s : Series) (d : DataFrame) :
  cols (set_col c s d) = <[c := s]> (cols d).
Proof. reflexivity. Qed.

Lemma enrich_cols_ext (fsqrt : Q -> Q) (high low close volume : Series)
    (d d' : DataFrame) :
  cols d = cols d' ->
  cols (enrich fsqrt high low close volume d)
  = cols (enrich fsqrt high low close volume d').
Proof.
  intros H.
  unfold enrich, mfi_frame, obv_frame, vroc_frame, boll_frame,
    adx_frame, macd_frame, rsi_frame, mom_frame, roc_frame.
  rewrite !ma_frame_eq, !vol_ma_frame_eq, !cols_set_col_insert, H.
  reflexivity.
Qed.

(** *** [compute_all] as a whole *)

(** X1.  On a frame that has the columns [close], [high], [low] and
    [volume], [compute_all] returns a new frame and leaves every frame that
    existed, the input among them, as it was.  The new frame has as many
    rows and the same dates as the input, every column that is no indicator
    unchanged, each of the 24 indicator columns, and it is well-formed if
    the input is. *)
Theorem compute_all_returns_enriched_copy (fsqrt : Q -> Q) (st : store)
    (r : ref) (df : DataFrame) :
  st !! r = Some df ->
  first_missing df = None ->
  exists d',
    compute_all fsqrt r st = (Ok (length st), st ++ [d']) /\
    (st ++ [d']) !! r = Some df /\
    enriches df d' /\
    (forall c, c ∈ indicator_columns -> is_Some (cols d' !! c)).
Proof.
  intros Hr Hm.
  destruct (first_missing_None df Hm)
    as (close & high & low & volume & Hc & Hh & Hl & Hv).
  exists (enrich fsqrt high low close volume df).
  split; [apply compute_all_runs; assumption|].
  split; [rewrite lookup_app_l by (eapply lookup_lt_Some, Hr); exact Hr|].
  split; [apply enriches_enrich; assumption|].
  intros c Hin. apply enrich_has_indicators, Hin.
Qed.

Lemma compute_all_returns_enriched_copy_witness :
  exists d',
    compute_all no_sqrt 0%nat [frame_bad_dates]
    = (Ok 1%nat, [frame_bad_dates] ++ [d']) /\
    ([frame_bad_dates] ++ [d']) !! 0%nat = Some frame_bad_dates /\
    enriches frame_bad_dates d' /\
    (forall c, c ∈ indicator_columns -> is_Some (cols d' !! c)).
Proof.
  apply (compute_all_returns_enriched_copy no_sqrt [frame_bad_dates] 0%nat
           frame_bad_dates); reflexivity.
Defined.

(** X2.  [compute_all] raises exactly when one of [close], [high], [low],
    [volume] is missing, and then it is [KeyError] for the first of them, in
    this order, that is missing.  The frames that existed stay as they
    were: only the private copy, which has the rows and dates of the input,
    has been written to. *)
Theorem compute_all_raises_on_first_missing_column (fsqrt : Q -> Q)
    (st : store) (r : ref) (df : DataFrame) :
  st !! r = Some df ->
  (forall c, first_missing df = Some c ->
     exists d',
       compute_all fsqrt r st = (Raise (KeyError c), st ++ [d']) /\
       nrows d' = nrows df /\ date d' = date df) /\
  (forall e st', compute_all fsqrt r st = (Raise e, st') ->
     exists c, first_missing df = Some c /\ e = KeyError c).
Proof.
  intros Hr. split.
  - intros c Hm. apply compute_all_fails; assumption.
  - intros e st' H. destruct (first_missing df) as [c|] eqn:Hm.
    + destruct (compute_all_fails fsqrt st r df c Hr Hm) as (d' & E & _).
      rewrite E in H. injection H as <- _. exists c. split; reflexivity.
    + destruct (first_missing_None df Hm)
        as (close & high & low & volume & Hc & Hh & Hl & Hv).
      rewrite (compute_all_runs fsqrt st r df high low close volume) in H
        by assumption.
      discriminate.
Qed.

Lemma compute_all_raises_on_first_missing_column_witness :
  (forall c, first_missing frame_no_volume = Some c ->
     exists d',
       compute_all no_sqrt 0%nat [frame_no_volume]
       = (Raise (KeyError c), [frame_no_volume] ++ [d']) /\
       nrows d' = nrows frame_no_volume /\ date d' = date frame_no_volume) /\
  (forall e st', compute_all no_sqrt 0%nat [frame_no_volume] = (Raise e, st') ->
     exists c, first_missing frame_no_volume = Some c /\ e = KeyError c).
Proof.
  apply (compute_all_raises_on_first_missing_column no_sqrt [frame_no_volume]
           0%nat frame_no_volume); reflexivity.
Defined.

(** X3.  [compute_all] never looks at the dates.  Run on the same columns
    under any other dates, or none, it raises the same exception or returns
    a frame with the same columns, carrying the dates it was given. *)
Theorem compute_all_ignores_dates (fsqrt : Q -> Q) (st st' : store)
    (r r' : ref) (df : DataFrame) (ds : option (list Timestamp)) :
  st !! r = Some df ->
  st' !! r' = Some (with_dates ds df) ->
  match compute_all fsqrt r st, compute_all fsqrt r' st' with
  | (Ok a, s), (Ok a', s') =>
      exists d d', s !! a = Some d /\ s' !! a' = Some d' /\
                   cols d' = cols d /\ date d = date df /\ date d' = ds
  | (Raise e, _), (Raise e', _) => e = e'
  | _, _ => False
  end.
Proof.
  intros Hr Hr'. destruct (first_missing df) as [c|] eqn:Hm.
  - destruct (compute_all_fails fsqrt st r df c Hr Hm) as (d1 & -> & _).
    destruct (compute_all_fails fsqrt st' r' (with_dates ds df) c Hr' Hm)
      as (d2 & -> & _).
    reflexivity.
  - destruct (first_missing_None df Hm)
      as (close & high & low & volume & Hc & Hh & Hl & Hv).
    rewrite (compute_all_runs fsqrt st r df high low close volume)
      by assumption.
    rewrite (compute_all_runs fsqrt st' r' (with_dates ds df)
               high low close volume) by assumption.
    eexists _, _. split; [apply store_last|]. split; [apply store_last|].
    split; [apply enrich_cols_ext; reflexivity|].
    split; reflexivity.
Qed.

Lemma compute_all_ignores_dates_witness :
  match compute_all no_sqrt 0%nat [frame_bad_dates],
        compute_all no_sqrt 0%nat [with_dates None frame_bad_dates] with
  | (Ok a, s), (Ok a', s') =>
      exists d d', s !! a = Some d /\ s' !! a' = Some d' /\
                   cols d' = cols d /\ date d = date frame_bad_dates /\
                   date d' = None
  | (Raise e, _), (Raise e', _) => e = e'
  | _, _ => False
  end.
Proof.
  apply (compute_all_ignores_dates no_sqrt [frame_bad_dates]
           [with_dates None frame_bad_dates] 0%nat 0%nat frame_bad_dates None);
    reflexivity.
Defined.

(** ** Columns of the enriched frame *)

Lemma enriched_column_eq (fsqrt : Q -> Q) (df : DataFrame)
    (high low close volume : Series) (c : string) :
  cols df !! "close" = Some close ->
  cols df !! "high" = Some high ->
  cols df !! "low" = Some low ->
  cols df !! "volume" = Some volume ->
  enriched_column fsqrt df c
  = cols (enrich fsqrt high low close volume df) !! c.
Proof.
  intros Hc Hh Hl Hv. unfold enriched_column.
  rewrite (compute_all_runs fsqrt [df] 0%nat df high low close volume)
    by (first [reflexivity | assumption]).
  reflexivity.
Qed.

Lemma enriched_MA (fsqrt : Q -> Q) (df : DataFrame)
    (high low close volume : Series) (p : nat) :
  cols df !! "close" = Some close ->
  cols df !! "high" = Some high ->
  cols df !! "low" = Some low ->
  cols df !! "volume" = Some volume ->
  p ∈ ma_periods INDICATOR_PARAMS ->
  enriched_column fsqrt df (fname "MA" p) = Some (Pd.rolling_mean p close).
Proof.
  intros Hc Hh Hl Hv Hp.
  rewrite (enriched_column_eq fsqrt df high low close volume) by assumption.
  apply list_elem_of_In in Hp. simpl in Hp.
  repeat (destruct Hp as [<-|Hp]; [enrich_lookup|]). contradiction.
Qed.

Lemma enriched_VOL_MA (fsqrt : Q -> Q) (df : DataFrame)
    (high low close volume : Series) (p : nat) :
  cols df !! "close" = Some close ->
  cols df !! "high" = Some high ->
  cols df !! "low" = Some low ->
  cols df !! "volume" = Some volume ->
  p ∈ vol_ma_periods INDICATOR_PARAMS ->
  enriched_column fsqrt df (fname "VOL_MA" p)
  = Some (Pd.rolling_mean p volume).
Proof.
  intros Hc Hh Hl Hv Hp.
  rewrite (enriched_column_eq fsqrt df high low close volume) by assumption.
  apply list_elem_of_In in Hp. simpl in Hp.
  repeat (destruct Hp as [<-|Hp]; [enrich_lookup|]). contradiction.
Qed.

(** *** Rolling windows *)

Lemma rolling_lookup (p : nat) (agg : list fl -> fl) (xs : Series) (t : nat) :
  (t < length xs)%nat ->
  Pd.rolling p agg xs !! t
  = Some (match Pd.window p t (Pd.prep_values xs) with
          | Some w => if forallb Fl.notna w then agg w else NaN
          | None => NaN
          end).
Proof.
  intros Ht. unfold Pd.rolling. cbv zeta.
  rewrite list_lookup_fmap, lookup_seq_lt by exact Ht. reflexivity.
Qed.

Lemma rolling_warm_up (p : nat) (agg : list fl -> fl) (xs : Series) (t : nat) :
  (t < length xs)%nat -> (S t < p)%nat -> Pd.rolling p agg xs !! t = Some NaN.
Proof.
  intros Ht Hp. rewrite rolling_lookup by exact Ht. unfold Pd.window.
  destruct (Nat.leb_spec p (S t)); [lia|reflexivity].
Qed.

Lemma window_full (p t : nat) (xs : Series) :
  (p <= S t)%nat ->
  Pd.window p t (Pd.prep_values xs)
  = Some (Pd.prep_values (rows_upto p t xs)).
Proof.
  intros Hp. unfold Pd.window, rows_upto, Pd.prep_values.
  destruct (Nat.leb_spec p (S t)); [|lia].
  rewrite skipn_map, firstn_map. reflexivity.
Qed.

Lemma prep_values_Fin (qs : list Q) :
  Pd.prep_values (map Fin qs) = map Fin qs.
Proof.
  unfold Pd.prep_values. rewrite map_map. reflexivity.
Qed.

Lemma forallb_notna_Fin (qs : list Q) : forallb Fl.notna (map Fin qs) = true.
Proof. induction qs as [|q qs IH]; [reflexivity|exact IH]. Qed.

Lemma fold_add_Fin (qs : list Q) (a : Q) :
  fold_left Fl.add (map Fin qs) (Fin a) = Fin (fold_left Qplus qs a).
Proof.
  revert a. induction qs as [|q qs IH]; intros a; [reflexivity|].
  simpl. apply IH.
Qed.

Lemma fsum_Fin (qs : list Q) : Pd.fsum (map Fin qs) = Fin (Qsum qs).
Proof. apply fold_add_Fin. Qed.

Lemma Qnat_nonzero (n : nat) : (0 < n)%nat -> Qeq_bool (Qnat n) 0 = false.
Proof.
  intros Hn. apply Qeq_bool_false. intros H.
  pose proof (Qnat_pos n Hn) as Hpos. lra.
Qed.

Lemma fmean_Fin (qs : list Q) :
  (0 < length qs)%nat ->
  Pd.fmean (map Fin qs) = Fin (Qsum qs / Qnat (length qs)).
Proof.
  intros Hn. unfold Pd.fmean. rewrite fsum_Fin, length_map.
  unfold Fl.of_Z, Fl.div. fold (Qnat (length qs)).
  rewrite Qnat_nonzero by exact Hn. reflexivity.
Qed.

Lemma forallb_notna_prep (w : list fl) :
  (exists x, x ∈ w /\ is_fin x = false) ->
  forallb Fl.notna (Pd.prep_values w) = false.
Proof.
  intros (x & Hx & Hf). apply not_true_is_false. intros H.
  rewrite forallb_forall in H.
  assert (Hin : In (Pd.prep_value x) (Pd.prep_values w)).
  { apply in_map, list_elem_of_In, Hx. }
  specialize (H _ Hin). destruct x; simpl in *; discriminate.
Qed.

Lemma rows_upto_length (p t : nat) (xs : Series) :
  (p <= S t)%nat -> (t < length xs)%nat -> length (rows_upto p t xs) = p.
Proof.
  intros Hp Ht. unfold rows_upto. rewrite length_take, length_drop. lia.
Qed.

(** The mean over a window of [p] rows: missing before row [p - 1] and on a
    window with a missing or infinite cell, the mean of the window
    otherwise. *)
Lemma rolling_mean_spec (p : nat) (xs : Series) (t : nat) :
  (0 < p)%nat -> (t < length xs)%nat ->
  ((S t < p)%nat -> Pd.rolling_mean p xs !! t = Some NaN) /\
  (forall qs, (p <= S t)%nat -> rows_upto p t xs = map Fin qs ->
     Pd.rolling_mean p xs !! t = Some (Fin (Qsum qs / Qnat p))) /\
  ((p <= S t)%nat ->
   (exists x, x ∈ rows_upto p t xs /\ is_fin x = false) ->
   Pd.rolling_mean p xs !! t = Some NaN).
Proof.
  intros Hp0 Ht. unfold Pd.rolling_mean. split; [|split].
  - apply rolling_warm_up, Ht.
  - intros qs Hp Hw. rewrite rolling_lookup, window_full by assumption.
    assert (Hlen : length qs = p).
    { rewrite <- (length_map Fin qs), <- Hw. apply rows_upto_length; assumption. }
    rewrite Hw, prep_values_Fin, forallb_notna_Fin, fmean_Fin by lia.
    rewrite Hlen. reflexivity.
  - intros Hp Hx. rewrite rolling_lookup, window_full by assumption.
    rewrite forallb_notna_prep by exact Hx. reflexivity.
Qed.

Lemma ma_periods_pos (p : nat) : p ∈ ma_periods INDICATOR_PARAMS -> (0 < p)%nat.
Proof.
  intros Hp. apply list_elem_of_In in Hp. simpl in Hp.
  intuition (subst; lia).
Qed.

Lemma vol_ma_periods_pos (p : nat) :
  p ∈ vol_ma_periods INDICATOR_PARAMS -> (0 < p)%nat.
Proof.
  intros Hp. apply list_elem_of_In in Hp. simpl in Hp.
  intuition (subst; lia).
Qed.

(** X4.  The moving averages [MA5], [MA10], [MA20], [MA60] of the closes
    and [VOL_MA5], [VOL_MA10], [VOL_MA20] of the volumes, in the frame
    [compute_all] returns: the column is as long as its source; row [t] is
    missing while fewer than [p] rows end at [t]; it is the arithmetic mean
    of the last [p] cells when these are all numbers; and it is missing as
    soon as one of them is missing or infinite. *)
Theorem moving_average_columns (fsqrt : Q -> Q) (df : DataFrame)
    (high low close volume : Series) (name : string) (src : Series)
    (p t : nat) :
  cols df !! "close" = Some close ->
  cols df !! "high" = Some high ->
  cols df !! "low" = Some low ->
  cols df !! "volume" = Some volume ->
  (name = "MA"%string /\ src = close /\ p ∈ ma_periods INDICATOR_PARAMS) \/
  (name = "VOL_MA"%string /\ src = volume
   /\ p ∈ vol_ma_periods INDICATOR_PARAMS) ->
  (t < length src)%nat ->
  exists ma,
    enriched_column fsqrt df (fname name p) = Some ma /\
    length ma = length src /\
    ((S t < p)%nat -> ma !! t = Some NaN) /\
    (forall qs, (p <= S t)%nat -> rows_upto p t src = map Fin qs ->
       ma !! t = Some (Fin (Qsum qs / Qnat p))) /\
    ((p <= S t)%nat ->
     (exists x, x ∈ rows_upto p t src /\ is_fin x = false) ->
     ma !! t = Some NaN).
Proof.
  intros Hc Hh Hl Hv Hcase Ht.
  exists (Pd.rolling_mean p src).
  assert (Hp : (0 < p)%nat).
  { destruct Hcase as [(_ & _ & Hp)|(_ & _ & Hp)];
      [apply ma_periods_pos, Hp | apply vol_ma_periods_pos, Hp]. }
  split.
  - destruct Hcase as [(-> & -> & Hin)|(-> & -> & Hin)].
    + apply (enriched_MA fsqrt df high low close volume); assumption.
    + apply (enriched_VOL_MA fsqrt df high low close volume); assumption.
  - split; [apply rolling_length|]. apply rolling_mean_spec; assumption.
Qed.

Ltac enriched_col :=
  match goal with
  | Hc : cols ?df !! "close" = Some ?close,
    Hh : cols ?df !! "high" = Some ?high,
    Hl : cols ?df !! "low" = Some ?low,
    Hv : cols ?df !! "volume" = Some ?volume
    |- enriched_column ?f ?df _ = _ =>
      rewrite (enriched_column_eq f df high low close volume _ Hc Hh Hl Hv);
      enrich_lookup
  end.

(** *** Rates of change *)

Lemma pct_lookup (n : nat) (xs : Series) (t : nat) (x y : fl) :
  (n <= t)%nat -> xs !! t = Some x -> xs !! (t - n)%nat = Some y ->
  Pd.muls (Pd.pct_change n xs) 100 !! t
  = Some (Fl.mul (Fl.sub (Fl.div x y) (Fin 1)) (Fin 100)).
Proof.
  intros Hn Hx Hy. unfold Pd.muls, Pd.pct_change, Pd.subs, Pd.div.
  rewrite !lookup_map, lookup_zip_with, Hx.
  rewrite shift_lookup_ge by (first [exact Hn | eapply lookup_lt_Some, Hx]).
  rewrite Hy. reflexivity.
Qed.

Lemma pct_warm_up (n : nat) (xs : Series) (t : nat) :
  (t < n)%nat -> (t < length xs)%nat ->
  Pd.muls (Pd.pct_change n xs) 100 !! t = Some NaN.
Proof.
  intros Hn Ht. unfold Pd.muls, Pd.pct_change, Pd.subs, Pd.div.
  rewrite !lookup_map, lookup_zip_with.
  destruct (lookup_lt_is_Some_2 xs t Ht) as [x ->].
  rewrite shift_lookup_lt by assumption. destruct x; reflexivity.
Qed.

Lemma pct_cases (a b : Q) :
  (~ b == 0 ->
   exists q, Fl.mul (Fl.sub (Fl.div (Fin a) (Fin b)) (Fin 1)) (Fin 100) = Fin q
             /\ q == (a / b - 1) * 100) /\
  (b == 0 -> 0 < a ->
   Fl.mul (Fl.sub (Fl.div (Fin a) (Fin b)) (Fin 1)) (Fin 100) = PInf) /\
  (b == 0 -> a < 0 ->
   Fl.mul (Fl.sub (Fl.div (Fin a) (Fin b)) (Fin 1)) (Fin 100) = NInf) /\
  (b == 0 -> a == 0 ->
   Fl.mul (Fl.sub (Fl.div (Fin a) (Fin b)) (Fin 1)) (Fin 100) = NaN).
Proof.
  split; [|split; [|split]].
  - intros Hb. rewrite div_Fin by exact Hb. eexists. split; [reflexivity|].
    unfold Qminus. reflexivity.
  - intros Hb Ha. unfold Fl.div. apply Qeq_bool_iff in Hb. rewrite Hb.
    unfold Fl.signed_inf.
    assert (E : (a ?= 0) = Gt) by (apply Qgt_alt; exact Ha).
    rewrite E. reflexivity.
  - intros Hb Ha. unfold Fl.div. apply Qeq_bool_iff in Hb. rewrite Hb.
    unfold Fl.signed_inf.
    assert (E : (a ?= 0) = Lt) by (apply Qlt_alt; exact Ha).
    rewrite E. reflexivity.
  - intros Hb Ha. unfold Fl.div. apply Qeq_bool_iff in Hb. rewrite Hb.
    unfold Fl.signed_inf.
    assert (E : (a ?= 0) = Eq) by (apply Qeq_alt; exact Ha).
    rewrite E. reflexivity.
Qed.

(** X5.  The rates of change [ROC] of the closes and [VROC] of the volumes,
    over 12 rows, in the frame [compute_all] returns.  The first 12 rows
    are missing.  From then on the cell is [(a / b - 1) * 100] for the
    current value [a] and the value [b] 12 rows before; when [b] is zero
    nothing is raised: the cell is plus or minus infinity with the sign of
    [a], and missing when [a] is zero too. *)
Theorem rate_of_change_columns (fsqrt : Q -> Q) (df : DataFrame)
    (high low close volume : Series) (name : string) (src : Series)
    (n t : nat) :
  cols df !! "close" = Some close ->
  cols df !! "high" = Some high ->
  cols df !! "low" = Some low ->
  cols df !! "volume" = Some volume ->
  (name = "ROC"%string /\ src = close /\ n = roc_period INDICATOR_PARAMS) \/
  (name = "VROC"%string /\ src = volume /\ n = vroc_period INDICATOR_PARAMS) ->
  (t < length src)%nat ->
  exists roc,
    enriched_column fsqrt df name = Some roc /\
    n = 12%nat /\
    ((t < n)%nat -> roc !! t = Some NaN) /\
    (forall a b, (n <= t)%nat ->
       src !! t = Some (Fin a) -> src !! (t - n)%nat = Some (Fin b) ->
       (~ b == 0 ->
        exists q, roc !! t = Some (Fin q) /\ q == (a / b - 1) * 100) /\
       (b == 0 -> 0 < a -> roc !! t = Some PInf) /\
       (b == 0 -> a < 0 -> roc !! t = Some NInf) /\
       (b == 0 -> a == 0 -> roc !! t = Some NaN)).
Proof.
  intros Hc Hh Hl Hv Hcase Ht.
  exists (Pd.muls (Pd.pct_change n src) 100).
  split; [|split; [|split]].
  - destruct Hcase as [(-> & -> & ->)|(-> & -> & ->)]; enriched_col.
  - destruct Hcase as [(_ & _ & ->)|(_ & _ & ->)]; reflexivity.
  - intros Hn. apply pct_warm_up; assumption.
  - intros a b Hn Ha Hb. rewrite (pct_lookup n src t _ _ Hn Ha Hb).
    destruct (pct_cases a b) as (H1 & H2 & H3 & H4).
    split; [|split; [|split]].
    + intros Hne. destruct (H1 Hne) as (q & -> & Hq). exists q.
      split; [reflexivity|exact Hq].
    + intros Hz Hpos. rewrite (H2 Hz Hpos). reflexivity.
    + intros Hz Hneg. rewrite (H3 Hz Hneg). reflexivity.
    + intros Hz Hza. rewrite (H4 Hz Hza). reflexivity.
Qed.

(** X6.  The momentum column [MOM] of the frame [compute_all] returns is
    missing on the first 10 rows and is the close minus the close 10 rows
    before from then on: a number when both closes are, [a - b]. *)
Theorem momentum_column (fsqrt : Q -> Q) (df : DataFrame)
    (high low close volume : Series) (t : nat) :
  cols df !! "close" = Some close ->
  cols df !! "high" = Some high ->
  cols df !! "low" = Some low ->
  cols df !! "volume" = Some volume ->
  (t < length close)%nat ->
  exists mom,
    enriched_column fsqrt df "MOM" = Some mom /\
    length mom = length close /\
    ((t < 10)%nat -> mom !! t = Some NaN) /\
    (forall x y, (10 <= t)%nat ->
       close !! t = Some x -> close !! (t - 10)%nat = Some y ->
       mom !! t = Some (Fl.sub x y)) /\
    (forall a b, (10 <= t)%nat ->
       close !! t = Some (Fin a) -> close !! (t - 10)%nat = Some (Fin b) ->
       exists q, mom !! t = Some (Fin q) /\ q == a - b).
Proof.
  intros Hc Hh Hl Hv Ht.
  exists (Pd.sub close (Pd.shift (mom_period INDICATOR_PARAMS) close)).
  split; [enriched_col|]. split; [series_length|].
  change (mom_period INDICATOR_PARAMS) with 10%nat. unfold Pd.sub.
  split; [|split].
  - intros Hn. rewrite lookup_zip_with.
    destruct (lookup_lt_is_Some_2 close t Ht) as [x ->].
    rewrite shift_lookup_lt by assumption. destruct x; reflexivity.
  - intros x y Hn Hx Hy. rewrite lookup_zip_with, Hx.
    rewrite shift_lookup_ge by assumption. rewrite Hy. reflexivity.
  - intros a b Hn Hx Hy. rewrite lookup_zip_with, Hx.
    rewrite shift_lookup_ge by assumption. rewrite Hy.
    eexists. split; [reflexivity|]. unfold Qminus. reflexivity.
Qed.

Lemma moving_average_columns_witness :
  exists ma,
    enriched_column no_sqrt (bars closes_from_zero volumes_from_zero)
                    (fname "MA" 5) = Some ma /\
    length ma = length (map Fin closes_from_zero) /\
    ((S 4 < 5)%nat -> ma !! 4%nat = Some NaN) /\
    (forall qs, (5 <= S 4)%nat ->
       rows_upto 5 4 (map Fin closes_from_zero) = map Fin qs ->
       ma !! 4%nat = Some (Fin (Qsum qs / Qnat 5))) /\
    ((5 <= S 4)%nat ->
     (exists x, x ∈ rows_upto 5 4 (map Fin closes_from_zero)
                /\ is_fin x = false) ->
     ma !! 4%nat = Some NaN).
Proof.
  apply (moving_average_columns no_sqrt (bars closes_from_zero volumes_from_zero)
           (map (fun q => Fin (q + 1)) closes_from_zero)
           (map (fun q => Fin (q - 1)) closes_from_zero)
           (map Fin closes_from_zero) (map Fin volumes_from_zero)
           "MA" (map Fin closes_from_zero) 5 4);
    [reflexivity | reflexivity | reflexivity | reflexivity | | simpl; lia].
  left. split; [reflexivity|]. split; [reflexivity|].
  apply list_elem_of_In. simpl. tauto.
Defined.

Lemma rate_of_change_columns_witness :
  exists roc,
    enriched_column no_sqrt (bars closes_from_zero volumes_from_zero) "VROC"
    = Some roc /\
    12%nat = 12%nat /\
    ((12 < 12)%nat -> roc !! 12%nat = Some NaN) /\
    (forall a b, (12 <= 12)%nat ->
       map Fin volumes_from_zero !! 12%nat = Some (Fin a) ->
       map Fin volumes_from_zero !! (12 - 12)%nat = Some (Fin b) ->
       (~ b == 0 ->
        exists q, roc !! 12%nat = Some (Fin q) /\ q == (a / b - 1) * 100) /\
       (b == 0 -> 0 < a -> roc !! 12%nat = Some PInf) /\
       (b == 0 -> a < 0 -> roc !! 12%nat = Some NInf) /\
       (b == 0 -> a == 0 -> roc !! 12%nat = Some NaN)).
Proof.
  apply (rate_of_change_columns no_sqrt (bars closes_from_zero volumes_from_zero)
           (map (fun q => Fin (q + 1)) closes_from_zero)
           (map (fun q => Fin (q - 1)) closes_from_zero)
           (map Fin closes_from_zero) (map Fin volumes_from_zero)
           "VROC" (map Fin volumes_from_zero) 12 12);
    [reflexivity | reflexivity | reflexivity | reflexivity | | simpl; lia].
  right. split; [reflexivity|]. split; reflexivity.
Defined.

Lemma momentum_column_witness :
  exists mom,
    enriched_column no_sqrt (bars closes_from_zero volumes_from_zero) "MOM"
    = Some mom /\
    length mom = length (map Fin closes_from_zero) /\
    ((12 < 10)%nat -> mom !! 12%nat = Some NaN) /\
    (forall x y, (10 <= 12)%nat ->
       map Fin closes_from_zero !! 12%nat = Some x ->
       map Fin closes_from_zero !! (12 - 10)%nat = Some y ->
       mom !! 12%nat = Some (Fl.sub x y)) /\
    (forall a b, (10 <= 12)%nat ->
       map Fin closes_from_zero !! 12%nat = Some (Fin a) ->
       map Fin closes_from_zero !! (12 - 10)%nat = Some (Fin b) ->
       exists q, mom !! 12%nat = Some (Fin q) /\ q == a - b).
Proof.
  apply (momentum_column no_sqrt (bars closes_from_zero volumes_from_zero)
           (map (fun q => Fin (q + 1)) closes_from_zero)
           (map (fun q => Fin (q - 1)) closes_from_zero)
           (map Fin closes_from_zero) (map Fin volumes_from_zero) 12);
    [reflexivity | reflexivity | reflexivity | reflexivity | simpl; lia].
Defined.

(** *** On-balance volume *)

Lemma cumsum_from_step (acc : fl) (xs : Series) (t : nat) (o x : Q) :
  Pd.cumsum_from acc xs !! t = Some (Fin o) ->
  xs !! S t = Some (Fin x) ->
  Pd.cumsum_from acc xs !! S t = Some (Fin (o + x)).
Proof.
  revert acc t. induction xs as [|x0 xs IH]; intros acc t Ho Hx;
    [discriminate|].
  destruct t as [|t].
  - destruct xs as [|x1 xs]; [discriminate|]. injection Hx as ->.
    simpl in *. destruct (Fl.notna x0); [|discriminate].
    injection Ho as ->. reflexivity.
  - simpl in Ho |- *. destruct (Fl.notna x0); simpl in Ho |- *;
      apply IH; assumption.
Qed.

Lemma sign_Fin (q : Q) : Fl.sign (Fin q) = Fin (Qsgn q).
Proof. unfold Fl.sign, Qsgn. destruct (q ?= 0); reflexivity. Qed.

Lemma Qsgn_comp (p q : Q) : p == q -> Qsgn p = Qsgn q.
Proof. intros H. unfold Qsgn. rewrite H. reflexivity. Qed.

(** The signed volume of row [t + 1]. *)
Lemma obv_flow_step (close volume : Series) (t : nat) (c c' v' : Q) :
  close !! t = Some (Fin c) -> close !! S t = Some (Fin c') ->
  volume !! S t = Some (Fin v') ->
  Pd.mul (Pd.fillna (Fin 0) (Pd.sign (Pd.diff close))) volume !! S t
  = Some (Fin (Qsgn (c' - c) * v')).
Proof.
  intros Hc Hc' Hv.
  unfold Pd.mul, Pd.fillna, Pd.sign, Pd.diff, Pd.sub.
  rewrite lookup_zip_with, !lookup_map, lookup_zip_with, Hc', Hv.
  rewrite shift_lookup_ge by (first [lia | eapply lookup_lt_Some, Hc']).
  replace (S t - 1)%nat with t by lia. rewrite Hc.
  cbn [fmap option_fmap option_map mbind option_bind].
  change (Fl.sub (Fin c') (Fin c)) with (Fin (c' - c)).
  rewrite sign_Fin. reflexivity.
Qed.

(** The signed volume of the first row is zero times its volume. *)
Lemma obv_flow_first (close volume : Series) (x : fl) (v : Q) :
  close !! 0%nat = Some x -> volume !! 0%nat = Some (Fin v) ->
  Pd.mul (Pd.fillna (Fin 0) (Pd.sign (Pd.diff close))) volume !! 0%nat
  = Some (Fin (0 * v)).
Proof.
  intros Hc Hv.
  unfold Pd.mul, Pd.fillna, Pd.sign, Pd.diff, Pd.sub.
  rewrite lookup_zip_with, !lookup_map, lookup_zip_with, Hc, Hv.
  rewrite shift_lookup_lt by (first [lia | eapply lookup_lt_Some, Hc]).
  destruct x; reflexivity.
Qed.

Lemma cumsum_first (xs : Series) (x : Q) :
  xs !! 0%nat = Some (Fin x) -> Pd.cumsum xs !! 0%nat = Some (Fin (0 + x)).
Proof.
  destruct xs as [|x0 xs]; [discriminate|]. intros [= ->]. reflexivity.
Qed.

(** X7.  The on-balance volume [OBV] of the frame [compute_all] returns.
    The first row is 0: the volume of the first bar is not counted.  From a
    row whose OBV is a number, the next row adds the next volume when the
    close rose, takes it off when the close fell, and keeps the OBV when the
    close did not move. *)
Theorem obv_column (fsqrt : Q -> Q) (df : DataFrame)
    (high low close volume : Series) :
  cols df !! "close" = Some close ->
  cols df !! "high" = Some high ->
  cols df !! "low" = Some low ->
  cols df !! "volume" = Some volume ->
  exists obv,
    enriched_column fsqrt df "OBV" = Some obv /\
    (forall x v, close !! 0%nat = Some x -> volume !! 0%nat = Some (Fin v) ->
       exists o, obv !! 0%nat = Some (Fin o) /\ o == 0) /\
    (forall t o c c' v',
       obv !! t = Some (Fin o) ->
       close !! t = Some (Fin c) -> close !! S t = Some (Fin c') ->
       volume !! S t = Some (Fin v') ->
       exists o', obv !! S t = Some (Fin o') /\
                  o' == o + Qsgn (c' - c) * v' /\
                  (c < c' -> o' == o + v') /\
                  (c' < c -> o' == o - v') /\
                  (c' == c -> o' == o)).
Proof.
  intros Hc Hh Hl Hv. exists (obv_of close volume).
  split; [enriched_col|]. unfold obv_of. split.
  - intros x v Hx Hv0. eexists. split.
    + apply cumsum_first. apply (obv_flow_first close volume x v Hx Hv0).
    + ring.
  - intros t o c c' v' Ho Hct Hct' Hvt. eexists. split.
    + unfold Pd.cumsum in Ho |- *.
      apply (cumsum_from_step _ _ t o (Qsgn (c' - c) * v') Ho).
      apply (obv_flow_step close volume t c c' v' Hct Hct' Hvt).
    + split; [reflexivity|]. unfold Qsgn. split; [|split]; intros Hcmp.
      * assert (H0 : 0 < c' - c) by lra.
        assert (E : (c' - c ?= 0) = Gt) by (apply Qgt_alt, H0).
        rewrite E. ring.
      * assert (H0 : c' - c < 0) by lra.
        assert (E : (c' - c ?= 0) = Lt) by (apply Qlt_alt, H0).
        rewrite E. ring.
      * assert (H0 : c' - c == 0) by lra.
        assert (E : (c' - c ?= 0) = Eq) by (apply Qeq_alt, H0).
        rewrite E. ring.
Qed.

Lemma obv_column_witness :
  exists obv,
    enriched_column no_sqrt (bars closes_from_zero volumes_from_zero) "OBV"
    = Some obv /\
    (forall x v, map Fin closes_from_zero !! 0%nat = Some x ->
       map Fin volumes_from_zero !! 0%nat = Some (Fin v) ->
       exists o, obv !! 0%nat = Some (Fin o) /\ o == 0) /\
    (forall t o c c' v',
       obv !! t = Some (Fin o) ->
       map Fin closes_from_zero !! t = Some (Fin c) ->
       map Fin closes_from_zero !! S t = Some (Fin c') ->
       map Fin volumes_from_zero !! S t = Some (Fin v') ->
       exists o', obv !! S t = Some (Fin o') /\
                  o' == o + Qsgn (c' - c) * v' /\
                  (c < c' -> o' == o + v') /\
                  (c' < c -> o' == o - v') /\
                  (c' == c -> o' == o)).
Proof.
  apply (obv_column no_sqrt (bars closes_from_zero volumes_from_zero)
           (map (fun q => Fin (q + 1)) closes_from_zero)
           (map (fun q => Fin (q - 1)) closes_from_zero)
           (map Fin closes_from_zero) (map Fin volumes_from_zero));
    reflexivity.
Defined.

(** *** Exponential averages without adjustment *)

Lemma ema_from_length (alpha prev : Q) (qs : list Q) :
  length (ema_from alpha prev qs) = length qs.
Proof.
  revert prev. induction qs as [|q qs IH]; intros prev; [reflexivity|].
  simpl. rewrite IH. reflexivity.
Qed.

Lemma ema_length (alpha : Q) (qs : list Q) : length (ema alpha qs) = length qs.
Proof. destruct qs; [reflexivity|]. simpl. rewrite ema_from_length. reflexivity. Qed.

Lemma ewm_step_plain (alpha : Q) (st : Pd.ewm_state) (w q : Q) :
  Pd.weighted st = Fin w -> Pd.old_wt st == 1 ->
  exists e,
    Pd.ewm_step alpha false st (Fin q)
    = Pd.EwmState (Fin e) 1 (S (Pd.nobs st))
    /\ e == (1 - alpha) * w + alpha * q.
Proof.
  intros Hw Hold. unfold Pd.ewm_step. cbv zeta. rewrite Hw.
  cbn [Fl.notna Fl.eqb].
  destruct (Qeq_bool w q) eqn:E.
  - exists w. split; [reflexivity|]. apply Qeq_bool_iff in E. rewrite <- E. ring.
  - assert (Hd : Pd.old_wt st * (1 - alpha) + alpha == 1)
      by (rewrite Hold; ring).
    cbn [Fl.mul Fl.add]. rewrite div_Fin by (rewrite Hd; discriminate).
    eexists. split; [reflexivity|]. rewrite Hd, Hold. field.
Qed.

Lemma ewm_loop_plain (alpha : Q) (qs : list Q) :
  forall (st : Pd.ewm_state) (w prev : Q),
    Pd.weighted st = Fin w -> Pd.old_wt st == 1 -> (1 <= Pd.nobs st)%nat ->
    w == prev ->
    exists es,
      Pd.ewm_loop alpha false 1 st (map Fin qs) = map Fin es /\
      Forall2 Qeq es (ema_from alpha prev qs).
Proof.
  induction qs as [|q qs IH]; intros st w prev Hw Hold Hn Hprev.
  - exists []. split; [reflexivity|constructor].
  - destruct (ewm_step_plain alpha st w q Hw Hold) as (e & Hstep & He).
    cbn [map Pd.ewm_loop]. cbv zeta. rewrite Hstep.
    assert (Hn' : (1 <= Pd.nobs (Pd.EwmState (Fin e) 1 (S (Pd.nobs st))))%nat)
      by (simpl; lia).
    assert (He' : e == (1 - alpha) * prev + alpha * q)
      by (rewrite He, Hprev; reflexivity).
    destruct (IH (Pd.EwmState (Fin e) 1 (S (Pd.nobs st))) e
                 ((1 - alpha) * prev + alpha * q)
                 eq_refl (Qeq_refl 1) Hn' He')
      as (es & Hes & Hrel).
    exists (e :: es). split.
    + rewrite Hes. reflexivity.
    + constructor; [rewrite He, Hprev; reflexivity|exact Hrel].
Qed.

(** [ewm(span=n, adjust=False).mean()] of a column of numbers is the
    recursive average, defined from the first row on. *)
Lemma ewm_mean_plain (com : Q) (qs : list Q) :
  exists es,
    Pd.ewm_mean com false 0 (map Fin qs) = map Fin es /\
    Forall2 Qeq es (ema (1 / (1 + com)) qs).
Proof.
  destruct qs as [|q qs].
  - exists []. split; [reflexivity|constructor].
  - unfold Pd.ewm_mean. cbv zeta. rewrite prep_values_Fin.
    cbn [map Fl.notna Nat.max].
    destruct (ewm_loop_plain (1 / (1 + com)) qs (Pd.EwmState (Fin q) 1 1) q q
                eq_refl (Qeq_refl 1) (le_n 1) (Qeq_refl q))
      as (es & Hes & Hrel).
    exists (q :: es). split.
    + rewrite Hes. reflexivity.
    + constructor; [reflexivity|exact Hrel].
Qed.

Lemma sub_Fin (xs ys : list Q) :
  Pd.sub (map Fin xs) (map Fin ys) = map Fin (zip_with Qminus xs ys).
Proof.
  unfold Pd.sub. revert ys.
  induction xs as [|x xs IH]; intros [|y ys]; try reflexivity.
  simpl. rewrite IH. reflexivity.
Qed.

Lemma Forall2_Qminus (xs xs' ys ys' : list Q) :
  Forall2 Qeq xs xs' -> Forall2 Qeq ys ys' ->
  Forall2 Qeq (zip_with Qminus xs ys) (zip_with Qminus xs' ys').
Proof.
  intros Hx. revert ys ys'. induction Hx as [|x x' xs xs' Hx Hxs IH];
    intros ys ys' Hy; [constructor|].
  destruct Hy as [|y y' ys ys' Hy Hys]; [constructor|].
  simpl. constructor; [rewrite Hx, Hy; reflexivity|apply IH, Hys].
Qed.

Lemma span_alphas :
  span_alpha 12 == 2 # 13 /\ span_alpha 26 == 2 # 27 /\ span_alpha 9 == 1 # 5.
Proof. repeat split; reflexivity. Qed.

(** X8.  The MACD columns of the frame [compute_all] returns, for closes
    that are numbers.  The three columns have a number on every row, the
    first included: there is no warm-up.  [MACD] is the difference of the
    recursive averages of the closes with factors 2/13 and 2/27,
    [MACD_signal] the recursive average of [MACD] with factor 1/5,
    [MACD_hist] their difference; on the first row all three are 0. *)
Theorem macd_columns (fsqrt : Q -> Q) (df : DataFrame)
    (high low volume : Series) (cs : list Q) :
  cols df !! "close" = Some (map Fin cs) ->
  cols df !! "high" = Some high ->
  cols df !! "low" = Some low ->
  cols df !! "volume" = Some volume ->
  exists ms ss,
    enriched_column fsqrt df "MACD" = Some (map Fin ms) /\
    enriched_column fsqrt df "MACD_signal" = Some (map Fin ss) /\
    enriched_column fsqrt df "MACD_hist"
    = Some (map Fin (zip_with Qminus ms ss)) /\
    Forall2 Qeq ms (zip_with Qminus (ema (span_alpha 12) cs)
                                    (ema (span_alpha 26) cs)) /\
    Forall2 Qeq ss (ema (span_alpha 9) ms) /\
    (span_alpha 12 == 2 # 13 /\ span_alpha 26 == 2 # 27
     /\ span_alpha 9 == 1 # 5) /\
    (forall m s, ms !! 0%nat = Some m -> ss !! 0%nat = Some s ->
       m == 0 /\ s == 0 /\ m - s == 0).
Proof.
  intros Hc Hh Hl Hv.
  destruct (ewm_mean_plain (Pd.com_of_span 12) cs) as (e1 & He1 & R1).
  destruct (ewm_mean_plain (Pd.com_of_span 26) cs) as (e2 & He2 & R2).
  destruct (ewm_mean_plain (Pd.com_of_span 9) (zip_with Qminus e1 e2))
    as (ss & Hss & Rs).
  assert (Hm : macd_line (map Fin cs) = map Fin (zip_with Qminus e1 e2)).
  { unfold macd_line.
    change (macd_fast INDICATOR_PARAMS) with 12%nat.
    change (macd_slow INDICATOR_PARAMS) with 26%nat.
    rewrite He1, He2. apply sub_Fin. }
  assert (Hs : macd_signal_line (map Fin cs) = map Fin ss).
  { unfold macd_signal_line. rewrite Hm.
    change (macd_signal INDICATOR_PARAMS) with 9%nat. exact Hss. }
  exists (zip_with Qminus e1 e2), ss.
  split; [rewrite <- Hm; enriched_col|].
  split; [rewrite <- Hs; enriched_col|].
  split; [rewrite <- sub_Fin, <- Hm, <- Hs; enriched_col|].
  split; [apply Forall2_Qminus; assumption|].
  split; [exact Rs|]. split; [exact span_alphas|].
  intros m s Hm0 Hs0.
  assert (Hm' : m == 0).
  { destruct cs as [|c cs]; inversion R1; inversion R2; subst;
      [discriminate|]. simpl in Hm0. injection Hm0 as <-.
    match goal with
    | H1 : _ == c, H2 : _ == c |- _ => rewrite H1, H2
    end. ring. }
  assert (Hs' : s == 0).
  { destruct (zip_with Qminus e1 e2) as [|m0 ms]; [discriminate|].
    injection Hm0 as ->. inversion Rs; subst. simpl in Hs0.
    injection Hs0 as <-.
    match goal with
    | H1 : _ == m |- _ => rewrite H1
    end. exact Hm'. }
  split; [exact Hm'|]. split; [exact Hs'|]. rewrite Hm', Hs'. ring.
Qed.

Lemma macd_columns_witness :
  exists ms ss,
    enriched_column no_sqrt frame_one_bar "MACD" = Some (map Fin ms) /\
    enriched_column no_sqrt frame_one_bar "MACD_signal" = Some (map Fin ss) /\
    enriched_column no_sqrt frame_one_bar "MACD_hist"
    = Some (map Fin (zip_with Qminus ms ss)) /\
    Forall2 Qeq ms (zip_with Qminus (ema (span_alpha 12) [10])
                                    (ema (span_alpha 26) [10])) /\
    Forall2 Qeq ss (ema (span_alpha 9) ms) /\
    (span_alpha 12 == 2 # 13 /\ span_alpha 26 == 2 # 27
     /\ span_alpha 9 == 1 # 5) /\
    (forall m s, ms !! 0%nat = Some m -> ss !! 0%nat = Some s ->
       m == 0 /\ s == 0 /\ m - s == 0).
Proof.
  apply (macd_columns no_sqrt frame_one_bar [Fin 11] [Fin 9] [Fin 100] [10]);
    reflexivity.
Defined.

(** *** Bollinger bands *)

Lemma rolling_std_nonneg (fsqrt : Q -> Q) (p : nat) (xs : Series) (t : nat)
    (b : Q) :
  (forall q, 0 <= fsqrt q) ->
  rolling_std fsqrt p xs !! t = Some (Fin b) -> 0 <= b.
Proof.
  intros Hsqrt H. unfold rolling_std in H.
  assert (Ht : (t < length xs)%nat).
  { rewrite <- (rolling_length p (fstd fsqrt) xs). eapply lookup_lt_Some, H. }
  rewrite rolling_lookup in H by exact Ht.
  destruct (Pd.window p t (Pd.prep_values xs)) as [w|]; [|discriminate].
  destruct (forallb Fl.notna w); [|discriminate].
  unfold fstd in H. destruct (Pd.fvar w); try discriminate.
  injection H as <-. apply Hsqrt.
Qed.

Lemma band_cases (m : Q) (x : fl) (k : Q) :
  (exists b, x = Fin b /\
     Fl.add (Fin m) (Fl.mul (Fin k) x) = Fin (m + k * b) /\
     Fl.sub (Fin m) (Fl.mul (Fin k) x) = Fin (m - k * b)) \/
  (is_fin x = false /\
   is_fin (Fl.add (Fin m) (Fl.mul (Fin k) x)) = false /\
   is_fin (Fl.sub (Fin m) (Fl.mul (Fin k) x)) = false).
Proof.
  destruct x as [b| | |].
  - left. exists b. repeat split; reflexivity.
  - right. simpl. unfold Fl.signed_inf. destruct (k ?= 0); repeat split.
  - right. simpl. unfold Fl.signed_inf. destruct (- k ?= 0); repeat split.
  - right. repeat split.
Qed.

Lemma prep_all_Fin (xs : Series) :
  forallb Fl.notna (Pd.prep_values xs) = true ->
  exists qs, Pd.prep_values xs = map Fin qs.
Proof.
  induction xs as [|x xs IH]; intros H; [exists []; reflexivity|].
  simpl in H. apply andb_true_iff in H as [Hx Hxs].
  destruct (IH Hxs) as (qs & Hqs). destruct x as [q| | |]; try discriminate.
  exists (q :: qs).
  change (Pd.prep_values (Fin q :: xs)) with (Fin q :: Pd.prep_values xs).
  rewrite Hqs. reflexivity.
Qed.

Lemma fvar_Fin (qs : list Q) :
  (2 <= length qs)%nat -> exists v, Pd.fvar (map Fin qs) = Fin v.
Proof.
  intros Hn. unfold Pd.fvar. rewrite length_map.
  destruct (length qs) as [|[|n]] eqn:E; [lia|lia|]. cbv zeta.
  rewrite fmean_Fin by lia. rewrite map_map.
  change (map (fun x => Fl.mul (Fl.sub (Fin x) (Fin (Qsum qs / Qnat (length qs))))
                               (Fl.sub (Fin x) (Fin (Qsum qs / Qnat (length qs)))))
              qs)
    with (map (fun x => Fin ((x - Qsum qs / Qnat (length qs))
                             * (x - Qsum qs / Qnat (length qs)))) qs).
  rewrite <- (map_map (fun x => (x - Qsum qs / Qnat (length qs))
                                 * (x - Qsum qs / Qnat (length qs))) Fin).
  rewrite fsum_Fin. unfold Fl.of_Z. fold (Qnat (S n)).
  rewrite div_Fin; [eexists; reflexivity|].
  intros H. pose proof (Qnat_pos (S n) ltac:(lia)). lra.
Qed.

(** Where the rolling mean is a number, the window is full and made of
    numbers. *)
Lemma rolling_mean_Fin (p : nat) (xs : Series) (t : nat) (m : Q) :
  Pd.rolling_mean p xs !! t = Some (Fin m) ->
  exists qs, Pd.window p t (Pd.prep_values xs) = Some (map Fin qs)
             /\ (p <= S t)%nat /\ length qs = p.
Proof.
  intros H. unfold Pd.rolling_mean in H.
  assert (Ht : (t < length xs)%nat).
  { rewrite <- (rolling_length p Pd.fmean xs). eapply lookup_lt_Some, H. }
  rewrite rolling_lookup in H by exact Ht.
  destruct (Nat.leb_spec p (S t)) as [Hp|Hp].
  - rewrite window_full in H |- * by exact Hp.
    destruct (forallb Fl.notna (Pd.prep_values (rows_upto p t xs))) eqn:E;
      [|discriminate].
    destruct (prep_all_Fin _ E) as (qs & Hqs). exists qs.
    split; [rewrite Hqs; reflexivity|]. split; [exact Hp|].
    rewrite <- (length_map Fin qs), <- Hqs. unfold Pd.prep_values.
    rewrite length_map. apply rows_upto_length; assumption.
  - unfold Pd.window in H. destruct (Nat.leb_spec p (S t)); [lia|discriminate].
Qed.

Lemma rolling_std_Fin (fsqrt : Q -> Q) (p : nat) (xs : Series) (t : nat)
    (qs : list Q) :
  (t < length xs)%nat -> (2 <= length qs)%nat ->
  Pd.window p t (Pd.prep_values xs) = Some (map Fin qs) ->
  exists b, rolling_std fsqrt p xs !! t = Some (Fin b).
Proof.
  intros Ht Hn Hw. unfold rolling_std. rewrite rolling_lookup by exact Ht.
  rewrite Hw, forallb_notna_Fin. unfold fstd.
  destruct (fvar_Fin qs Hn) as (v & ->). eexists. reflexivity.
Qed.

(** X9.  The Bollinger columns of the frame [compute_all] returns, for a
    square root that is never negative.  The five columns are missing on
    the first 19 rows.  On a row where the middle band is a number, the
    upper and the lower band are numbers too, with lower <= middle <=
    upper, at the same distance from the middle. *)
Theorem bollinger_columns (fsqrt : Q -> Q) (df : DataFrame)
    (high low close volume : Series) (t : nat) :
  (forall q, 0 <= fsqrt q) ->
  cols df !! "close" = Some close ->
  cols df !! "high" = Some high ->
  cols df !! "low" = Some low ->
  cols df !! "volume" = Some volume ->
  (t < length close)%nat ->
  exists mid upper lower width pctb,
    enriched_column fsqrt df "BOLL_mid" = Some mid /\
    enriched_column fsqrt df "BOLL_upper" = Some upper /\
    enriched_column fsqrt df "BOLL_lower" = Some lower /\
    enriched_column fsqrt df "BOLL_width" = Some width /\
    enriched_column fsqrt df "BOLL_%B" = Some pctb /\
    ((t < 19)%nat ->
     mid !! t = Some NaN /\ upper !! t = Some NaN /\ lower !! t = Some NaN /\
     width !! t = Some NaN /\ pctb !! t = Some NaN) /\
    (forall m, mid !! t = Some (Fin m) ->
       exists u l, upper !! t = Some (Fin u) /\ lower !! t = Some (Fin l) /\
                   l <= m /\ m <= u /\ u - m == m - l).
Proof.
  intros Hsqrt Hc Hh Hl Hv Ht.
  exists (boll_mid_of close), (boll_upper_of fsqrt close),
    (boll_lower_of fsqrt close),
    (Pd.div (Pd.sub (boll_upper_of fsqrt close) (boll_lower_of fsqrt close))
            (boll_mid_of close)),
    (Pd.div (Pd.sub close (boll_lower_of fsqrt close))
            (Pd.sub (boll_upper_of fsqrt close) (boll_lower_of fsqrt close))).
  do 5 (split; [enriched_col|]).
  destruct (lookup_lt_is_Some_2 close t Ht) as [c Hct].
  assert (Hlm : length (boll_mid_of close) = length close)
    by apply rolling_length.
  assert (Hlb : length (boll_band_of fsqrt close) = length close)
    by apply rolling_length.
  destruct (lookup_lt_is_Some_2 (boll_mid_of close) t) as [m' Hm'];
    [rewrite Hlm; exact Ht|].
  destruct (lookup_lt_is_Some_2 (boll_band_of fsqrt close) t) as [b' Hb'];
    [rewrite Hlb; exact Ht|].
  assert (Hu : boll_upper_of fsqrt close !! t
               = Some (Fl.add m' (Fl.mul (Fin 2) b'))).
  { unfold boll_upper_of, Pd.add, Pd.smul.
    rewrite lookup_zip_with, lookup_map, Hm', Hb'. reflexivity. }
  assert (Hlo : boll_lower_of fsqrt close !! t
                = Some (Fl.sub m' (Fl.mul (Fin 2) b'))).
  { unfold boll_lower_of, Pd.sub, Pd.smul.
    rewrite lookup_zip_with, lookup_map, Hm', Hb'. reflexivity. }
  split.
  - intros Hw.
    assert (m' = NaN) as ->.
    { unfold boll_mid_of, Pd.rolling_mean in Hm'.
      rewrite rolling_warm_up in Hm'
        by (first [exact Ht | change (boll_period INDICATOR_PARAMS) with 20%nat; lia]).
      congruence. }
    split; [exact Hm'|]. split; [exact Hu|]. split; [exact Hlo|].
    unfold Pd.div, Pd.sub.
    rewrite !lookup_zip_with, Hu, Hlo, Hm', Hct.
    split; [reflexivity|]. destruct c; reflexivity.
  - intros m Hm.
    destruct (rolling_mean_Fin _ close t m Hm) as (qs & Hw & Hp & Hlen).
    change (boll_period INDICATOR_PARAMS) with 20%nat in Hw, Hlen.
    destruct (rolling_std_Fin fsqrt 20 close t qs Ht ltac:(lia) Hw)
      as (b & Hb).
    unfold boll_band_of in Hb'.
    change (boll_period INDICATOR_PARAMS) with 20%nat in Hb'.
    rewrite Hb in Hb'. injection Hb' as <-.
    rewrite Hm in Hm'. injection Hm' as <-.
    rewrite Hu, Hlo.
    pose proof (rolling_std_nonneg fsqrt _ close t b Hsqrt Hb) as Hb0.
    exists (m + 2 * b), (m - 2 * b).
    split; [reflexivity|]. split; [reflexivity|]. repeat split; lra.
Qed.

Lemma coarse_sqrt_nonneg (q : Q) : 0 <= coarse_sqrt q.
Proof.
  unfold coarse_sqrt. change 0 with (inject_Z 0). rewrite <- Zle_Qle.
  apply Z.sqrt_nonneg.
Qed.

Lemma bollinger_columns_witness :
  exists mid upper lower width pctb,
    enriched_column coarse_sqrt (bars closes_from_zero volumes_from_zero)
                    "BOLL_mid" = Some mid /\
    enriched_column coarse_sqrt (bars closes_from_zero volumes_from_zero)
                    "BOLL_upper" = Some upper /\
    enriched_column coarse_sqrt (bars closes_from_zero volumes_from_zero)
                    "BOLL_lower" = Some lower /\
    enriched_column coarse_sqrt (bars closes_from_zero volumes_from_zero)
                    "BOLL_width" = Some width /\
    enriched_column coarse_sqrt (bars closes_from_zero volumes_from_zero)
                    "BOLL_%B" = Some pctb /\
    ((13 < 19)%nat ->
     mid !! 13%nat = Some NaN /\ upper !! 13%nat = Some NaN /\
     lower !! 13%nat = Some NaN /\
     width !! 13%nat = Some NaN /\ pctb !! 13%nat = Some NaN) /\
    (forall m, mid !! 13%nat = Some (Fin m) ->
       exists u l, upper !! 13%nat = Some (Fin u) /\
                   lower !! 13%nat = Some (Fin l) /\
                   l <= m /\ m <= u /\ u - m == m - l).
Proof.
  apply (bollinger_columns coarse_sqrt
           (bars closes_from_zero volumes_from_zero)
           (map (fun q => Fin (q + 1)) closes_from_zero)
           (map (fun q => Fin (q - 1)) closes_from_zero)
           (map Fin closes_from_zero) (map Fin volumes_from_zero) 13);
    [exact coarse_sqrt_nonneg | reflexivity | reflexivity | reflexivity
    | reflexivity | simpl; lia].
Defined.

(** ** The range of the score *)

Lemma Qsum_from_bounds (vs : list Q) (a : Q) :
  Forall unit_vote vs ->
  a - Qnat (length vs) <= fold_left Qplus vs a /\
  fold_left Qplus vs a <= a + Qnat (length vs).
Proof.
  intros H. revert a. induction H as [|v vs [Hv1 Hv2] _ IH]; intros a.
  - cbn [fold_left length]. change (Qnat 0) with 0. lra.
  - cbn [fold_left length]. destruct (IH (a + v)) as [H1 H2].
    assert (E : Qnat (S (length vs)) == Qnat (length vs) + 1).
    { unfold Qnat. rewrite Nat2Z.inj_succ, <- Z.add_1_r, inject_Z_plus.
      reflexivity. }
    rewrite E. lra.
Qed.

Lemma Qmean_unit (vs : list Q) :
  vs <> [] -> Forall unit_vote vs -> unit_vote (Qmean vs).
Proof.
  intros Hne H. unfold Qmean, Qsum.
  destruct (Qsum_from_bounds vs 0 H) as [H1 H2].
  assert (Hn : 0 < Qnat (length vs)).
  { destruct vs; [congruence|].
    pose proof (Qnat_pos (length (q :: vs)) ltac:(simpl; lia)). lra. }
  split.
  - apply Qle_shift_div_l; [exact Hn|]. lra.
  - apply Qle_shift_div_r; [exact Hn|]. lra.
Qed.

Lemma score_of_unit (vs : list Q) :
  Forall unit_vote vs -> unit_vote (score_of vs).
Proof.
  intros H. destruct vs as [|v vs'].
  - simpl. split; lra.
  - change (score_of (v :: vs')) with (Qmean (v :: vs')).
    apply Qmean_unit; [discriminate|exact H].
Qed.

(** *** Rounding keeps integer bounds *)

Lemma round_half_even_between (q : Q) :
  round_half_even q = Qfloor q \/
  (round_half_even q = (Qfloor q + 1)%Z /\ inject_Z (Qfloor q) < q).
Proof.
  unfold round_half_even. cbv zeta.
  destruct (Qcompare (q - inject_Z (Qfloor q)) (1 # 2)) eqn:E.
  - apply Qeq_alt in E. destruct (Z.even (Qfloor q)); [left; reflexivity|].
    right. split; [reflexivity|]. lra.
  - left. reflexivity.
  - apply Qgt_alt in E. right. split; [reflexivity|]. lra.
Qed.

Lemma round_half_even_le (q : Q) (n : Z) :
  q <= inject_Z n -> (round_half_even q <= n)%Z.
Proof.
  intros H. pose proof (Qfloor_le q) as Hf.
  destruct (round_half_even_between q) as [->|[-> Hlt]].
  - rewrite Zle_Qle. lra.
  - assert (Hs : inject_Z (Qfloor q) < inject_Z n) by lra.
    rewrite <- Zlt_Qlt in Hs. lia.
Qed.

Lemma round_half_even_ge (q : Q) (n : Z) :
  inject_Z n <= q -> (n <= round_half_even q)%Z.
Proof.
  intros H.
  assert (Hf : (n <= Qfloor q)%Z).
  { rewrite <- (Qfloor_Z n). apply Qfloor_resp_le, H. }
  destruct (round_half_even_between q) as [->|[-> _]]; lia.
Qed.

Lemma round_nd_3_unit (q : Q) : unit_vote q -> unit_vote (round_nd 3 q).
Proof.
  intros [H1 H2]. unfold round_nd. cbv zeta.
  change (inject_Z (10 ^ Z.of_nat 3)) with 1000.
  assert (Hlo : (-1000 <= round_half_even (q * 1000))%Z)
    by (apply round_half_even_ge; change (inject_Z (-1000)) with (-1000); lra).
  assert (Hhi : (round_half_even (q * 1000) <= 1000)%Z)
    by (apply round_half_even_le; change (inject_Z 1000) with 1000; lra).
  rewrite Zle_Qle in Hlo, Hhi.
  change (inject_Z (-1000)) with (-1000) in Hlo.
  change (inject_Z 1000) with 1000 in Hhi.
  split; rewrite Qred_correct.
  - apply Qle_shift_div_l; lra.
  - apply Qle_shift_div_r; lra.
Qed.

Lemma round_nd_3_thousandth (q : Q) :
  exists z : Z, round_nd 3 q == inject_Z z / 1000.
Proof.
  exists (round_half_even (q * 1000)). unfold round_nd. cbv zeta.
  rewrite Qred_correct. reflexivity.
Qed.

(** *** Every block casts votes between -1 and 1 *)

Lemma bounded_set_detail (k : string) (v : pyval) (st : sigstate) :
  bounded_votes st -> bounded_votes (set_detail k v st).
Proof. intros H. exact H. Qed.

Lemma bounded_append_vote (q : Q) (st : sigstate) :
  unit_vote q -> bounded_votes st -> bounded_votes (append_vote q st).
Proof.
  intros Hq [H1 H2]. split; [|exact H2]. simpl.
  apply Forall_app. split; [exact H1|]. constructor; [exact Hq|constructor].
Qed.

Lemma bounded_append_vol_signal (q : Q) (st : sigstate) :
  unit_vote q -> bounded_votes st -> bounded_votes (append_vol_signal q st).
Proof.
  intros Hq [H1 H2]. split; [exact H1|]. simpl.
  apply Forall_app. split; [exact H2|]. constructor; [exact Hq|constructor].
Qed.

Ltac unit_const := unfold unit_vote; split; lra.

Ltac bounded_step :=
  repeat first
    [ assumption
    | apply bounded_set_detail
    | apply bounded_append_vote; [unit_const|]
    | apply bounded_append_vol_signal; [unit_const|] ].

Lemma ma_loop_unit (df : DataFrame) (ps : list nat) (acc res : list Q) :
  Forall unit_vote acc -> ma_loop df ps acc = Ok res -> Forall unit_vote res.
Proof.
  revert acc. induction ps as [|p ps IH]; intros acc Hacc H; simpl in H.
  - congruence.
  - unfold row_getitem in H.
    repeat (case_match; simpl in H; try discriminate);
      (eapply IH; [|exact H]);
      first [ exact Hacc
            | apply Forall_app; split; [exact Hacc|];
              constructor; [unit_const|constructor] ].
Qed.

Lemma ma_block_bounded (df : DataFrame) (st st' : sigstate) :
  bounded_votes st -> ma_block df st = Ok st' -> bounded_votes st'.
Proof.
  intros Hb H. unfold ma_block in H.
  destruct (ma_loop df (ma_periods INDICATOR_PARAMS) []) as [res|e] eqn:E;
    simpl in H; [|discriminate].
  apply ma_loop_unit in E; [|constructor].
  destruct res as [|s res]; injection H as <-; [exact Hb|].
  apply bounded_set_detail, bounded_append_vote; [|exact Hb].
  apply Qmean_unit; [discriminate|exact E].
Qed.

Lemma cross_block_bounded (df : DataFrame) (st st' : sigstate) :
  bounded_votes st -> cross_block df st = Ok st' -> bounded_votes st'.
Proof.
  intros Hb H. unfold cross_block, row_getitem in H.
  repeat (case_match; simpl in H; try discriminate);
    injection H as <-; bounded_step.
Qed.

Lemma rsi_block_bounded (df : DataFrame) (st : sigstate) :
  bounded_votes st -> bounded_votes (rsi_block df st).
Proof.
  intros Hb. unfold rsi_block. repeat case_match; bounded_step.
Qed.

Lemma macd_block_bounded (df : DataFrame) (st st' : sigstate) :
  bounded_votes st -> macd_block df st = Ok st' -> bounded_votes st'.
Proof.
  intros Hb H. unfold macd_block, row_getitem in H.
  repeat (case_match; simpl in H; try discriminate);
    injection H as <-; bounded_step.
Qed.

Lemma adx_block_bounded (df : DataFrame) (st st' : sigstate) :
  bounded_votes st -> adx_block df st = Ok st' -> bounded_votes st'.
Proof.
  intros Hb H. unfold adx_block, row_getitem in H.
  repeat (case_match; simpl in H; try discriminate);
    injection H as <-; bounded_step.
Qed.

Lemma boll_block_bounded (df : DataFrame) (st : sigstate) :
  bounded_votes st -> bounded_votes (boll_block df st).
Proof.
  intros Hb. unfold boll_block. repeat case_match; bounded_step.
Qed.

Lemma sign_vote_unit (x : fl) : unit_vote (sign_vote x).
Proof. unfold sign_vote. repeat case_match; unit_const. Qed.

Lemma roc_block_bounded (df : DataFrame) (st : sigstate) :
  bounded_votes st -> bounded_votes (roc_block df st).
Proof.
  intros Hb. unfold roc_block. case_match; [|exact Hb]. cbv zeta.
  apply bounded_set_detail, bounded_append_vote;
    [apply sign_vote_unit|exact Hb].
Qed.

Lemma mom_block_bounded (df : DataFrame) (st : sigstate) :
  bounded_votes st -> bounded_votes (mom_block df st).
Proof.
  intros Hb. unfold mom_block. case_match; [|exact Hb]. cbv zeta.
  apply bounded_set_detail, bounded_append_vote;
    [apply sign_vote_unit|exact Hb].
Qed.

Lemma obv_block_bounded (df : DataFrame) (st st' : sigstate) :
  bounded_votes st -> obv_block df st = Ok st' -> bounded_votes st'.
Proof.
  intros Hb H. unfold obv_block, series_iloc_neg in H.
  repeat (case_match; simpl in H; try discriminate);
    injection H as <-; bounded_step.
Qed.

Lemma mfi_block_bounded (df : DataFrame) (st : sigstate) :
  bounded_votes st -> bounded_votes (mfi_block df st).
Proof.
  intros Hb. unfold mfi_block. repeat case_match; bounded_step.
Qed.

Lemma vroc_block_bounded (df : DataFrame) (st : sigstate) :
  bounded_votes st -> bounded_votes (vroc_block df st).
Proof.
  intros Hb. unfold vroc_block. case_match; bounded_step.
Qed.

Lemma vol_ma_loop_bounded (df : DataFrame) (ps : list nat) (st st' : sigstate) :
  bounded_votes st -> vol_ma_loop df ps st = Ok st' -> bounded_votes st'.
Proof.
  revert st. induction ps as [|p ps IH]; intros st Hb H; simpl in H.
  - congruence.
  - unfold row_getitem in H.
    repeat (case_match; simpl in H; try discriminate);
      (eapply IH; [|exact H]); bounded_step.
Qed.

Lemma run_blocks_unit (df : DataFrame) (st : sigstate) :
  run_blocks df = Ok st -> Forall unit_vote (votes st).
Proof.
  intros H. unfold run_blocks in H.
  apply result_bind_inv in H as (s1 & E1 & H).
  apply result_bind_inv in H as (s2 & E2 & H). cbv zeta in H.
  apply result_bind_inv in H as (s4 & E4 & H).
  apply result_bind_inv in H as (s5 & E5 & H). cbv zeta in H.
  apply result_bind_inv in H as (s9 & E9 & H). cbv zeta in H.
  apply result_bind_inv in H as (s12 & E12 & H).
  injection H as <-.
  assert (B0 : bounded_votes (SigState ∅ [] [])) by (split; constructor).
  pose proof (ma_block_bounded df _ _ B0 E1) as B1.
  pose proof (cross_block_bounded df _ _ B1 E2) as B2.
  pose proof (macd_block_bounded df _ _ (rsi_block_bounded df _ B2) E4) as B4.
  pose proof (adx_block_bounded df _ _ B4 E5) as B5.
  pose proof (obv_block_bounded df _ _
                (mom_block_bounded df _
                   (roc_block_bounded df _ (boll_block_bounded df _ B5))) E9)
    as B9.
  pose proof (vol_ma_loop_bounded df _ _ _
                (vroc_block_bounded df _ (mfi_block_bounded df _ B9)) E12)
    as [V W].
  unfold extend_votes. simpl. apply Forall_app. split; assumption.
Qed.

(** X10.  The score [generate_signals] returns lies between -1 and 1, as
    its docstring says: it is the integer 0 of the insufficient-data
    result, or a float that is a whole number of thousandths between -1 and
    1; each vote behind it lies between -1 and 1 as well, and the label is
    one of the five. *)
Theorem score_in_unit_interval (df : DataFrame) (r : gmap string pyval) :
  generate_signals df = Ok r ->
  (r !! "score" = Some (VInt 0) /\ r !! "signal" = Some (VStr INSUFFICIENT_DATA))
  \/
  (exists (st : sigstate) (s : Q) (z : Z),
     run_blocks df = Ok st /\
     Forall unit_vote (votes st) /\
     r !! "score" = Some (VFloat (Fin s)) /\
     -1 <= s /\ s <= 1 /\ s == inject_Z z / 1000 /\
     exists label, r !! "signal" = Some (VStr label) /\ label ∈ five_labels).
Proof.
  intros H.
  destruct (df_empty df) eqn:Ee.
  { left. rewrite generate_signals_guard in H by (left; exact Ee).
    injection H as <-. split; reflexivity. }
  destruct (Nat.lt_ge_cases (nrows df) 2) as [Hlt|Hge].
  { left. rewrite generate_signals_guard in H by (right; exact Hlt).
    injection H as <-. split; reflexivity. }
  right.
  destruct (generate_signals_unfold df r (conj Ee Hge) H)
    as (st & la & pl & Hb & _ & _ & ->).
  pose proof (run_blocks_unit df st Hb) as Hu.
  destruct (round_nd_3_unit _ (score_of_unit _ Hu)) as [H1 H2].
  destruct (round_nd_3_thousandth (score_of (votes st))) as [z Hz].
  exists st, (round_nd 3 (score_of (votes st))), z.
  split; [exact Hb|]. split; [exact Hu|]. split; [reflexivity|].
  split; [exact H1|]. split; [exact H2|]. split; [exact Hz|].
  eexists. split; [reflexivity|].
  unfold _score_to_signal, five_labels.
  repeat case_match; apply list_elem_of_In; simpl; tauto.
Qed.

Lemma score_in_unit_interval_witness :
  exists r,
    generate_signals frame_three_votes = Ok r /\
    ((r !! "score" = Some (VInt 0)
      /\ r !! "signal" = Some (VStr INSUFFICIENT_DATA))
     \/
     (exists (st : sigstate) (s : Q) (z : Z),
        run_blocks frame_three_votes = Ok st /\
        Forall unit_vote (votes st) /\
        r !! "score" = Some (VFloat (Fin s)) /\
        -1 <= s /\ s <= 1 /\ s == inject_Z z / 1000 /\
        exists label, r !! "signal" = Some (VStr label)
                      /\ label ∈ five_labels)).
Proof.
  assert (Hwf : wf_df frame_three_votes) by wf_concrete.
  assert (Hen : enough_rows frame_three_votes)
    by (split; [reflexivity | simpl; lia]).
  destruct (generate_signals_returns frame_three_votes (Fin 11) 120 Hwf Hen)
    as [r Hr];
    [reflexivity | reflexivity | intros x Hx; vm_compute in Hx; discriminate |].
  exists r. split; [exact Hr|].
  apply (score_in_unit_interval frame_three_votes r Hr).
Defined.

(** ** What [generate_signals] raises *)

Lemma row_getitem_None (row : Row) (c : string) :
  row !! c = None -> row_getitem row c = Raise (KeyError c).
Proof. unfold row_getitem. intros ->. reflexivity. Qed.

Lemma ma_loop_outcome (df : DataFrame) (ps : list nat) (acc : list Q) :
  (exists res, ma_loop df ps acc = Ok res) \/
  (iloc_neg df 1 !! "close" = None /\
   ma_loop df ps acc = Raise (KeyError "close")).
Proof.
  revert acc. induction ps as [|p ps IH]; intros acc; simpl; [eauto|].
  destruct (notna_opt (iloc_neg df 1 !! fname "MA" p)) eqn:E; [|apply IH].
  apply notna_opt_row in E as [ma Hma].
  destruct (iloc_neg df 1 !! "close") as [close|] eqn:Hc.
  - rewrite (row_getitem_Some _ _ _ Hc), Hma. simpl.
    repeat case_match; apply IH.
  - right. split; [reflexivity|]. rewrite (row_getitem_None _ _ Hc).
    reflexivity.
Qed.

Lemma vol_ma_loop_outcome (df : DataFrame) (ps : list nat) (st : sigstate) :
  (exists st', vol_ma_loop df ps st = Ok st') \/
  (iloc_neg df 1 !! "volume" = None /\
   vol_ma_loop df ps st = Raise (KeyError "volume")).
Proof.
  revert st. induction ps as [|p ps IH]; intros st; simpl; [eauto|].
  destruct (notna_opt (iloc_neg df 1 !! fname "VOL_MA" p)) eqn:E; [|apply IH].
  apply notna_opt_row in E as [ma Hma].
  destruct (iloc_neg df 1 !! "volume") as [volume|] eqn:Hv.
  - rewrite (row_getitem_Some _ _ _ Hv), Hma. simpl.
    repeat case_match; apply IH.
  - right. split; [reflexivity|]. rewrite (row_getitem_None _ _ Hv).
    reflexivity.
Qed.

(** On a well-formed frame the blocks can only fail on the close or on the
    volume of the last row. *)
Lemma run_blocks_outcome (df : DataFrame) :
  wf_df df -> (2 <= nrows df)%nat ->
  (exists st, run_blocks df = Ok st) \/
  (iloc_neg df 1 !! "close" = None /\
   run_blocks df = Raise (KeyError "close")) \/
  (iloc_neg df 1 !! "volume" = None /\
   run_blocks df = Raise (KeyError "volume")).
Proof.
  intros Hwf Hn. unfold run_blocks, ma_block.
  destruct (ma_loop_outcome df (ma_periods INDICATOR_PARAMS) [])
    as [[res ->]|[Hc ->]]; [|right; left; split; [exact Hc|reflexivity]].
  rewrite result_bind_Ok.
  set (s1 := match res with [] => _ | _ => _ end).
  assert (exists st1, s1 = Ok st1) as [st1 ->]
    by (subst s1; destruct res; eauto).
  rewrite result_bind_Ok.
  destruct (cross_block_returns df st1 Hwf Hn) as [st2 ->].
  rewrite result_bind_Ok. cbv zeta.
  destruct (macd_block_returns df (rsi_block df st2) Hwf Hn) as [st4 ->].
  rewrite result_bind_Ok.
  destruct (adx_block_returns df st4 Hwf Hn) as [st5 ->].
  rewrite result_bind_Ok. cbv zeta.
  destruct (obv_block_returns df (mom_block df (roc_block df (boll_block df st5)))
              Hwf) as [st9 ->].
  rewrite result_bind_Ok. cbv zeta.
  destruct (vol_ma_loop_outcome df (vol_ma_periods INDICATOR_PARAMS)
              (vroc_block df (mfi_block df st9)))
    as [[st12 ->]|[Hv ->]]; [|right; right; split; [exact Hv|reflexivity]].
  rewrite result_bind_Ok. eauto.
Qed.

Lemma latest_of_no_close (df : DataFrame) :
  iloc_neg df 1 !! "close" = None -> latest_of df = Raise (KeyError "close").
Proof.
  intros Hc. unfold latest_of. rewrite (row_getitem_None _ _ Hc). reflexivity.
Qed.

(** With a close on the last row, [latest_of] gets as far as the volume. *)
Lemma latest_of_volume (df : DataFrame) (close : fl) :
  iloc_neg df 1 !! "close" = Some close ->
  exists change,
    latest_of df =
    (volume ← row_getitem (iloc_neg df 1) "volume";
     volume ← to_int volume;
     obv ← match defined (iloc_neg df 1 !! "OBV") with
           | Some x => z ← to_int x; Ok (VInt z)
           | None => Ok (VStr "N/A")
           end;
     Ok (<["收盘价" := VFloat (fround 3 close)]>
         (<["涨跌幅" := change]>
         (<["成交量" := VInt volume]>
         (<["RSI" := rounded_or df 1 "RSI" (VStr "N/A")]>
         (<["MACD柱" := rounded_or df 4 "MACD_hist" (VStr "N/A")]>
         (<["ADX" := rounded_or df 1 "ADX" (VStr "N/A")]>
         (<["MFI" := rounded_or df 1 "MFI" (VStr "N/A")]>
         (<["OBV" := obv]> ∅))))))))).
Proof.
  intros Hc. unfold latest_of.
  rewrite (row_getitem_Some _ _ _ Hc), result_bind_Ok.
  destruct (notna_opt (iloc_neg df 2 !! "close")) eqn:E.
  - apply notna_opt_row in E as [pc ->]. rewrite !result_bind_Ok.
    eexists. reflexivity.
  - rewrite result_bind_Ok. eexists. reflexivity.
Qed.

Lemma generate_signals_run (df : DataFrame) :
  enough_rows df ->
  generate_signals df
  = (st ← run_blocks df;
     latest ← latest_of df;
     price_levels ← price_levels_of df;
     Ok (<["signal" := VStr (_score_to_signal (score_of (votes st)))]>
         (<["score" := VFloat (Fin (round_nd 3 (score_of (votes st))))]>
         (<["details" := VDict (details st)]>
         (<["latest" := VDict latest]>
         (<["price_levels" := VDict price_levels]> ∅)))))).
Proof.
  intros [Hne Hn]. unfold generate_signals. rewrite Hne. simpl orb.
  replace (nrows df <? 2)%nat with false by (symmetry; apply Nat.ltb_ge; lia).
  reflexivity.
Qed.

(** X11.  What [generate_signals] raises on a well-formed frame of at least
    two rows.  Without a close on the last row it raises [KeyError] for
    [close]; with a close but no volume, [KeyError] for [volume]; with a
    missing (NaN) volume, the [ValueError] of [int(nan)]; with an infinite
    volume, or an infinite OBV beside a finite volume, the
    [OverflowError] of [int(inf)]. *)
Theorem generate_signals_raises (df : DataFrame) :
  wf_df df -> enough_rows df ->
  (iloc_neg df 1 !! "close" = None -> is_Some (iloc_neg df 1 !! "volume") ->
   generate_signals df = Raise (KeyError "close")) /\
  (is_Some (iloc_neg df 1 !! "close") -> iloc_neg df 1 !! "volume" = None ->
   generate_signals df = Raise (KeyError "volume")) /\
  (is_Some (iloc_neg df 1 !! "close") ->
   iloc_neg df 1 !! "volume" = Some NaN ->
   generate_signals df
   = Raise (ValueError "cannot convert float NaN to integer")) /\
  (is_Some (iloc_neg df 1 !! "close") ->
   iloc_neg df 1 !! "volume" = Some PInf \/
   iloc_neg df 1 !! "volume" = Some NInf ->
   generate_signals df
   = Raise (OverflowError "cannot convert float infinity to integer")) /\
  (forall v, is_Some (iloc_neg df 1 !! "close") ->
   iloc_neg df 1 !! "volume" = Some (Fin v) ->
   iloc_neg df 1 !! "OBV" = Some PInf \/ iloc_neg df 1 !! "OBV" = Some NInf ->
   generate_signals df
   = Raise (OverflowError "cannot convert float infinity to integer")).
Proof.
  intros Hwf Hen. pose proof Hen as [_ Hn].
  rewrite (generate_signals_run df Hen).
  split; [|split; [|split; [|split]]].
  - intros Hc [v Hv].
    destruct (run_blocks_outcome df Hwf Hn)
      as [[st ->]|[[_ ->]|[Hv' _]]]; [| reflexivity | congruence].
    rewrite result_bind_Ok, (latest_of_no_close df Hc). reflexivity.
  - intros [c Hc] Hv.
    destruct (run_blocks_outcome df Hwf Hn)
      as [[st ->]|[[Hc' _]|[_ ->]]]; [| congruence | reflexivity].
    rewrite result_bind_Ok.
    destruct (latest_of_volume df c Hc) as [ch ->].
    rewrite (row_getitem_None _ _ Hv). reflexivity.
  - intros [c Hc] Hv.
    destruct (run_blocks_outcome df Hwf Hn)
      as [[st ->]|[[Hc' _]|[Hv' _]]]; [| congruence | congruence].
    rewrite result_bind_Ok.
    destruct (latest_of_volume df c Hc) as [ch ->].
    rewrite (row_getitem_Some _ _ _ Hv). reflexivity.
  - intros [c Hc] Hv.
    destruct (run_blocks_outcome df Hwf Hn)
      as [[st ->]|[[Hc' _]|[Hv' _]]];
      [| congruence | destruct Hv; congruence].
    rewrite result_bind_Ok.
    destruct (latest_of_volume df c Hc) as [ch ->].
    destruct Hv as [Hv|Hv]; rewrite (row_getitem_Some _ _ _ Hv); reflexivity.
  - intros v [c Hc] Hv Ho.
    destruct (run_blocks_outcome df Hwf Hn)
      as [[st ->]|[[Hc' _]|[Hv' _]]]; [| congruence | congruence].
    rewrite result_bind_Ok.
    destruct (latest_of_volume df c Hc) as [ch ->].
    rewrite (row_getitem_Some _ _ _ Hv).
    destruct Ho as [Ho|Ho]; rewrite Ho; reflexivity.
Qed.

Lemma generate_signals_raises_witness :
  generate_signals frame_nan_volume
  = Raise (ValueError "cannot convert float NaN to integer").
Proof.
  assert (Hwf : wf_df frame_nan_volume) by wf_concrete.
  assert (Hen : enough_rows frame_nan_volume)
    by (split; [reflexivity | simpl; lia]).
  refine (proj1 (proj2 (proj2
            (generate_signals_raises frame_nan_volume Hwf Hen))) _ _);
    [eexists; reflexivity | reflexivity].
Defined.

(** ** From raw bars to a signal *)

Lemma cumsum_from_all_fin (xs : Series) (a : Q) :
  Forall (fun x => is_fin x = true) xs ->
  Forall (fun x => is_fin x = true) (Pd.cumsum_from (Fin a) xs).
Proof.
  intros H. revert a. induction H as [|x xs Hx _ IH]; intros a; [constructor|].
  destruct x as [q| | |]; try discriminate. simpl.
  constructor; [reflexivity|apply IH].
Qed.

Lemma obv_flows_all_fin (close : Series) (vs : list Q) :
  Forall (fun x => is_fin x = true)
    (Pd.mul (Pd.fillna (Fin 0) (Pd.sign (Pd.diff close))) (map Fin vs)).
Proof.
  unfold Pd.mul, Pd.fillna, Pd.sign.
  generalize (Pd.diff close). intros ds. revert vs.
  induction ds as [|d ds IH]; intros [|v vs]; simpl; try constructor.
  - destruct d as [q| | |]; simpl; try reflexivity.
    destruct (q ?= 0); reflexivity.
  - apply IH.
Qed.

Lemma obv_of_all_fin (close : Series) (vs : list Q) (t : nat) (x : fl) :
  obv_of close (map Fin vs) !! t = Some x -> is_fin x = true.
Proof.
  intros H. unfold obv_of, Pd.cumsum in H.
  pose proof (cumsum_from_all_fin _ 0 (obv_flows_all_fin close vs)) as Hall.
  rewrite Forall_lookup in Hall. exact (Hall t x H).
Qed.

Lemma enough_rows_intro (d : DataFrame) (c : string) :
  (2 <= nrows d)%nat -> is_Some (cols d !! c) -> enough_rows d.
Proof.
  intros Hn [s Hs]. split; [|exact Hn]. unfold df_empty.
  replace (nrows d =? 0)%nat with false
    by (symmetry; apply Nat.eqb_neq; lia).
  replace (bool_decide (cols d = ∅)) with false.
  - rewrite andb_false_r. reflexivity.
  - symmetry. apply bool_decide_eq_false. intros E.
    rewrite E, lookup_empty in Hs. discriminate.
Qed.

(** X12.  The analysis of a stock composes: on a well-formed frame of at
    least two bars with the columns [close], [high], [low] and a [volume]
    column of numbers, [compute_all] returns a frame on which
    [generate_signals] does not raise: it returns one of the five labels, a
    score between -1 and 1 and the price levels, and the input frame is
    still in place for [check_anomaly]. *)
Theorem signals_of_enriched_frame (fsqrt : Q -> Q) (st : store) (r : ref)
    (df : DataFrame) (high low close : Series) (vs : list Q) :
  st !! r = Some df ->
  wf_df df -> (2 <= nrows df)%nat ->
  cols df !! "close" = Some close ->
  cols df !! "high" = Some high ->
  cols df !! "low" = Some low ->
  cols df !! "volume" = Some (map Fin vs) ->
  exists d' res label s,
    compute_all fsqrt r st = (Ok (length st), st ++ [d']) /\
    (st ++ [d']) !! r = Some df /\
    generate_signals d' = Ok res /\
    res !! "signal" = Some (VStr label) /\ label ∈ five_labels /\
    res !! "score" = Some (VFloat (Fin s)) /\ -1 <= s /\ s <= 1 /\
    is_Some (res !! "price_levels").
Proof.
  intros Hr Hwf Hn Hc Hh Hl Hv.
  pose proof (enriches_enrich fsqrt df high low close (map Fin vs) Hc Hh Hl Hv)
    as He.
  set (d' := enrich fsqrt high low close (map Fin vs) df) in *.
  assert (Hwf' : wf_df d') by (apply He, Hwf).
  assert (Hn' : nrows d' = nrows df) by apply He.
  assert (Hc' : cols d' !! "close" = Some close)
    by (rewrite (enriches_kept df d' _ He close_not_indicator); exact Hc).
  assert (Hv' : cols d' !! "volume" = Some (map Fin vs))
    by (rewrite (enriches_kept df d' _ He volume_not_indicator); exact Hv).
  assert (Hen : enough_rows d').
  { apply (enough_rows_intro d' "close"); [lia|eexists; exact Hc']. }
  destruct (iloc_neg_lookup d' 1 "close" close Hwf' Hc' ltac:(lia))
    as (c & Hrc & _).
  destruct (iloc_neg_lookup d' 1 "volume" (map Fin vs) Hwf' Hv' ltac:(lia))
    as (v & Hrv & Hvs).
  rewrite lookup_map in Hvs.
  destruct (vs !! (nrows d' - 1)%nat) as [q|]; [|discriminate].
  injection Hvs as <-.
  assert (Ho : forall x, iloc_neg d' 1 !! "OBV" = Some x ->
                         x <> PInf /\ x <> NInf).
  { intros x Hx. unfold iloc_neg in Hx. rewrite lookup_omap in Hx.
    assert (E : cols d' !! "OBV" = Some (obv_of close (map Fin vs)))
      by (subst d'; enrich_lookup).
    rewrite E in Hx. simpl in Hx. apply obv_of_all_fin in Hx.
    destruct x; try discriminate. split; discriminate. }
  destruct (generate_signals_returns d' c q Hwf' Hen Hrc Hrv Ho) as [res Hres].
  destruct (generate_signals_unfold d' res Hen Hres)
    as (sst & la & pl & Hb & _ & _ & ->).
  pose proof (run_blocks_unit d' sst Hb) as Hu.
  destruct (round_nd_3_unit _ (score_of_unit _ Hu)) as [H1 H2].
  eexists d', _, (_score_to_signal (score_of (votes sst))),
    (round_nd 3 (score_of (votes sst))).
  split; [apply compute_all_runs; assumption|].
  split; [rewrite lookup_app_l by (eapply lookup_lt_Some, Hr); exact Hr|].
  split; [exact Hres|]. split; [reflexivity|].
  split.
  { unfold _score_to_signal, five_labels.
    repeat case_match; apply list_elem_of_In; simpl; tauto. }
  split; [reflexivity|]. split; [exact H1|]. split; [exact H2|].
  eexists. reflexivity.
Qed.

Lemma signals_of_enriched_frame_witness :
  exists d' res label s,
    compute_all no_sqrt 0%nat [frame_bad_dates]
    = (Ok 1%nat, [frame_bad_dates] ++ [d']) /\
    ([frame_bad_dates] ++ [d']) !! 0%nat = Some frame_bad_dates /\
    generate_signals d' = Ok res /\
    res !! "signal" = Some (VStr label) /\ label ∈ five_labels /\
    res !! "score" = Some (VFloat (Fin s)) /\ -1 <= s /\ s <= 1 /\
    is_Some (res !! "price_levels").
Proof.
  apply (signals_of_enriched_frame no_sqrt [frame_bad_dates] 0%nat
           frame_bad_dates [Fin 11; Fin 12; Fin 13] [Fin 9; Fin 10; Fin 11]
           [Fin 10; Fin 11; Fin 12] [100; 110; 120]);
    [reflexivity | wf_concrete | simpl; lia | reflexivity | reflexivity
    | reflexivity | reflexivity].
Defined.

(** ** Anomalies: edge cases *)

Lemma ltb_Fin_mono (x : fl) (t t' : Q) :
  t <= t' -> Fl.ltb x (Fin t) = true -> Fl.ltb x (Fin t') = true.
Proof.
  intros Ht. destruct x as [a| | |]; simpl; try tauto.
  intros H. apply negb_true_iff in H. apply Qle_bool_false in H.
  apply negb_true_iff. apply Qle_bool_false. lra.
Qed.

(** X13.  A last close that is missing is reported as a plunge.  With a
    previous close that is a number other than 0 and a last close that is
    NaN, the move is NaN, which is not below any threshold: [check_anomaly]
    returns a record with direction plunge and a NaN change, whatever the
    threshold.  An infinite last close above a positive previous close is
    reported as a surge in the same way. *)
Theorem check_anomaly_on_missing_last_close
    (fetch_news : string -> string -> string -> option Timestamp -> list pyval)
    (symbol market name : string) (threshold : Q)
    (df : DataFrame) (p : Q) (latest_close : fl) (day : Timestamp) :
  (2 <= nrows df)%nat ->
  iloc_neg df 2 !! "close" = Some (Fin p) ->
  ~ p == 0 ->
  iloc_neg df 1 !! "close" = Some latest_close ->
  date_iloc_neg df 1 = Ok day ->
  let record :=
    anomaly_record (fetch_news symbol market name (Some day))
                   symbol market name day (Fin p) latest_close in
  (latest_close = NaN ->
   check_anomaly fetch_news (Some df) symbol market name threshold
   = Ok (Some record) /\
   record !! "direction" = Some (VStr PLUNGE) /\
   record !! "change_pct" = Some (VFloat NaN) /\
   record !! "close" = Some (VFloat NaN)) /\
  (latest_close = PInf -> 0 < p ->
   check_anomaly fetch_news (Some df) symbol market name threshold
   = Ok (Some record) /\
   record !! "direction" = Some (VStr SURGE) /\
   record !! "change_pct" = Some (VFloat PInf)).
Proof.
  intros Hn Hp Hp0 Hl Hd record.
  pose proof (check_anomaly_two_rows fetch_news symbol market name threshold
                df (Fin p) latest_close day Hn Hp Hl Hd) as Heq.
  fold record in Heq.
  change (negb (Fl.notna (Fin p)) || Fl.eqb (Fin p) (Fin 0))
    with (Qeq_bool p 0) in Heq.
  rewrite (Qeq_bool_false _ _ Hp0) in Heq.
  split.
  - intros ->. split; [exact Heq|]. repeat split.
  - intros -> Hpos. subst record. unfold anomaly_record in *.
    assert (Hc : change_pct_of (Fin p) PInf = PInf).
    { unfold change_pct_of. simpl.
      replace (Qle_bool 0 p) with true
        by (symmetry; apply Qle_bool_iff; lra).
      reflexivity. }
    rewrite Hc in *. split; [exact Heq|]. repeat split.
Qed.

Lemma check_anomaly_on_missing_last_close_witness :
  check_anomaly no_news
    (Some (mkDF 2 (Some [19000; 19001]%Z)
             (<["close" := [Fin 100; NaN]]> ∅)))
    "ASTS" "US" "AST SpaceMobile" ANOMALY_THRESHOLD
  = Ok (Some (anomaly_record [] "ASTS" "US" "AST SpaceMobile" 19001%Z
                (Fin 100) NaN)).
Proof.
  refine (proj1 (proj1
    (check_anomaly_on_missing_last_close no_news "ASTS" "US" "AST SpaceMobile"
       ANOMALY_THRESHOLD
       (mkDF 2 (Some [19000; 19001]%Z) (<["close" := [Fin 100; NaN]]> ∅))
       100 NaN 19001%Z _ _ _ _ _) _));
    first [reflexivity | simpl; lia | discriminate].
Defined.



(** X15.  Lowering the threshold never loses an anomaly: whatever
    [check_anomaly] gives at a threshold, other than no anomaly, it gives
    at every lower threshold, the record or the exception being the
    same. *)
Theorem check_anomaly_threshold_monotone
    (fetch_news : string -> string -> string -> option Timestamp -> list pyval)
    (symbol market name : string) (t t' : Q) (df : option DataFrame)
    (out : result (option (gmap string pyval))) :
  t <= t' ->
  out <> Ok None ->
  check_anomaly fetch_news df symbol market name t' = out ->
  check_anomaly fetch_news df symbol market name t = out.
Proof.
  intros Ht Hout. unfold check_anomaly.
  destruct df as [df|]; [|tauto].
  destruct (nrows df <? 2)%nat; [tauto|]. cbv zeta.
  destruct (row_getitem (iloc_neg df 2) "close") as [pc|e]; [|tauto].
  rewrite !result_bind_Ok.
  destruct (negb (Fl.notna pc) || Fl.eqb pc (Fin 0)); [tauto|].
  destruct (row_getitem (iloc_neg df 1) "close") as [lc|e]; [|tauto].
  rewrite !result_bind_Ok.
  destruct (Fl.ltb (Fl.abs (Fl.div (Fl.sub lc pc) pc)) (Fin t)) eqn:E.
  - rewrite (ltb_Fin_mono _ t t' Ht E). intros <-. congruence.
  - destruct (Fl.ltb (Fl.abs (Fl.div (Fl.sub lc pc) pc)) (Fin t'));
      [intros <-; congruence|tauto].
Qed.

Lemma check_anomaly_threshold_monotone_witness :
  check_anomaly no_news (Some (frame_closes 106)) "ASTS" "US" "AST SpaceMobile"
    ANOMALY_THRESHOLD
  = Ok (Some (anomaly_record [] "ASTS" "US" "AST SpaceMobile" 19001%Z
                (Fin 100) (Fin 106))).
Proof.
  apply (check_anomaly_threshold_monotone no_news "ASTS" "US" "AST SpaceMobile"
           ANOMALY_THRESHOLD (6 # 100) (Some (frame_closes 106)));
    [unfold ANOMALY_THRESHOLD; lra | discriminate | reflexivity].
Defined.

(** ** ADX stays between 0 and 100 *)





Lemma upto_nonneg (ub : option Q) (x : fl) : upto ub x -> nonneg x.
Proof. destruct x; simpl; tauto. Qed.








(** *** The true range and the directional movements *)









(** *** The directional indicators and the index *)






Section AdxRange.
Variables (high low close : Series).
Hypothesis Hbars : Forall nonneg (Pd.sub high low).






End AdxRange.



(** ** Warm-up of RSI and MFI *)

Lemma ewm_step_nobs (alpha : Q) (adjust : bool) (st : Pd.ewm_state) (cur : fl) :
  (Pd.nobs (Pd.ewm_step alpha adjust st cur) <= S (Pd.nobs st))%nat.
Proof.
  unfold Pd.ewm_step. cbv zeta.
  destruct (Fl.notna (Pd.weighted st)), (Fl.notna cur); simpl; lia.
Qed.

Lemma ewm_out_warm (minp : nat) (st : Pd.ewm_state) :
  (Pd.nobs st < minp)%nat -> Pd.ewm_out minp st = NaN.
Proof.
  intros H. unfold Pd.ewm_out.
  destruct (Nat.leb_spec minp (Pd.nobs st)); [lia|reflexivity].
Qed.

Lemma ewm_loop_warm (alpha : Q) (adjust : bool) (minp : nat) (vals : Series) :
  forall (st : Pd.ewm_state) (t : nat) (x : fl),
    Pd.ewm_loop alpha adjust minp st vals !! t = Some x ->
    (Pd.nobs st + S t < minp)%nat -> x = NaN.
Proof.
  induction vals as [|v vals IH]; intros st t x Hx Hn; [discriminate|].
  pose proof (ewm_step_nobs alpha adjust st v) as Hs.
  destruct t as [|t]; simpl in Hx.
  - injection Hx as <-. apply ewm_out_warm. lia.
  - apply (IH _ t x Hx). lia.
Qed.

(** An exponential average that starts on a missing cell is missing on its
    first [min_periods] rows. *)
Lemma ewm_mean_warm (com : Q) (adjust : bool) (minp : nat) (xs : Series)
    (t : nat) (x : fl) :
  xs !! 0%nat = Some NaN -> (t < minp)%nat ->
  Pd.ewm_mean com adjust minp xs !! t = Some x -> x = NaN.
Proof.
  intros H0 Ht Hx. unfold Pd.ewm_mean in Hx. cbv zeta in Hx.
  destruct xs as [|x0 xs]; [discriminate|]. injection H0 as ->.
  simpl in Hx. destruct t as [|t]; simpl in Hx.
  - injection Hx as <-. apply ewm_out_warm. simpl. lia.
  - apply (ewm_loop_warm _ _ _ _ _ t x Hx). simpl. lia.
Qed.

Lemma diff_first (close : Series) :
  (0 < length close)%nat -> Pd.diff close !! 0%nat = Some NaN.
Proof.
  intros H. unfold Pd.diff, Pd.sub. rewrite lookup_zip_with.
  destruct (lookup_lt_is_Some_2 close 0 H) as [c ->].
  rewrite shift_lookup_lt by lia. destruct c; reflexivity.
Qed.

Lemma index_of_NaN (den : fl) : index_of NaN den = NaN.
Proof. reflexivity. Qed.

Lemma rsi_warm_up (n : nat) (close : Series) (t : nat) :
  (t < length close)%nat -> (t < n)%nat -> rsi_of n close !! t = Some NaN.
Proof.
  intros Ht Hn.
  assert (Hlen : length (rsi_of n close) = length close).
  { unfold rsi_of. cbv zeta. series_length. }
  destruct (lookup_lt_is_Some_2 (rsi_of n close) t) as [x Hx];
    [rewrite Hlen; exact Ht|].
  rewrite Hx. f_equal. rewrite rsi_of_unfold in Hx.
  apply index_series_lookup in Hx as (a & b & Ha & _ & ->).
  assert (a = NaN) as ->; [|apply index_of_NaN].
  unfold rsi_avg_gain in Ha.
  apply (ewm_mean_warm _ _ _ _ t a) in Ha; [exact Ha| |exact Hn].
  unfold Pd.clip_lower. rewrite lookup_map, diff_first by lia. reflexivity.
Qed.

Lemma mfi_warm_up (n : nat) (high low close volume : Series) (t : nat) :
  (t < length (mfi_of n high low close volume))%nat -> (S t < n)%nat ->
  mfi_of n high low close volume !! t = Some NaN.
Proof.
  intros Ht Hn.
  destruct (lookup_lt_is_Some_2 _ t Ht) as [x Hx].
  rewrite Hx. f_equal. rewrite mfi_of_unfold in Hx.
  apply index_series_lookup in Hx as (a & b & Ha & _ & ->).
  assert (a = NaN) as ->; [|apply index_of_NaN].
  unfold mfi_pos_sum, Pd.rolling_sum in Ha. cbv zeta in Ha.
  rewrite rolling_warm_up in Ha; [congruence| |exact Hn].
  rewrite <- (rolling_length n Pd.fsum). eapply lookup_lt_Some, Ha.
Qed.

(** X17.  Warm-up of the two oscillators in the frame [compute_all]
    returns, on a well-formed frame: [RSI] is missing on the first 14 rows
    (the first change of the close is missing and 14 changes are required)
    and [MFI] on the first 13 rows (a window of 14 rows is required),
    whatever the prices and volumes. *)
Theorem oscillators_warm_up (fsqrt : Q -> Q) (df : DataFrame)
    (high low close volume : Series) (t : nat) :
  wf_df df ->
  cols df !! "close" = Some close ->
  cols df !! "high" = Some high ->
  cols df !! "low" = Some low ->
  cols df !! "volume" = Some volume ->
  (t < nrows df)%nat ->
  exists rsi mfi,
    enriched_column fsqrt df "RSI" = Some rsi /\
    enriched_column fsqrt df "MFI" = Some mfi /\
    length rsi = nrows df /\ length mfi = nrows df /\
    ((t < 14)%nat -> rsi !! t = Some NaN) /\
    ((t < 13)%nat -> mfi !! t = Some NaN).
Proof.
  intros Hwf Hc Hh Hl Hv Ht.
  pose proof (wf_df_length df _ _ Hc Hwf) as Lc.
  pose proof (wf_df_length df _ _ Hh Hwf) as Lh.
  pose proof (wf_df_length df _ _ Hl Hwf) as Ll.
  pose proof (wf_df_length df _ _ Hv Hwf) as Lv.
  exists (rsi_of (rsi_period INDICATOR_PARAMS) close),
    (mfi_of (mfi_period INDICATOR_PARAMS) high low close volume).
  assert (Lr : length (rsi_of (rsi_period INDICATOR_PARAMS) close) = nrows df)
    by (unfold rsi_of; cbv zeta; series_length).
  assert (Lm : length (mfi_of (mfi_period INDICATOR_PARAMS) high low close
                              volume) = nrows df)
    by (unfold mfi_of; cbv zeta; series_length).
  split; [enriched_col|]. split; [enriched_col|].
  split; [exact Lr|]. split; [exact Lm|]. split.
  - intros H14. apply rsi_warm_up; [lia|exact H14].
  - intros H13. apply mfi_warm_up; [lia|simpl; lia].
Qed.

Lemma oscillators_warm_up_witness :
  exists rsi mfi,
    enriched_column no_sqrt frame_bad_dates "RSI" = Some rsi /\
    enriched_column no_sqrt frame_bad_dates "MFI" = Some mfi /\
    length rsi = nrows frame_bad_dates /\
    length mfi = nrows frame_bad_dates /\
    ((2 < 14)%nat -> rsi !! 2%nat = Some NaN) /\
    ((2 < 13)%nat -> mfi !! 2%nat = Some NaN).
Proof.
  apply (oscillators_warm_up no_sqrt frame_bad_dates
           [Fin 11; Fin 12; Fin 13] [Fin 9; Fin 10; Fin 11]
           [Fin 10; Fin 11; Fin 12] [Fin 100; Fin 110; Fin 120] 2);
    [wf_concrete | reflexivity | reflexivity | reflexivity | reflexivity
    | simpl; lia].
Defined.

(** ** The moving-average cross *)

Lemma has_column_true (df : DataFrame) (k : nat) (c : string) (x : fl) :
  c <> "date"%string -> iloc_neg df k !! c = Some x -> has_column df c = true.
Proof.
  intros Hc Hx. unfold has_column.
  destruct (decide (c = "date"%string)); [contradiction|].
  apply bool_decide_eq_true. unfold iloc_neg in Hx.
  rewrite lookup_omap in Hx. destruct (cols df !! c); [eauto|discriminate].
Qed.

(** X18.  The cross of the 5-row and the 20-row moving average in
    [generate_signals], when both are numbers on the last two rows.  A
    golden cross, with a vote of +1, is cast exactly when MA5 was at or
    below MA20 on the previous row and is above it on the last one; a death
    cross, with a vote of -1, exactly when MA5 was at or above MA20 and is
    below it now; otherwise no vote is cast and the detail says that there
    is no cross.  At most one vote is cast and the volume votes are left
    alone. *)
Theorem cross_block_votes (df : DataFrame) (st : sigstate)
    (r5 r20 p5 p20 : Q) :
  iloc_neg df 1 !! "MA5" = Some (Fin r5) ->
  iloc_neg df 1 !! "MA20" = Some (Fin r20) ->
  iloc_neg df 2 !! "MA5" = Some (Fin p5) ->
  iloc_neg df 2 !! "MA20" = Some (Fin p20) ->
  exists st',
    cross_block df st = Ok st' /\
    vol_signals st' = vol_signals st /\
    (p5 <= p20 /\ r20 < r5 ->
     votes st' = votes st ++ [1] /\
     details st' !! "均线交叉" = Some (VStr GOLDEN_CROSS)) /\
    (p20 <= p5 /\ r5 < r20 ->
     votes st' = votes st ++ [-1] /\
     details st' !! "均线交叉" = Some (VStr DEATH_CROSS)) /\
    (~ (p5 <= p20 /\ r20 < r5) -> ~ (p20 <= p5 /\ r5 < r20) ->
     votes st' = votes st /\
     details st' !! "均线交叉" = Some (VStr NO_CROSS)).
Proof.
  intros Hr5 Hr20 Hp5 Hp20. unfold cross_block.
  rewrite (has_column_true df 1 "MA5" _ ltac:(discriminate) Hr5).
  rewrite (has_column_true df 1 "MA20" _ ltac:(discriminate) Hr20).
  rewrite (row_getitem_Some _ _ _ Hr5), (row_getitem_Some _ _ _ Hr20).
  rewrite (row_getitem_Some _ _ _ Hp5), (row_getitem_Some _ _ _ Hp20).
  rewrite Hp5, Hp20. simpl andb. rewrite !result_bind_Ok. cbv iota.
  change (Fl.leb (Fin p5) (Fin p20)) with (Qle_bool p5 p20).
  change (Fl.gtb (Fin r5) (Fin r20)) with (negb (Qle_bool r5 r20)).
  change (Fl.geb (Fin p5) (Fin p20)) with (Qle_bool p20 p5).
  change (Fl.ltb (Fin r5) (Fin r20)) with (negb (Qle_bool r20 r5)).
  destruct (Qle_bool p5 p20) eqn:E1, (Qle_bool r5 r20) eqn:E2,
    (Qle_bool p20 p5) eqn:E3, (Qle_bool r20 r5) eqn:E4;
    simpl; qbool; eexists; (split; [reflexivity|]);
    (split; [reflexivity|]);
    repeat split; intros; try reflexivity;
    try (exfalso; lra); try tauto;
    apply lookup_insert_eq.
Qed.

Lemma cross_block_votes_witness :
  exists st',
    cross_block frame_golden_cross (SigState ∅ [] []) = Ok st' /\
    vol_signals st' = [] /\
    (9 <= 10 /\ 10 < 11 ->
     votes st' = [] ++ [1] /\
     details st' !! "均线交叉" = Some (VStr GOLDEN_CROSS)) /\
    (10 <= 9 /\ 11 < 10 ->
     votes st' = [] ++ [-1] /\
     details st' !! "均线交叉" = Some (VStr DEATH_CROSS)) /\
    (~ (9 <= 10 /\ 10 < 11) -> ~ (10 <= 9 /\ 11 < 10) ->
     votes st' = [] /\
     details st' !! "均线交叉" = Some (VStr NO_CROSS)).
Proof.
  apply (cross_block_votes frame_golden_cross (SigState ∅ [] []) 11 10 9 10);
    reflexivity.
Defined.

(** X19.  The labels of a sub-signal, [_label], by score: at least 0.6 is
    strongly bullish, above 0 bullish, exactly 0 neutral, above -0.6
    bearish and anything lower strongly bearish.  They never contradict the
    label of the same score as a signal: a buy is bullish, a sell bearish,
    the strong labels coincide, and a neutral score is a hold. *)
Theorem label_table (s : Q) :
  (_label s = STRONG_BULL <-> 0.6 <= s) /\
  (_label s = BULL <-> 0 < s /\ s < 0.6) /\
  (_label s = NEUTRAL <-> s == 0) /\
  (_label s = BEAR <-> -0.6 < s /\ s < 0) /\
  (_label s = STRONG_BEAR <-> s <= -0.6) /\
  (_score_to_signal s = STRONG_BUY <-> _label s = STRONG_BULL) /\
  (_score_to_signal s = STRONG_SELL <-> _label s = STRONG_BEAR) /\
  (_score_to_signal s = BUY -> _label s = BULL) /\
  (_score_to_signal s = SELL -> _label s = BEAR) /\
  (_label s = NEUTRAL -> _score_to_signal s = HOLD).
Proof.
  unfold _label, _score_to_signal.
  destruct (Qle_bool 0.6 s) eqn:E1, (Qle_bool s 0) eqn:E2,
    (Qeq_bool s 0) eqn:E3, (Qle_bool s (-0.6)) eqn:E4,
    (Qle_bool 0.2 s) eqn:E5, (Qle_bool s (-0.2)) eqn:E6;
    simpl; try (apply Qeq_bool_neq in E3); qbool;
    try (assert (Hneg : s < 0)
           by (destruct (proj1 (Qle_lteq s 0) E2); [assumption|contradiction]));
    try (exfalso; lra);
    repeat split; intros; try reflexivity; try discriminate;
    try (exfalso; lra); try tauto.
Qed.

(** ** Enriching twice *)

Lemma enrich_indicator_again (fsqrt : Q -> Q) (d : DataFrame)
    (high low close volume : Series) (c : string) :
  c ∈ indicator_columns ->
  cols (enrich fsqrt high low close volume
          (enrich fsqrt high low close volume d)) !! c
  = cols (enrich fsqrt high low close volume d) !! c.
Proof.
  rewrite indicator_columns_eq. intros Hc.
  apply list_elem_of_In in Hc. simpl in Hc.
  repeat (destruct Hc as [<-|Hc]; [enrich_lookup|]).
  contradiction.
Qed.

Lemma enrich_other_column (fsqrt : Q -> Q) (d : DataFrame)
    (high low close volume : Series) (c : string) :
  c ∉ indicator_columns ->
  cols (enrich fsqrt high low close volume d) !! c = cols d !! c.
Proof.
  intros Hc. unfold enrich. through_frames. reflexivity.
Qed.

Lemma enrich_idempotent (fsqrt : Q -> Q) (d : DataFrame)
    (high low close volume : Series) :
  cols (enrich fsqrt high low close volume
          (enrich fsqrt high low close volume d))
  = cols (enrich fsqrt high low close volume d).
Proof.
  apply map_eq. intros c.
  destruct (decide (c ∈ indicator_columns)) as [Hc|Hc].
  - apply enrich_indicator_again, Hc.
  - apply enrich_other_column, Hc.
Qed.

(** X20.  Enriching an enriched frame changes nothing: [compute_all] run
    on the frame it returned gives a third frame with exactly the same
    columns, rows and dates, every indicator being computed again from the
    four columns it left untouched. *)
Theorem compute_all_twice (fsqrt : Q -> Q) (st : store) (r : ref)
    (df : DataFrame) :
  st !! r = Some df ->
  first_missing df = None ->
  exists d1 d2,
    compute_all fsqrt r st = (Ok (length st), st ++ [d1]) /\
    compute_all fsqrt (length st) (st ++ [d1])
    = (Ok (S (length st)), st ++ [d1; d2]) /\
    cols d2 = cols d1 /\ nrows d2 = nrows d1 /\ date d2 = date d1.
Proof.
  intros Hr Hm.
  destruct (first_missing_None df Hm)
    as (close & high & low & volume & Hc & Hh & Hl & Hv).
  set (d1 := enrich fsqrt high low close volume df).
  exists d1, (enrich fsqrt high low close volume d1).
  split; [apply compute_all_runs; assumption|].
  split.
  - rewrite (compute_all_runs fsqrt (st ++ [d1]) (length st) d1
               high low close volume).
    + rewrite length_app, <- app_assoc. simpl.
      replace (length st + 1)%nat with (S (length st)) by lia. reflexivity.
    + apply store_last.
    + subst d1. rewrite enrich_other_column by exact close_not_indicator.
      exact Hc.
    + subst d1. rewrite enrich_other_column by exact high_not_indicator.
      exact Hh.
    + subst d1. rewrite enrich_other_column by exact low_not_indicator.
      exact Hl.
    + subst d1. rewrite enrich_other_column by exact volume_not_indicator.
      exact Hv.
  - split; [apply enrich_idempotent|].
    assert (He : enriches d1 (enrich fsqrt high low close volume d1)).
    { apply enriches_enrich; subst d1.
      - rewrite enrich_other_column by exact close_not_indicator. exact Hc.
      - rewrite enrich_other_column by exact high_not_indicator. exact Hh.
      - rewrite enrich_other_column by exact low_not_indicator. exact Hl.
      - rewrite enrich_other_column by exact volume_not_indicator. exact Hv. }
    destruct He as (Hn & Hd & _). split; assumption.
Qed.

Lemma compute_all_twice_witness :
  exists d1 d2,
    compute_all no_sqrt 0%nat [frame_bad_dates]
    = (Ok 1%nat, [frame_bad_dates] ++ [d1]) /\
    compute_all no_sqrt 1%nat ([frame_bad_dates] ++ [d1])
    = (Ok 2%nat, [frame_bad_dates] ++ [d1; d2]) /\
    cols d2 = cols d1 /\ nrows d2 = nrows d1 /\ date d2 = date d1.
Proof.
  apply (compute_all_twice no_sqrt [frame_bad_dates] 0%nat frame_bad_dates);
    reflexivity.
Defined.

(** ** The MACD vote on an enriched frame *)

Lemma macd_lines_Fin (cs : list Q) :
  exists ms ss,
    macd_line (map Fin cs) = map Fin ms /\
    macd_signal_line (map Fin cs) = map Fin ss.
Proof.
  destruct (ewm_mean_plain (Pd.com_of_span 12) cs) as (e1 & He1 & _).
  destruct (ewm_mean_plain (Pd.com_of_span 26) cs) as (e2 & He2 & _).
  destruct (ewm_mean_plain (Pd.com_of_span 9) (zip_with Qminus e1 e2))
    as (ss & Hss & _).
  assert (Hm : macd_line (map Fin cs) = map Fin (zip_with Qminus e1 e2)).
  { unfold macd_line.
    change (macd_fast INDICATOR_PARAMS) with 12%nat.
    change (macd_slow INDICATOR_PARAMS) with 26%nat.
    rewrite He1, He2. apply sub_Fin. }
  exists (zip_with Qminus e1 e2), ss. split; [exact Hm|].
  unfold macd_signal_line. rewrite Hm.
  change (macd_signal INDICATOR_PARAMS) with 9%nat. exact Hss.
Qed.

Lemma row_of_Fin_column (d : DataFrame) (k : nat) (c : string) (qs : list Q) :
  wf_df d -> cols d !! c = Some (map Fin qs) -> (1 <= k <= nrows d)%nat ->
  exists q, iloc_neg d k !! c = Some (Fin q).
Proof.
  intros Hwf Hc Hk.
  destruct (iloc_neg_lookup d k c _ Hwf Hc Hk) as (x & Hx & Hq).
  rewrite lookup_map in Hq.
  destruct (qs !! (nrows d - k)%nat) as [q|]; [|discriminate].
  injection Hq as <-. exists q. exact Hx.
Qed.

Lemma macd_block_casts_one (df : DataFrame) (st st' : sigstate) (m h : Q) :
  has_column df "MACD" = true -> has_column df "MACD_signal" = true ->
  iloc_neg df 1 !! "MACD" = Some (Fin m) ->
  iloc_neg df 1 !! "MACD_hist" = Some (Fin h) ->
  (exists h', iloc_neg df 2 !! "MACD_hist" = Some (Fin h')) ->
  macd_block df st = Ok st' ->
  exists q, votes st' = votes st ++ [q].
Proof.
  intros H1 H2 Hm Hh [h' Hh'] H. unfold macd_block in H.
  rewrite H1, H2 in H.
  rewrite (has_column_true df 1 "MACD_hist" _ ltac:(discriminate) Hh) in H.
  rewrite Hm, Hh' in H. simpl andb in H. cbv iota in H.
  rewrite (row_getitem_Some _ _ _ Hh), (row_getitem_Some _ _ _ Hh') in H.
  rewrite !result_bind_Ok in H.
  repeat case_match; injection H as <-; eexists; reflexivity.
Qed.

Lemma run_blocks_casts_macd (df : DataFrame) (sst : sigstate) :
  wf_df df ->
  (forall st st', macd_block df st = Ok st' ->
                  exists q, votes st' = votes st ++ [q]) ->
  run_blocks df = Ok sst -> votes sst <> [].
Proof.
  intros Hwf Hmacd H. unfold run_blocks in H.
  apply result_bind_inv in H as (s1 & E1 & H).
  apply result_bind_inv in H as (s2 & E2 & H). cbv zeta in H.
  apply result_bind_inv in H as (s4 & E4 & H).
  apply result_bind_inv in H as (s5 & E5 & H). cbv zeta in H.
  apply result_bind_inv in H as (s9 & E9 & H). cbv zeta in H.
  apply result_bind_inv in H as (s12 & E12 & H).
  injection H as <-.
  apply Hmacd in E4 as (q & V4).
  apply adx_block_casts in E5 as (v5 & [V5 W5] & _).
  destruct (boll_block_casts df s5) as (v6 & [V6 W6] & _).
  destruct (roc_block_casts df (boll_block df s5)) as (v7 & [V7 W7] & _).
  destruct (mom_block_casts df (roc_block df (boll_block df s5)))
    as (v8 & [V8 W8] & _).
  apply (obv_block_casts df _ _ Hwf) in E9 as [V9 W9].
  destruct (mfi_block_casts df s9) as (w10 & [V10 W10] & _).
  destruct (vroc_block_casts df (mfi_block df s9)) as [V11 W11].
  apply vol_ma_loop_casts in E12 as [V12 W12].
  intros Hnil. apply (f_equal (@length Q)) in Hnil.
  unfold extend_votes in Hnil. simpl in Hnil.
  rewrite length_app, V12, V11, V10, V9, V8, V7, V6, V5, V4 in Hnil.
  rewrite !length_app in Hnil. simpl in Hnil. lia.
Qed.

(** X21.  On the frame [compute_all] returns for at least two bars whose
    closes are numbers, the MACD sub-signal of [generate_signals] always
    casts its vote, since the MACD columns have no warm-up: the list of
    votes is never empty, and the score is never the default of a run
    without votes. *)
Theorem macd_vote_is_always_cast (fsqrt : Q -> Q) (st : store) (r : ref)
    (df : DataFrame) (high low volume : Series) (cs : list Q) :
  st !! r = Some df ->
  wf_df df -> (2 <= nrows df)%nat ->
  cols df !! "close" = Some (map Fin cs) ->
  cols df !! "high" = Some high ->
  cols df !! "low" = Some low ->
  cols df !! "volume" = Some volume ->
  exists d',
    compute_all fsqrt r st = (Ok (length st), st ++ [d']) /\
    (forall sst, run_blocks d' = Ok sst ->
       votes sst <> [] /\
       score_of (votes sst) = Qsum (votes sst) / Qnat (length (votes sst))).
Proof.
  intros Hr Hwf Hn Hc Hh Hl Hv.
  pose proof (enriches_enrich fsqrt df high low (map Fin cs) volume Hc Hh Hl Hv)
    as He.
  set (d' := enrich fsqrt high low (map Fin cs) volume df) in *.
  exists d'. split; [apply compute_all_runs; assumption|].
  assert (Hwf' : wf_df d') by (apply He, Hwf).
  assert (Hn' : nrows d' = nrows df) by apply He.
  destruct (macd_lines_Fin cs) as (ms & ss & Hms & Hss).
  assert (Cm : cols d' !! "MACD" = Some (map Fin ms))
    by (rewrite <- Hms; subst d'; enrich_lookup).
  assert (Cs : cols d' !! "MACD_signal" = Some (map Fin ss))
    by (rewrite <- Hss; subst d'; enrich_lookup).
  assert (Ch : cols d' !! "MACD_hist" = Some (map Fin (zip_with Qminus ms ss)))
    by (rewrite <- sub_Fin, <- Hms, <- Hss; subst d'; enrich_lookup).
  destruct (row_of_Fin_column d' 1 "MACD" ms Hwf' Cm ltac:(lia)) as [m Rm].
  destruct (row_of_Fin_column d' 1 "MACD_signal" ss Hwf' Cs ltac:(lia))
    as [s Rs].
  destruct (row_of_Fin_column d' 1 "MACD_hist" _ Hwf' Ch ltac:(lia))
    as [h Rh].
  pose proof (row_of_Fin_column d' 2 "MACD_hist" _ Hwf' Ch ltac:(lia)) as Ph.
  intros sst Hb.
  assert (Hne : votes sst <> []).
  { apply (run_blocks_casts_macd d' sst Hwf'); [|exact Hb].
    intros s0 s0' H0.
    apply (macd_block_casts_one d' s0 s0' m h); try assumption.
    - apply (has_column_true d' 1 "MACD" _ ltac:(discriminate) Rm).
    - apply (has_column_true d' 1 "MACD_signal" _ ltac:(discriminate) Rs). }
  split; [exact Hne|]. apply score_of_mean, Hne.
Qed.

Lemma macd_vote_is_always_cast_witness :
  exists d',
    compute_all no_sqrt 0%nat [frame_bad_dates]
    = (Ok 1%nat, [frame_bad_dates] ++ [d']) /\
    (forall sst, run_blocks d' = Ok sst ->
       votes sst <> [] /\
       score_of (votes sst) = Qsum (votes sst) / Qnat (length (votes sst))).
Proof.
  apply (macd_vote_is_always_cast no_sqrt [frame_bad_dates] 0%nat
           frame_bad_dates [Fin 11; Fin 12; Fin 13] [Fin 9; Fin 10; Fin 11]
           [Fin 100; Fin 110; Fin 120] [10; 11; 12]);
    [reflexivity | wf_concrete | simpl; lia | reflexivity | reflexivity
    | reflexivity | reflexivity].
Defined.
